(** * The mathjs build script (gulpfile.js), embedded and verified

    The gulpfile is a script over the file system, the process state and
    a handful of external tools (webpack, babel, uglify-js, the doc and
    entry generators).  Its functions are embedded as computations in a
    state-and-exception monad over an explicit [World]; the external
    tools are fields of a record [Tools] that every theorem quantifies
    over.  JavaScript strings are [string]s; the JavaScript string
    primitives the script calls ([String.prototype.replace] with a string
    pattern, [substr], [RegExp.prototype.test] for a literal pattern) are
    embedded as functions on them.

    gulp itself is not part of the script.  Its task protocol and its
    combinators [series], [parallel] and [watch] are embedded by what
    they do with the functions the script gives them: a series runs its
    tasks one after the other and stops at the first that does not
    succeed; a parallel composition starts all of its tasks; a watcher
    debounces the file changes it is subscribed to and then runs its
    task.  What runs concurrently in gulp is taken in one schedule here:
    the tasks of a parallel composition one after the other.  An
    exception thrown by a task function after it has signalled completion
    is caught by nobody; under the watcher it ends the process, which a
    computation shows by ending with [Throw].

    The task [validate:ascii] is registered on its own and is no part of
    the default pipeline or of the watch task; its function is embedded
    apart from the others, over the tool it calls. *)

From Stdlib Require Import ZArith String Ascii List Bool Lia DecimalString.
From stdpp Require Import base option list gmap sets strings.

Set Warnings "-register-all,-clear-no-such-hyp".

Local Open Scope string_scope.
Local Open Scope Z_scope.

(** ** JavaScript strings *)

Module JsString.

(** Characters the source writes with an escape. *)
Definition nl : string := String (ascii_of_nat 10) "".
Definition dquote : string := String (ascii_of_nat 34) "".

Fixpoint take (n : nat) (s : string) : string :=
  match n, s with
  | S n', String c s' => String c (take n' s')
  | _, _ => ""
  end.

Fixpoint drop (n : nat) (s : string) : string :=
  match n, s with
  | S n', String _ s' => drop n' s'
  | _, _ => s
  end.

(** [s.substr(0, n)] *)
Definition substr0 (n : nat) (s : string) : string := take n s.

(** [s.startsWith(p)] *)
Fixpoint startsWith (p s : string) : bool :=
  match p, s with
  | "", _ => true
  | String a p', String b s' => if decide (a = b) then startsWith p' s' else false
  | String _ _, "" => false
  end.

(** The first occurrence of [p] in [s], as the text before it and the text
    after it: [s.indexOf(p)] is the length of the first component. *)
Fixpoint search (p s : string) : option (string * string) :=
  if startsWith p s then Some ("", drop (String.length p) s)
  else match s with
       | "" => None
       | String c s' =>
           match search p s' with
           | Some (b, a) => Some (String c b, a)
           | None => None
           end
       end.

Definition indexOf (p s : string) : option nat :=
  (λ ba, String.length ba.1) <$> search p s.

(** [s.includes(p)], which is also [/p/.test(s)] for a pattern [p] of
    literal characters. *)
Definition includes (p s : string) : bool := bool_decide (is_Some (search p s)).

Fixpoint mem (c : ascii) (s : string) : bool :=
  match s with
  | "" => false
  | String a s' => if decide (a = c) then true else mem c s'
  end.

Fixpoint all_chars (f : ascii → bool) (s : string) : bool :=
  match s with
  | "" => true
  | String a s' => f a && all_chars f s'
  end.

(** GetSubstitution of ECMAScript for a pattern without capture groups:
    in the replacement text [$$] stands for a dollar sign, [$&] for the
    matched text, [$`] for the text before the match and [$'] for the
    text after it; every other character stands for itself. *)
Fixpoint getSubstitution (matched before after r : string) : string :=
  match r with
  | "" => ""
  | String "$" (String "$" r') =>
      String "$" (getSubstitution matched before after r')
  | String "$" (String "&" r') =>
      matched +:+ getSubstitution matched before after r'
  | String "$" (String "`" r') =>
      before +:+ getSubstitution matched before after r'
  | String "$" (String "'" r') =>
      after +:+ getSubstitution matched before after r'
  | String c r' => String c (getSubstitution matched before after r')
  end.

(** [s.replace(p, r)] for strings [p] and [r]: only the first occurrence
    of [p] is replaced. *)
Definition replace (s p r : string) : string :=
  match search p s with
  | None => s
  | Some (b, a) => b +:+ getSubstitution p b a r +:+ a
  end.

(** [xs.join(sep)] *)
Fixpoint join (sep : string) (xs : list string) : string :=
  match xs with
  | [] => ""
  | [x] => x
  | x :: xs' => x +:+ sep +:+ join sep xs'
  end.

End JsString.

Import JsString.

(** ** JavaScript values, errors and dates *)

(** The values [JSON.parse] can return, and [undefined].  A number is kept
    by the text [String(n)] yields for it; an object by its own properties. *)
Inductive JSValue : Type :=
  | JUndefined
  | JNull
  | JBool (b : bool)
  | JNumber (repr : string)
  | JString (s : string)
  | JArray (xs : list JSValue)
  | JObject (props : list (string * JSValue)).

(** [String(v)], the conversion [+] and [replace] apply to a value. *)
Fixpoint toString (v : JSValue) : string :=
  match v with
  | JUndefined => "undefined"
  | JNull => "null"
  | JBool true => "true"
  | JBool false => "false"
  | JNumber r => r
  | JString s => s
  | JArray xs =>
      join "," (List.map (λ x, match x with
                               | JUndefined | JNull => ""
                               | _ => toString x
                               end) xs)
  | JObject _ => "[object Object]"
  end.

Inductive Error : Type :=
  | FsError (syscall path : string)   (* thrown by fs and process calls *)
  | TypeError (msg : string)
  | SyntaxError (msg : string)        (* thrown by JSON.parse *)
  | MkError (msg : string)            (* new Error(msg) *)
  | ToolError (msg : string).         (* whatever an external tool raises *)

Inductive Result (A : Type) : Type :=
  | Ok (a : A)
  | Throw (e : Error).
Arguments Ok {A} a.
Arguments Throw {A} e.

Definition is_throw {A} (r : Result A) : bool :=
  match r with Throw _ => true | Ok _ => false end.

(** [v.version]: property access throws on [null] and [undefined], finds
    nothing on the other primitives and on arrays. *)
Fixpoint lookup_prop (k : string) (props : list (string * JSValue)) : JSValue :=
  match props with
  | [] => JUndefined
  | (k', v) :: rest => if decide (k' = k) then v else lookup_prop k rest
  end.

Definition get_version_prop (v : JSValue) : Result JSValue :=
  match v with
  | JUndefined => Throw (TypeError "Cannot read property 'version' of undefined")
  | JNull => Throw (TypeError "Cannot read property 'version' of null")
  | JObject props => Ok (lookup_prop "version" props)
  | _ => Ok JUndefined
  end.

(** A [Date], by its UTC fields. *)
Record UTCTime : Type := {
  year : Z; month : Z; day : Z;
  hours : Z; minutes : Z; seconds : Z; millis : Z
}.

Definition digitChar (z : Z) : ascii := ascii_of_nat (48 + Z.to_nat (z mod 10)).

(** The [n] lowest decimal digits of [z]. *)
Fixpoint fixed (n : nat) (z : Z) : string :=
  match n with
  | O => ""
  | S n' => fixed n' (z / 10) +:+ String (digitChar z) ""
  end.

(** [Date.prototype.toISOString]: years outside 0..9999 take a sign and six
    digits. *)
Definition isoYear (y : Z) : string :=
  if decide (0 ≤ y ≤ 9999) then fixed 4 y
  else (if decide (y < 0) then "-" else "+") +:+ fixed 6 (Z.abs y).

Definition toISOString (d : UTCTime) : string :=
  isoYear (year d) +:+ "-" +:+ fixed 2 (month d) +:+ "-" +:+ fixed 2 (day d)
  +:+ "T" +:+ fixed 2 (hours d) +:+ ":" +:+ fixed 2 (minutes d)
  +:+ ":" +:+ fixed 2 (seconds d) +:+ "." +:+ fixed 3 (millis d) +:+ "Z".

(** ** The world the script runs in *)

Inductive TaskName : Type :=
  | TBundle | TCompile | TWriteBanner | TGenerateEntryFiles
  | TAddDeprecatedFunctions | TMinify | TValidate | TGenerateDocs
  | TWatch.

Global Instance TaskName_eq_dec : EqDecision TaskName.
Proof. solve_decision. Defined.

Global Instance Error_eq_dec : EqDecision Error.
Proof. solve_decision. Defined.

(** How gulp sees a task end. *)
Inductive Outcome : Type :=
  | Success
  | Failure (e : Error).

Global Instance Outcome_eq_dec : EqDecision Outcome.
Proof. solve_decision. Defined.

(** What a run leaves behind, in the order it happens. *)
Inductive Event : Type :=
  | EvLog (msg : string)               (* fancy-log *)
  | EvStdout (s : string)
  | EvStderr (s : string)
  | EvWrite (path content : string)    (* a file written by the script *)
  | EvDone (e : option Error)          (* a call of a completion callback *)
  | EvStart (t : TaskName)
  | EvEnd (t : TaskName) (o : Outcome).

Global Instance Event_eq_dec : EqDecision Event.
Proof. solve_decision. Defined.

(** The file system, as far as the script and its tools use it: text files
    by absolute path, the directories one can change into, and the paths a
    write to which fails.  A file is held as the text [String(buffer)]
    reads from it and [writeFileSync] writes back, so the files are taken
    to be valid UTF-8. *)
Record FileSystem : Type := {
  files : gmap string string;
  dirs : gset string;
  unwritable : gset string
}.

(** A file watcher created by [gulp.watch]: what it watches, what it runs,
    and whether its debounce timer is armed. *)
Record Watcher : Type := {
  globs : list string;
  ignored : string;          (* the text a literal [ignored] pattern matches *)
  ignoreInitial : bool;
  delay : nat;               (* debounce window, in ms *)
  handler : list TaskName;   (* the tasks of the parallel composition it runs *)
  armed : bool
}.

Definition set_armed (b : bool) (wt : Watcher) : Watcher :=
  {| globs := globs wt; ignored := ignored wt; ignoreInitial := ignoreInitial wt;
     delay := delay wt; handler := handler wt; armed := b |}.

Record World : Type := {
  fs : FileSystem;
  cwd : string;                          (* process.cwd() *)
  now : UTCTime;                         (* new Date() *)
  signalled : option (option Error);     (* first call of the running task's callback *)
  watcher : option Watcher;              (* the live subscription, if any *)
  trace : list Event
}.

Definition set_fs (f : FileSystem) (w : World) : World :=
  {| fs := f; cwd := cwd w; now := now w; signalled := signalled w;
     watcher := watcher w; trace := trace w |}.
Definition set_cwd (d : string) (w : World) : World :=
  {| fs := fs w; cwd := d; now := now w; signalled := signalled w;
     watcher := watcher w; trace := trace w |}.
Definition set_signalled (s : option (option Error)) (w : World) : World :=
  {| fs := fs w; cwd := cwd w; now := now w; signalled := s;
     watcher := watcher w; trace := trace w |}.
Definition set_watcher (wt : option Watcher) (w : World) : World :=
  {| fs := fs w; cwd := cwd w; now := now w; signalled := signalled w;
     watcher := wt; trace := trace w |}.
Definition emit (e : Event) (w : World) : World :=
  {| fs := fs w; cwd := cwd w; now := now w; signalled := signalled w;
     watcher := watcher w; trace := trace w ++ [e] |}.
Definition set_file (p c : string) (f : FileSystem) : FileSystem :=
  {| files := <[p := c]> (files f); dirs := dirs f; unwritable := unwritable f |}.

(** ** Computations: state and exceptions *)

Definition M (A : Type) : Type := World → Result A * World.

Global Instance M_ret : MRet M := λ A a w, (Ok a, w).
Global Instance M_bind : MBind M := λ A B f m w,
  match m w with
  | (Ok a, w') => f a w'
  | (Throw e, w') => (Throw e, w')
  end.

Definition throw {A} (e : Error) : M A := λ w, (Throw e, w).
Definition lift {A} (r : Result A) : M A := λ w, (r, w).
Definition gets {A} (f : World → A) : M A := λ w, (Ok (f w), w).
Definition modify (f : World → World) : M unit := λ w, (Ok tt, f w).

(** [try { body } finally { cleanup }]: the cleanup runs on both exits, and
    an exception of its own replaces the body's result. *)
Definition try_finally {A} (body : M A) (cleanup : M unit) : M A := λ w,
  let '(r, w1) := body w in
  match cleanup w1 with
  | (Ok _, w2) => (r, w2)
  | (Throw e, w2) => (Throw e, w2)
  end.

(** [try { body } catch (e) { handler e }] *)
Definition try_catch {A} (body : M A) (handler : Error → M A) : M A := λ w,
  match body w with
  | (Ok a, w1) => (Ok a, w1)
  | (Throw e, w1) => handler e w1
  end.

(** ** Node primitives *)

(** A relative path is taken from the working directory. *)
Definition resolve (dir p : string) : string :=
  if startsWith "/" p then p
  else dir +:+ "/" +:+ (if startsWith "./" p then drop 2 p else p).

(** [String(fs.readFileSync(p))] *)
Definition readFileSync (p : string) : M string := λ w,
  let q := resolve (cwd w) p in
  match files (fs w) !! q with
  | Some c => (Ok c, w)
  | None => (Throw (FsError "open" q), w)
  end.

(** [fs.writeFileSync(p, c)]: the whole file is replaced. *)
Definition writeFileSync (p c : string) : M unit := λ w,
  let q := resolve (cwd w) p in
  if decide (q ∈ unwritable (fs w)) then (Throw (FsError "open" q), w)
  else (Ok tt, emit (EvWrite q c) (set_fs (set_file q c (fs w)) w)).

(** [process.cwd()] fails when the working directory is gone. *)
Definition process_cwd : M string := λ w,
  if decide (cwd w ∈ dirs (fs w)) then (Ok (cwd w), w)
  else (Throw (FsError "uv_cwd" (cwd w)), w).

(** [process.chdir(d)] *)
Definition process_chdir (d : string) : M unit := λ w,
  let q := resolve (cwd w) d in
  if decide (q ∈ dirs (fs w)) then (Ok tt, set_cwd q w)
  else (Throw (FsError "chdir" q), w).

Definition log (msg : string) : M unit := modify (emit (EvLog msg)).

(** [new Date().toISOString()] *)
Definition date_now_iso : M string := gets (λ w, toISOString (now w)).

(** ** The external tools

    What the script calls and does not define.  A tool that works on files
    sees the working directory and the file system and may change the
    latter. *)

(** What the script reads of webpack's [stats]. *)
Record Stats : Type := {
  hasWarnings : bool;
  hasErrors : bool;
  warnings : list string;    (* stats.toJson().warnings *)
  errors : list string       (* stats.toJson().errors *)
}.

(** What the script reads of the object [uglify.minify] returns. *)
Record UglifyResult : Type := {
  u_error : option Error;
  u_code : string;
  u_map : string
}.

Record Tools : Type := {
  dirname : string;                                     (* __dirname *)
  JSON_parse : string → Result JSValue;
  (* compiler.run, given the banner: the arguments of its callback *)
  webpack_run : string → string → FileSystem →
                (option Error * option Stats) * FileSystem;
  (* gulp.src(COMPILE_SRC).pipe(babel()).pipe(gulp.dest(COMPILE_LIB)) *)
  babel_pipeline : string → FileSystem → Result unit * FileSystem;
  (* uglify.minify({ 'math.js': code }, uglifyConfig) *)
  uglify_minify : string → UglifyResult;
  (* execFile('node', ['./tools/validateEmbeddedDocs']): err, stdout, stderr *)
  execFile_validate : string → FileSystem →
                      (option Error * string * string) * FileSystem;
  (* require(REF_SRC + 'entry/bundleAny'): its keys, and whether each is a function *)
  require_bundleAny : string → FileSystem →
                      Result (list (string * bool)) * FileSystem;
  docgenerator_iteratePath : list string → string → FileSystem →
                             Result unit * FileSystem;
  entryGenerator_generateEntryFiles : string → FileSystem →
                                      Result unit * FileSystem;
  (* whether a path matches a glob, as chokidar decides it *)
  glob_match : string → string → bool
}.

Definition external {A} (f : string → FileSystem → A * FileSystem) : M A := λ w,
  let '(a, f') := f (cwd w) (fs w) in (Ok a, set_fs f' w).

Definition external_r {A} (f : string → FileSystem → Result A * FileSystem) : M A :=
  λ w, let '(r, f') := f (cwd w) (fs w) in (r, set_fs f' w).

Definition error_message (e : Error) : string :=
  match e with
  | FsError syscall path => syscall +:+ " " +:+ path
  | TypeError msg => "TypeError: " +:+ msg
  | SyntaxError msg => "SyntaxError: " +:+ msg
  | MkError msg => "Error: " +:+ msg
  | ToolError msg => msg
  end.

(** ** gulpfile.js *)

Section Gulpfile.

Variable T : Tools.

Definition ENTRY := "./src/entry/bundleAny.js".
Definition HEADER := "./src/header.js".
Definition VERSION := "./src/version.js".
Definition COMPILE_SRC := "./src/**/*.js".
Definition COMPILE_LIB := "./lib".
Definition COMPILED_MAIN_ANY := "./lib/entry/mainAny.js".
Definition FILE := "math.js".
Definition FILE_MIN := "math.min.js".
Definition FILE_MAP := "math.min.map".
Definition DIST := dirname T +:+ "/dist".
Definition REF_SRC := "./lib/".
Definition REF_DEST := "./docs/reference/functions".
Definition REF_ROOT := "./docs/reference".
Definition MATH_JS := DIST +:+ "/" +:+ FILE.
Definition COMPILED_HEADER := COMPILE_LIB +:+ "/header.js".

(** read the version number from package.json *)
Definition getVersion : M JSValue :=
  text ← readFileSync "./package.json";
  v ← lift (JSON_parse T text);
  lift (get_version_prop v).

(** The expression [createBanner] returns, on the header text. *)
Definition renderBanner (header today version : string) : string :=
  replace (replace header "@@date" today) "@@version" version.

(** generate banner with today's date and correct version *)
Definition createBanner : M string :=
  iso ← date_now_iso;
  let today := substr0 10 iso in
  version ← getVersion;
  header ← readFileSync HEADER;
  mret (renderBanner header today (toString version)).

Definition versionFileText (version : string) : string :=
  "export const version = '" +:+ version +:+ "'" +:+ nl +:+
  "// Note: This file is automatically generated when building math.js." +:+ nl +:+
  "// Changes made in this file will be overwritten." +:+ nl.

(** generate a js file containing the version number *)
Definition updateVersionFile : M unit :=
  version ← getVersion;
  writeFileSync VERSION (versionFileText (toString version)).

(** A task that takes a completion callback. *)
Definition Callback : Type := option Error → M unit.

(** The function [bundle] hands to [compiler.run]. *)
Definition bundle_onRun (done : Callback) (err : option Error)
    (stats : option Stats) : M unit :=
  match err with
  | Some e => log (error_message e);; done (Some e)
  | None => mret tt
  end;;
  info ← match stats with
         | Some s => mret s
         | None => throw (TypeError "Cannot read property 'toJson' of undefined")
         end;
  (if hasWarnings info
   then log ("Webpack warnings:" +:+ nl +:+ join nl (warnings info))
   else mret tt);;
  (if hasErrors info
   then log ("Webpack errors:" +:+ nl +:+ join nl (errors info));;
        done (Some (MkError "Compile failed"))
   else mret tt);;
  log ("bundled " +:+ MATH_JS);;
  done None.

Definition bundle (done : Callback) : M unit :=
  (* update the banner contents (has a date in it which should stay up to date) *)
  banner ← createBanner;
  updateVersionFile;;
  '(err, stats) ← external (webpack_run T banner);
  bundle_onRun done err stats.

(** [compile] returns the stream; gulp waits for it to end. *)
Definition compile : M unit := external_r (babel_pipeline T).

Definition writeBanner (cb : Callback) : M unit :=
  banner ← createBanner;
  writeFileSync COMPILED_HEADER banner;;
  cb None.

Definition minify (done : Callback) : M unit :=
  oldCwd ← process_cwd;
  process_chdir DIST;;
  try_finally
    (try_catch
       (code ← readFileSync FILE;
        let result := uglify_minify T code in
        match u_error result with
        | Some e => throw e
        | None => mret tt
        end;;
        writeFileSync FILE_MIN (u_code result);;
        writeFileSync FILE_MAP (u_map result);;
        log ("Minified " +:+ FILE_MIN);;
        log ("Mapped " +:+ FILE_MAP))
       (λ e, throw e))
    (process_chdir oldCwd);;
  done None.

Definition validate (done : Callback) : M unit :=
  '(err, stdout, stderr) ← external (execFile_validate T);
  match err with
  | Some e => throw e
  | None => mret tt
  end;;
  modify (emit (EvStdout stdout));;
  modify (emit (EvStderr stderr));;
  done None.

Definition generateDocs (done : Callback) : M unit :=
  all ← external_r (require_bundleAny T);
  let functionNames := (List.map fst (List.filter snd all)) in
  external_r (docgenerator_iteratePath T functionNames);;
  done None.

Definition generateEntryFiles (done : Callback) : M unit :=
  external_r (entryGenerator_generateEntryFiles T);;
  done None.

Definition deprecatedFunctionsText : string :=
  nl +:+ nl +:+
  "exports['var'] = exports.deprecatedVar;" +:+ nl +:+
  "exports['typeof'] = exports.deprecatedTypeof;" +:+ nl +:+
  "exports['eval'] = exports.deprecatedEval;" +:+ nl +:+
  "exports['import'] = exports.deprecatedImport;" +:+ nl.

(** Add links to deprecated functions in the node.js transpiled code mainAny.js *)
Definition addDeprecatedFunctions (done : Callback) : M unit :=
  code ← readFileSync COMPILED_MAIN_ANY;
  let updatedCode := code +:+ deprecatedFunctionsText in
  writeFileSync COMPILED_MAIN_ANY updatedCode;;
  log ("Added deprecated functions to " +:+ COMPILED_MAIN_ANY);;
  done None.

(** *** gulp: tasks, [series], [parallel] and [watch]

    gulp runs a task function and waits for its completion signal: the
    first call of the callback it passed, an exception of the function,
    or the end of the stream it returned.  Later calls of the callback are
    ignored. *)

Inductive TaskFn : Type :=
  | WithCallback (f : Callback → M unit)
  | ReturnsStream (f : M unit).

Definition done_cb : Callback := λ e w,
  (Ok tt, emit (EvDone e)
            (match signalled w with
             | None => set_signalled (Some e) w
             | Some _ => w
             end)).

(** The outcome of a task, from what it signalled and how its function
    returned; [None] when it never signals completion.  The first signal
    decides: what the function does or throws after it is no longer the
    task's outcome (see [uncaught] for where such an exception goes). *)
Definition settle (s : option (option Error)) (r : Result unit) : option Outcome :=
  match s, r with
  | Some None, _ => Some Success
  | Some (Some e), _ => Some (Failure e)
  | None, Throw e => Some (Failure e)
  | None, Ok _ => None
  end.

(** Calling a task function the way gulp does: with gulp's callback, or
    waiting for the stream it returns. *)
Definition invoke (f : TaskFn) : M unit :=
  match f with
  | WithCallback g => g done_cb
  | ReturnsStream g => λ w,
      match g w with
      | (Ok _, w') => (Ok tt, set_signalled (Some None) w')
      | (Throw e, w') => (Throw e, w')
      end
  end.

Definition run_task (n : TaskName) (f : TaskFn) : M (option Outcome) := λ w,
  let '(r, w1) := invoke f (emit (EvStart n) (set_signalled None w)) in
  let o := settle (signalled w1) r in
  (Ok o, match o with Some o' => emit (EvEnd n o') w1 | None => w1 end).

(** An exception that a task function throws after it has signalled
    completion.  gulp has let go of the task by then: nobody catches the
    exception, and it ends the process.  (In a one-shot run the series is
    over with the failure of the task, so there it changes nothing; under
    the watcher, where a failed task leaves the process alive, it does.) *)
Definition uncaught (s : option (option Error)) (r : Result unit) : option Error :=
  match s, r with
  | Some _, Throw e => Some e
  | _, _ => None
  end.

(** A task run to its end, as [run_task] has it, together with the
    exception that escapes gulp, if there is one. *)
Definition run_task_escaping (n : TaskName) (f : TaskFn)
    : M (option Outcome * option Error) := λ w,
  let '(r, w1) := invoke f (emit (EvStart n) (set_signalled None w)) in
  let o := settle (signalled w1) r in
  (Ok (o, uncaught (signalled w1) r),
   match o with Some o' => emit (EvEnd n o') w1 | None => w1 end).

(** The changes the watcher reacts to: the globs, minus [ignored]. *)
Definition relevant (wt : Watcher) (p : string) : bool :=
  existsb (λ g, glob_match T g p) (globs wt) && negb (includes (ignored wt) p).

(** Unless [ignoreInitial] is set, a new watcher reports every file it
    finds as added: with a file it reacts to in place, its timer is armed
    from the start, and the task runs once without any change. *)
Definition found_at_start (wt : Watcher) (f : FileSystem) : bool :=
  negb (ignoreInitial wt) && existsb (relevant wt) (elements (dom (files f))).

(** [gulp.watch(globs, options, task)] subscribes and returns at once. *)
Definition gulp_watch (files : list string) (ignored : string)
    (ignoreInitial : bool) (delay : nat) (task : list TaskName) : M unit :=
  modify (λ w,
    let wt := {| globs := files; ignored := ignored;
                 ignoreInitial := ignoreInitial; delay := delay;
                 handler := task; armed := false |} in
    set_watcher (Some (set_armed (found_at_start wt (fs w)) wt)) w).

(** The watch task (to automatically rebuild when the source code changes).
    It takes no callback and returns nothing. *)
Definition watch : M unit :=
  let files := ["package.json"; "number.js.js"; "src/**/*.js"] in
  (* ignore version.js else we get an infinite loop since it's updated during bundle *)
  gulp_watch files "version.js" false 100
    [TBundle; TCompile; TAddDeprecatedFunctions].

Definition task_fn (n : TaskName) : TaskFn :=
  match n with
  | TBundle => WithCallback bundle
  | TCompile => ReturnsStream compile
  | TWriteBanner => WithCallback writeBanner
  | TGenerateEntryFiles => WithCallback generateEntryFiles
  | TAddDeprecatedFunctions => WithCallback addDeprecatedFunctions
  | TMinify => WithCallback minify
  | TValidate => WithCallback validate
  | TGenerateDocs => WithCallback generateDocs
  | TWatch => WithCallback (λ _, watch)
  end.

(** [gulp.series]: one task after the other; the first task that does not
    succeed ends the composition, with its outcome. *)
Fixpoint series (ts : list TaskName) : M (option Outcome) :=
  match ts with
  | [] => mret (Some Success)
  | t :: ts' =>
      o ← run_task t (task_fn t);
      match o with
      | Some Success => series ts'
      | _ => mret o
      end
  end.

Definition combine (o1 o2 : option Outcome) : option Outcome :=
  match o1, o2 with
  | Some (Failure e), _ => o1
  | _, Some (Failure e) => o2
  | None, _ | _, None => None
  | Some Success, Some Success => Some Success
  end.

(** [gulp.parallel]: every task is started, whatever the others do.  The
    tasks are taken in one schedule, each to its end in turn; an exception
    that escapes gulp is taken to end the process when all of them have
    run.  The result is the outcome of the composition and the first
    such exception. *)
Fixpoint parallel (ts : list TaskName) : M (option Outcome * option Error) :=
  match ts with
  | [] => mret (Some Success, None)
  | t :: ts' =>
      '(o, x) ← run_task_escaping t (task_fn t);
      '(o', x') ← parallel ts';
      mret (combine o o', match x with Some e => Some e | None => x' end)
  end.

(** The default task (called when you run `gulp`) *)
Definition default_tasks : list TaskName :=
  [TBundle; TCompile; TWriteBanner; TGenerateEntryFiles;
   TAddDeprecatedFunctions; TMinify; TValidate; TGenerateDocs].

Definition default : M (option Outcome) := series default_tasks.

(** Loading the gulpfile evaluates its top level: the banner plugin is
    built from [createBanner()]. *)
Definition load : M unit := _ ← createBanner; mret tt.

(** `gulp`: load the file, run the default task. *)
Definition run_once : M (option Outcome) := load;; default.

(** `gulp watch`: load the file, run the watch task. *)
Definition run_watch : M (option Outcome) := load;; run_task TWatch (task_fn TWatch).

(** What reaches a live watcher. *)
Inductive WatchEvent : Type :=
  | FsChange (path : string)   (* a file was created, changed or removed *)
  | TimerElapsed.              (* the debounce window passed *)

(** One event at the watcher.  A failed task leaves the watcher alive; an
    exception that escapes gulp ends the process, and with it the loop. *)
Definition watch_step (ev : WatchEvent) : M unit := λ w,
  match watcher w with
  | None => (Ok tt, w)
  | Some wt =>
      match ev with
      | FsChange p =>
          if relevant wt p then (Ok tt, set_watcher (Some (set_armed true wt)) w)
          else (Ok tt, w)
      | TimerElapsed =>
          if armed wt
          then match parallel (handler wt)
                       (set_watcher (Some (set_armed false wt)) w) with
               | (Ok (_, Some e), w') => (Throw e, w')
               | (_, w') => (Ok tt, w')
               end
          else (Ok tt, w)
      end
  end.

Fixpoint watch_steps (evs : list WatchEvent) : M unit :=
  match evs with
  | [] => mret tt
  | ev :: evs' => watch_step ev;; watch_steps evs'
  end.

End Gulpfile.

(** ** Stand-ins for the tools

    To run the script on examples: a JSON reader for the part of the
    grammar package manifests use, and tools with fixed, simple behaviour.
    The theorems below hold for every [Tools]; these instances only serve
    to evaluate the script at concrete inputs. *)

Module Node.

Definition is_ws (c : ascii) : bool :=
  bool_decide (c = " "%char ∨ c = ascii_of_nat 9 ∨ c = ascii_of_nat 10 ∨ c = ascii_of_nat 13).

Fixpoint skip_ws (s : string) : string :=
  match s with
  | String c s' => if is_ws c then skip_ws s' else s
  | "" => ""
  end.

Definition is_digit (c : ascii) : bool :=
  bool_decide (48 ≤ nat_of_ascii c ≤ 57)%nat.

Fixpoint span_digits (s : string) : string * string :=
  match s with
  | String c s' =>
      if is_digit c then let '(d, r) := span_digits s' in (String c d, r)
      else ("", s)
  | "" => ("", "")
  end.

(** The characters of a string literal after its opening quote. *)
Fixpoint parse_chars (s : string) : option (string * string) :=
  match s with
  | "" => None
  | String c s' =>
      if decide (c = ascii_of_nat 34) then Some ("", s')
      else if decide (c = "\"%char) then
        match s' with
        | String e s'' =>
            let esc (x : ascii) :=
              match parse_chars s'' with
              | Some (t, r) => Some (String x t, r)
              | None => None
              end in
            if decide (e = ascii_of_nat 34) then esc (ascii_of_nat 34)
            else if decide (e = "\"%char) then esc "\"%char
            else if decide (e = "/"%char) then esc "/"%char
            else if decide (e = "n"%char) then esc (ascii_of_nat 10)
            else if decide (e = "r"%char) then esc (ascii_of_nat 13)
            else if decide (e = "t"%char) then esc (ascii_of_nat 9)
            else if decide (e = "b"%char) then esc (ascii_of_nat 8)
            else if decide (e = "f"%char) then esc (ascii_of_nat 12)
            else None
        | "" => None
        end
      else if bool_decide (nat_of_ascii c < 32)%nat then None
      else match parse_chars s' with
           | Some (t, r) => Some (String c t, r)
           | None => None
           end
  end.

(** A later member of the same name replaces the earlier one. *)
Fixpoint set_prop (k : string) (v : JSValue) (props : list (string * JSValue))
    : list (string * JSValue) :=
  match props with
  | [] => [(k, v)]
  | (k', v') :: rest =>
      if decide (k' = k) then (k, v) :: rest else (k', v') :: set_prop k v rest
  end.

Fixpoint parse_value (n : nat) (s : string) : option (JSValue * string) :=
  match n with
  | O => None
  | S n' =>
      let s := skip_ws s in
      if startsWith "null" s then Some (JNull, drop 4 s)
      else if startsWith "true" s then Some (JBool true, drop 4 s)
      else if startsWith "false" s then Some (JBool false, drop 5 s)
      else match s with
           | String "[" r =>
               match skip_ws r with
               | String "]" r' => Some (JArray [], r')
               | _ => parse_elements n' r []
               end
           | String "{" r =>
               match skip_ws r with
               | String "}" r' => Some (JObject [], r')
               | _ => parse_members n' r []
               end
           | String "-" r =>
               match span_digits r with
               | ("", _) => None
               | ("0", r') => Some (JNumber "0", r')
               | (String "0" _, _) => None
               | (d, r') => Some (JNumber (String "-" d), r')
               end
           | String c r =>
               if decide (c = ascii_of_nat 34) then
                 match parse_chars r with
                 | Some (t, r') => Some (JString t, r')
                 | None => None
                 end
               else
                 match span_digits s with
                 | ("", _) => None
                 | ("0", r') => Some (JNumber "0", r')
                 | (String "0" _, _) => None
                 | (d, r') => Some (JNumber d, r')
                 end
           | "" => None
           end
  end
with parse_elements (n : nat) (s : string) (acc : list JSValue)
    : option (JSValue * string) :=
  match n with
  | O => None
  | S n' =>
      match parse_value n' s with
      | Some (v, r) =>
          match skip_ws r with
          | String "," r' => parse_elements n' r' (acc ++ [v])
          | String "]" r' => Some (JArray (acc ++ [v]), r')
          | _ => None
          end
      | None => None
      end
  end
with parse_members (n : nat) (s : string) (acc : list (string * JSValue))
    : option (JSValue * string) :=
  match n with
  | O => None
  | S n' =>
      match skip_ws s with
      | String q r =>
          if decide (q = ascii_of_nat 34) then
            match parse_chars r with
            | Some (k, r1) =>
                match skip_ws r1 with
                | String ":" r2 =>
                    match parse_value n' r2 with
                    | Some (v, r3) =>
                        match skip_ws r3 with
                        | String "," r4 => parse_members n' r4 (set_prop k v acc)
                        | String "}" r4 => Some (JObject (set_prop k v acc), r4)
                        | _ => None
                        end
                    | None => None
                    end
                | _ => None
                end
            | None => None
            end
          else None
      | "" => None
      end
  end.

(** [JSON.parse], for texts whose numbers are integer literals and whose
    strings use no [\u] escape. *)
Definition parse_json (text : string) : Result JSValue :=
  match parse_value (2 * String.length text + 2) text with
  | Some (v, r) =>
      if decide (skip_ws r = "") then Ok v
      else Throw (SyntaxError "Unexpected token in JSON")
  | None => Throw (SyntaxError "Unexpected token in JSON")
  end.

Definition endsWith (suffix s : string) : bool :=
  bool_decide (drop (String.length s - String.length suffix) s = suffix).

(** A tool set in which webpack reports the given warnings and errors and
    every other tool succeeds. *)
Definition tools (ws es : list string) : Tools := {|
  dirname := "/proj";
  JSON_parse := parse_json;
  webpack_run := λ banner dir f,
    ((None, Some {| hasWarnings := bool_decide (ws ≠ []);
                    hasErrors := bool_decide (es ≠ []);
                    warnings := ws; errors := es |}),
     if bool_decide (es ≠ []) then f
     else set_file (resolve dir "./dist/math.js") (banner +:+ "var math = {};") f);
  babel_pipeline := λ dir f,
    (Ok tt, set_file (resolve dir COMPILED_MAIN_ANY) "exports.add = add;" f);
  uglify_minify := λ code, {| u_error := None; u_code := code; u_map := "{}" |};
  execFile_validate := λ _ f, ((None, "", ""), f);
  require_bundleAny := λ _ f, (Ok [("add", true); ("pi", false)], f);
  docgenerator_iteratePath := λ _ _ f, (Ok tt, f);
  entryGenerator_generateEntryFiles := λ _ f, (Ok tt, f);
  glob_match := λ g p,
    match search "**/*" g with
    | Some (pre, post) => includes pre p && endsWith post p
    | None => endsWith g p
    end
|}.

Definition noon : UTCTime :=
  {| year := 2024; month := 1; day := 1;
     hours := 12; minutes := 0; seconds := 0; millis := 0 |}.

(** A project directory holding the given manifest and banner template. *)
Definition project (manifest header : string) : World := {|
  fs := {| files := {[ "/proj/package.json" := manifest;
                       "/proj/src/header.js" := header ]};
           dirs := {[ "/proj"; "/proj/dist" ]};
           unwritable := ∅ |};
  cwd := "/proj";
  now := noon;
  signalled := None;
  watcher := None;
  trace := []
|}.

Definition with_file (p c : string) (w : World) : World :=
  set_fs (set_file p c (fs w)) w.

Definition manifest (version : string) : string :=
  "{ " +:+ dquote +:+ "name" +:+ dquote +:+ ": " +:+ dquote +:+ "mathjs" +:+ dquote
  +:+ ", " +:+ dquote +:+ "version" +:+ dquote +:+ ": " +:+ dquote +:+ version
  +:+ dquote +:+ " }".

End Node.


(** ** Vocabulary of the properties *)

(** A replacement text that cannot interfere with the placeholders: it is
    not empty, its first character occurs in neither placeholder, and it
    holds no [@] and no [$].  Every semantic version and every ISO date is
    one. *)
Definition plain (s : string) : bool :=
  match s with
  | "" => false
  | String c _ => negb (mem c "@@date") && negb (mem c "@@version")
  end && negb (mem "@" s) && negb (mem "$" s).

(** [renderBanner] with its two substitutions in the other order. *)
Definition renderVersionFirst (header today version : string) : string :=
  replace (replace header "@@version" version) "@@date" today.

(** What a computation appends to the trace. *)
Definition emitted {A} (m : M A) (w : World) : list Event :=
  List.skipn (length (trace w)) (trace (m w).2).

Definition is_task_event (e : Event) : bool :=
  match e with
  | EvStart _ | EvEnd _ _ => true
  | _ => false
  end.

(** The starts and ends of tasks in a trace, and the tasks started. *)
Definition task_events (tr : list Event) : list Event :=
  List.filter is_task_event tr.

Definition started (tr : list Event) : list TaskName :=
  omap (λ e, match e with EvStart t => Some t | _ => None end) tr.

(** The task events of a series over [ts], and its outcome: each task
    starts when the one before it has ended with success; a task that
    fails or never ends is the last one to start. *)
Inductive in_series : list TaskName → list Event → option Outcome → Prop :=
  | ser_nil : in_series [] [] (Some Success)
  | ser_ok t ts evs o :
      in_series ts evs o →
      in_series (t :: ts) (EvStart t :: EvEnd t Success :: evs) o
  | ser_fail t ts e :
      in_series (t :: ts) [EvStart t; EvEnd t (Failure e)] (Some (Failure e))
  | ser_hang t ts : in_series (t :: ts) [EvStart t] None.

(** The task events of tasks that all end with success, one after the other. *)
Definition all_succeed (ts : list TaskName) : list Event :=
  List.flat_map (λ t, [EvStart t; EvEnd t Success]) ts.

(** A computation keeps a relation between the world before and after. *)
Definition preserves (R : relation World) {A} (m : M A) : Prop :=
  ∀ w, R w (m w).2.

(** The trace grows, by events that are no task starts or ends. *)
Definition quietly : relation World := λ w w',
  ∃ evs, trace w' = (trace w ++ evs)%list ∧ task_events evs = [].

(** The directories, and the paths that refuse a write, stay. *)
Definition same_dirs : relation World := λ w w',
  dirs (fs w') = dirs (fs w).

Definition same_watcher : relation World := λ w w',
  watcher w' = watcher w.

Definition same_signalled : relation World := λ w w',
  signalled w' = signalled w.

Definition unchanged : relation World := λ w w', w' = w.

(** What webpack hands to the callback when the bundle task runs in [w]:
    [None] when the task throws before it calls the bundler. *)
Definition bundler_result (T : Tools) (w : World)
    : option (option Error * option Stats) :=
  match (banner ← createBanner T;
         updateVersionFile T;;
         external (webpack_run T banner))
          (emit (EvStart TBundle) (set_signalled None w)) with
  | (Ok res, _) => Some res
  | (Throw _, _) => None
  end.

(** The files [createBanner] reads. *)
Definition banner_inputs : list string := ["./package.json"; HEADER].

(** The working directory, the clock and the inputs of the banner stay. *)
Definition same_inputs : relation World := λ w w',
  cwd w' = cwd w ∧ now w' = now w
  ∧ ∀ p, p ∈ banner_inputs →
         files (fs w') !! resolve (cwd w) p = files (fs w) !! resolve (cwd w) p.

(** A tool, run in any directory, leaves the inputs of the banner there
    alone. *)
Definition keeps_inputs {A} (tool : string → FileSystem → A * FileSystem) : Prop :=
  ∀ dir f p, p ∈ banner_inputs →
             files (tool dir f).2 !! resolve dir p = files f !! resolve dir p.

Definition isDigit (c : ascii) : bool := mem c "0123456789".

(** The watch loop: the watch task, then the events that reach it. *)
Definition watch_session (T : Tools) (evs : list WatchEvent) : M unit :=
  run_watch T;; watch_steps T evs.

(** The subscription the watch task makes, whatever the state of its timer. *)
Definition subscribed (w : World) : Prop :=
  ∃ wt, watcher w = Some wt
        ∧ handler wt = [TBundle; TCompile; TAddDeprecatedFunctions]
        ∧ ignored wt = "version.js".

(** The date [createBanner] puts into the banner. *)
Definition today (w : World) : string := substr0 10 (toISOString (now w)).

(** The task dependencies in the words of the spec's data flow (§2); the
    gulpfile declares none.  The minifier reads the bundle; the banner
    write and the entry patch follow the transpiler; the doc generator
    reads the patched package. *)
Definition spec_dependsOn (t : TaskName) : list TaskName :=
  match t with
  | TMinify => [TBundle]
  | TWriteBanner => [TCompile]
  | TAddDeprecatedFunctions => [TCompile]
  | TGenerateDocs => [TAddDeprecatedFunctions]
  | _ => []
  end.

Fixpoint spec_reaches (fuel : nat) (c a : TaskName) : bool :=
  match fuel with
  | O => false
  | S n =>
      existsb (λ d, bool_decide (d = a) || spec_reaches n d a) (spec_dependsOn c)
  end.

(** Partial-failure semantics in the words of the spec (§4.2), for one
    run: when a task fails, every task of the pipeline with no dependency
    path to it still ends with an outcome. *)
Definition partial_failure (T : Tools) (w : World) : Prop :=
  ∀ failed e c,
    EvEnd failed (Failure e) ∈ emitted (run_once T) w →
    c ∈ default_tasks → spec_reaches 8 c failed = false →
    ∃ o, EvEnd c o ∈ emitted (run_once T) w.

(** [a] is the text before the first occurrence of [p] in [t], and [b]
    the text after it: [p] occurs there, and nowhere further left. *)
Definition first_occurrence (p t a b : string) : Prop :=
  t = a +:+ p +:+ b
  ∧ ∀ a' b', t = a' +:+ p +:+ b' → (String.length a ≤ String.length a')%nat.

(** Functions run strictly one after the other, from the world [w]: each
    is called in the world the one before it left, once that one has ended
    with success; the first that does not end with success is the last one
    called.  [ran] are the tasks called, [o] is the outcome of the run and
    [w'] the world it leaves. *)
Inductive runs_in_order :
    list (TaskName * TaskFn) → World → list TaskName → option Outcome → World → Prop :=
  | rio_done w : runs_in_order [] w [] (Some Success) w
  | rio_next n f rest w r w1 ran o w' :
      invoke f (emit (EvStart n) (set_signalled None w)) = (r, w1) →
      settle (signalled w1) r = Some Success →
      runs_in_order rest (emit (EvEnd n Success) w1) ran o w' →
      runs_in_order ((n, f) :: rest) w (n :: ran) o w'
  | rio_fail n f rest w r w1 e :
      invoke f (emit (EvStart n) (set_signalled None w)) = (r, w1) →
      settle (signalled w1) r = Some (Failure e) →
      runs_in_order ((n, f) :: rest) w [n] (Some (Failure e))
        (emit (EvEnd n (Failure e)) w1)
  | rio_hang n f rest w r w1 :
      invoke f (emit (EvStart n) (set_signalled None w)) = (r, w1) →
      settle (signalled w1) r = None →
      runs_in_order ((n, f) :: rest) w [n] None w1.

(** A tool, run in any directory, leaves the files named alone. *)
Definition keeps_files (names : list string) {A}
    (tool : string → FileSystem → A * FileSystem) : Prop :=
  ∀ dir f p, p ∈ names →
             files (tool dir f).2 !! resolve dir p = files f !! resolve dir p.

(** Run in the directory [d], a computation stays there and leaves the
    files named as they are. *)
Definition files_stay (d : string) (names : list string) : relation World :=
  λ w w',
    cwd w = d →
    cwd w' = d
    ∧ ∀ p, p ∈ names →
           files (fs w') !! resolve d p = files (fs w) !! resolve d p.

(** The files a one-shot run makes from the manifest and the template. *)
Definition artifacts : list string := [COMPILED_HEADER; VERSION].

(** ** The ascii check

    [validateAscii] prints the characters outside ASCII that the tool
    [tools/validateAsciiChars] finds in the sources.  The tool is not
    part of the script, and neither are [String.fromCharCode] and the
    formatting [console.log] applies to its arguments: they are the fields
    of [AsciiTools]. *)

(** One finding of [validateChars]. *)
Record InvalidChar : Type := {
  res_insideComment : bool;
  res_filename : string;
  res_ln : N;
  res_col : N;
  res_c : N                  (* the code of the character *)
}.

(** An argument of [console.log]. *)
Inductive LogArg : Type :=
  | ArgString (s : string)
  | ArgBool (b : bool)
  | ArgNumber (n : N).

Record AsciiTools : Type := {
  (* validateAsciiChars.getAllFiles(dir) *)
  getAllFiles : string → string → FileSystem → Result (list string) * FileSystem;
  (* validateAsciiChars.validateChars(file) *)
  validateChars : string → string → FileSystem →
                  Result (list InvalidChar) * FileSystem;
  String_fromCharCode : N → string;
  (* the text console.log makes of its arguments *)
  console_format : list LogArg → string
}.

(** [xs.map(f)] and [xs.forEach(f)], for an [f] that may throw. *)
Fixpoint array_map {X Y} (f : X → M Y) (xs : list X) : M (list Y) :=
  match xs with
  | [] => mret []
  | x :: xs' => y ← f x; ys ← array_map f xs'; mret (y :: ys)
  end.

Fixpoint array_forEach {X} (f : X → M unit) (xs : list X) : M unit :=
  match xs with
  | [] => mret tt
  | x :: xs' => f x;; array_forEach f xs'
  end.

(** ['ln:' + n], for a natural number [n]. *)
Definition decimal (n : N) : string := NilZero.string_of_uint (N.to_uint n).

Section ValidateAscii.

Variable A : AsciiTools.

Definition Reset : string := String (ascii_of_nat 27) "[0m".
Definition BgRed : string := String (ascii_of_nat 27) "[41m".

(** [console.log(...args)]: one line on the standard output. *)
Definition console_log (args : list LogArg) : M unit :=
  modify (emit (EvStdout (console_format A args +:+ nl))).

(** What [validateAscii] passes to [console.log] for one finding. *)
Definition invalidCharArgs (res : InvalidChar) : list LogArg :=
  [ ArgString (if res_insideComment res then "" else BgRed);
    ArgString "file:"; ArgString (res_filename res);
    ArgString ("ln:" +:+ decimal (res_ln res));
    ArgString ("col:" +:+ decimal (res_col res));
    ArgString "inside comment:"; ArgBool (res_insideComment res);
    ArgString "code:"; ArgNumber (res_c res);
    ArgString "character:"; ArgString (String_fromCharCode A (res_c res));
    ArgString Reset ].

(** The files are all checked before the first finding is printed. *)
Definition scanSources : M (list (list InvalidChar)) :=
  files ← external_r (getAllFiles A "./src");
  array_map (λ file, external_r (validateChars A file)) files.

Definition validateAscii (done : Callback) : M unit :=
  results ← scanSources;
  array_forEach
    (λ invalidChars,
       array_forEach (λ res, console_log (invalidCharArgs res)) invalidChars)
    results;;
  done None.

End ValidateAscii.

(** ** Vocabulary of the further properties *)

(** A computation, [n] times in a row. *)
Fixpoint times (n : nat) (m : M unit) : M unit :=
  match n with
  | O => mret tt
  | S n' => m;; times n' m
  end.

Fixpoint repeated (n : nat) (s : string) : string :=
  match n with
  | O => ""
  | S n' => s +:+ repeated n' s
  end.

(** Run in the directory [d], a computation stays there and changes no
    file but the ones named. *)
Definition writes_only (d : string) (names : list string) : relation World :=
  λ w w',
    cwd w = d →
    cwd w' = d
    ∧ ∀ q, q ∉ resolve d <$> names → files (fs w') !! q = files (fs w) !! q.

(** From an absolute working directory, a computation ends in the
    directory it started in. *)
Definition stays_in_place : relation World := λ w w',
  startsWith "/" (cwd w) = true → cwd w' = cwd w.

(** The characters of a date in the form [toISOString] gives it. *)
Definition isDateChar (c : ascii) : bool :=
  isDigit c || bool_decide (c = "-"%char) || bool_decide (c = "+"%char).

(** Worlds and tools to run the script on. *)
Module Examples.

(** A project directory without the banner template. *)
Definition no_header (manifest : string) : World :=
  set_fs {| files := {[ "/proj/package.json" := manifest ]};
            dirs := {[ "/proj"; "/proj/dist" ]};
            unwritable := ∅ |}
         (Node.project manifest "").

(** A project directory in which the given path refuses a write. *)
Definition read_only (p : string) (w : World) : World :=
  set_fs {| files := files (fs w); dirs := dirs (fs w);
            unwritable := {[ p ]} ∪ unwritable (fs w) |} w.

(** Tools like [Node.tools], with the given behaviour of the bundler, of
    the minifier and of the child process that validates the docs. *)
Definition tools_with
    (run : option Error * option Stats) (min : string → UglifyResult)
    (exec : option Error * string * string) : Tools := {|
  dirname := "/proj";
  JSON_parse := Node.parse_json;
  webpack_run := λ _ _ f, (run, f);
  babel_pipeline := babel_pipeline (Node.tools [] []);
  uglify_minify := min;
  execFile_validate := λ _ f, (exec, f);
  require_bundleAny := require_bundleAny (Node.tools [] []);
  docgenerator_iteratePath := docgenerator_iteratePath (Node.tools [] []);
  entryGenerator_generateEntryFiles :=
    entryGenerator_generateEntryFiles (Node.tools [] []);
  glob_match := glob_match (Node.tools [] [])
|}.

(** A source tree of two files, with one finding in the first. *)
Definition ascii_tools : AsciiTools := {|
  getAllFiles := λ _ _ f, (Ok ["./src/a.js"; "./src/b.js"], f);
  validateChars := λ file _ f,
    (Ok (if decide (file = "./src/a.js")
         then [{| res_insideComment := true; res_filename := file;
                  res_ln := 3; res_col := 7; res_c := 233 |}]
         else []), f);
  String_fromCharCode := λ n, String (ascii_of_N n) "";
  console_format := λ args,
    join " " (List.map (λ a, match a with
                             | ArgString s => s
                             | ArgBool true => "true"
                             | ArgBool false => "false"
                             | ArgNumber n => decimal n
                             end) args)
|}.

End Examples.

(** ** Facts about strings *)

Section StringFacts.

Implicit Types (s t p r a b : string) (c : ascii).

Lemma str_app_cons c s t : String c s +:+ t = String c (s +:+ t).
Proof. reflexivity. Qed.

Lemma str_app_nil_r s : s +:+ "" = s.
Proof. induction s as [|c s IH]; [done|]. by rewrite str_app_cons, IH. Qed.

Lemma str_app_assoc s t r : (s +:+ t) +:+ r = s +:+ t +:+ r.
Proof. induction s as [|c s IH]; [done|]. by rewrite !str_app_cons, IH. Qed.

Lemma str_length_app s t : String.length (s +:+ t) = (String.length s + String.length t)%nat.
Proof. induction s as [|c s IH]; [done|]. rewrite str_app_cons. simpl. by rewrite IH. Qed.

Lemma str_drop_app_length p s : drop (String.length p) (p +:+ s) = s.
Proof. induction p as [|c p IH]; [done|]. by rewrite str_app_cons. Qed.

Lemma startsWith_app p s : startsWith p (p +:+ s) = true.
Proof.
  induction p as [|c p IH]; [done|]. rewrite str_app_cons. simpl.
  by rewrite decide_True.
Qed.

Lemma startsWith_inv p s : startsWith p s = true → s = p +:+ drop (String.length p) s.
Proof.
  revert s. induction p as [|c p IH]; intros s H; [done|].
  destruct s as [|x s]; [done|]. simpl in H.
  destruct (decide (c = x)) as [->|]; [|done].
  rewrite str_app_cons. simpl. by rewrite <- IH.
Qed.

Lemma startsWith_app_l p s t : startsWith p s = true → startsWith p (s +:+ t) = true.
Proof.
  intros H. rewrite (startsWith_inv _ _ H), str_app_assoc. apply startsWith_app.
Qed.

(** A character foreign to the pattern stops every match that would run
    over it. *)
Lemma startsWith_blocked p s c t :
  mem c p = false → startsWith p (s +:+ String c t) = true → startsWith p s = true.
Proof.
  revert s. induction p as [|x p IH]; intros s Hc H; [done|].
  simpl in Hc. destruct (decide (x = c)) as [|Hxc]; [done|].
  destruct s as [|y s].
  - simpl in H. rewrite decide_False in H; done.
  - rewrite str_app_cons in H. simpl in *.
    destruct (decide (x = y)); [|done]. by apply IH.
Qed.

Lemma search_head p s :
  startsWith p s = true → search p s = Some ("", drop (String.length p) s).
Proof. intros H. destruct s; simpl in *; by rewrite H. Qed.

Lemma search_cons p c s :
  startsWith p (String c s) = false →
  search p (String c s) = prod_map (String c) id <$> search p s.
Proof. intros H. simpl search. rewrite H. by destruct (search p s) as [[??]|]. Qed.

Lemma search_sound p s b a : search p s = Some (b, a) → s = b +:+ p +:+ a.
Proof.
  revert b a. induction s as [|c s IH]; intros b a H.
  - simpl in H. destruct (startsWith p "") eqn:E; [|done].
    injection H as <- <-. by apply startsWith_inv.
  - destruct (startsWith p (String c s)) eqn:E.
    + rewrite search_head in H by done. injection H as <- <-.
      by apply startsWith_inv.
    + rewrite search_cons in H by done.
      destruct (search p s) as [[b' a']|]; [|done].
      injection H as <- <-. rewrite str_app_cons. f_equal. by apply IH.
Qed.

(** What [search] finds is the first occurrence. *)
Lemma search_first p s b a : search p s = Some (b, a) → first_occurrence p s b a.
Proof.
  intros H. split; [by apply search_sound|].
  revert b a H. induction s as [|c s IH]; intros b a H b' a' E.
  - simpl in H. destruct (startsWith p ""); [|done].
    injection H as <- <-. simpl. lia.
  - destruct (startsWith p (String c s)) eqn:Es.
    + rewrite search_head in H by done. injection H as <- <-. simpl. lia.
    + rewrite search_cons in H by done.
      destruct (search p s) as [[b0 a0]|] eqn:E0; [|done].
      injection H as <- <-. destruct b' as [|c' b''].
      * change ("" +:+ p +:+ a') with (p +:+ a') in E.
        rewrite E, startsWith_app in Es. done.
      * rewrite str_app_cons in E. injection E as <- E.
        pose proof (IH _ _ eq_refl _ _ E). simpl. lia.
Qed.

(** A text free of the pattern's first character is skipped whole. *)
Lemma search_skip c p t s :
  mem c t = false →
  search (String c p) (t +:+ s) = prod_map (String.append t) id <$> search (String c p) s.
Proof.
  intros H. induction t as [|x t IH].
  - change ("" +:+ s) with s. by destruct (search _ s) as [[??]|].
  - simpl in H. destruct (decide (x = c)) as [|Hx]; [done|].
    rewrite str_app_cons, search_cons, IH by (simpl; rewrite ?decide_False; done).
    by destruct (search _ s) as [[??]|].
Qed.

Lemma getSubstitution_plain p b a r :
  mem "$" r = false → getSubstitution p b a r = r.
Proof.
  induction r as [|c r IH]; [done|]. simpl mem.
  destruct (decide (c = "$"%char)) as [|Hc]; [done|]. intros Hr.
  assert (getSubstitution p b a (String c r) = String c (getSubstitution p b a r)) as ->.
  { destruct c as [[] [] [] [] [] [] [] []]; try done. }
  by rewrite IH.
Qed.

Lemma replace_absent s p r : search p s = None → replace s p r = s.
Proof. unfold replace. by intros ->. Qed.

Lemma replace_found s p r b a :
  mem "$" r = false → search p s = Some (b, a) → replace s p r = b +:+ r +:+ a.
Proof. unfold replace. intros Hr ->. by rewrite getSubstitution_plain. Qed.

Lemma replace_head p s r :
  mem "$" r = false → replace (p +:+ s) p r = r +:+ s.
Proof.
  intros Hr. erewrite replace_found; [|done|apply search_head, startsWith_app].
  by rewrite str_drop_app_length.
Qed.

Lemma replace_cons p c s r :
  mem "$" r = false → startsWith p (String c s) = false →
  replace (String c s) p r = String c (replace s p r).
Proof.
  intros Hr H. unfold replace. rewrite search_cons by done.
  destruct (search p s) as [[b a]|]; simpl; [|done].
  by rewrite !getSubstitution_plain.
Qed.

Lemma replace_skip c p t s r :
  mem "$" r = false → mem c t = false →
  replace (t +:+ s) (String c p) r = t +:+ replace s (String c p) r.
Proof.
  intros Hr H. unfold replace. rewrite search_skip by done.
  destruct (search _ s) as [[b a]|]; simpl; [|done].
  by rewrite !getSubstitution_plain, str_app_assoc.
Qed.

End StringFacts.

(** ** The two placeholders *)

Section Placeholders.

Implicit Types (s t p r a b d v : string) (c : ascii).

Lemma includes_true p s :
  includes p s = true ↔ ∃ b a, search p s = Some (b, a).
Proof.
  unfold includes. rewrite bool_decide_eq_true. split.
  - intros [[b a] H]. eauto.
  - intros (b & a & ->). eauto.
Qed.

Lemma includes_false p s : includes p s = false ↔ search p s = None.
Proof.
  unfold includes. rewrite bool_decide_eq_false, <- eq_None_not_Some. done.
Qed.

Lemma plain_inv s :
  plain s = true →
  ∃ c s', s = String c s' ∧ mem c "@@date" = false ∧ mem c "@@version" = false
          ∧ mem "@" s = false ∧ mem "$" s = false.
Proof.
  unfold plain. destruct s as [|c s']; [done|].
  rewrite !andb_true_iff, !negb_true_iff. intros [[[??]?]?]. eauto 10.
Qed.

(** Replacing one placeholder never completes an occurrence of the other
    one at the head of the text. *)
Lemma replace2_cons p1 p2 r1 r2 c t c1 r1' :
  mem "$" r1 = false → mem "$" r2 = false →
  r1 = String c1 r1' → mem c1 p2 = false →
  startsWith p1 (String c t) = false → startsWith p2 (String c t) = false →
  replace (replace (String c t) p1 r1) p2 r2
  = String c (replace (replace t p1 r1) p2 r2).
Proof.
  intros H1 H2 Hr1 Hc1 E1 E2.
  rewrite (replace_cons p1) by done. apply replace_cons; [done|].
  destruct (search p1 t) as [[b a]|] eqn:Es.
  - rewrite (replace_found _ _ _ _ _ H1 Es).
    destruct (startsWith p2 (String c (b +:+ r1 +:+ a))) eqn:E; [|done].
    rewrite Hr1, str_app_cons, <- (str_app_cons c b) in E.
    apply startsWith_blocked in E; [|done].
    apply (startsWith_app_l _ _ (p1 +:+ a)) in E.
    rewrite str_app_cons, <- (search_sound _ _ _ _ Es) in E. congruence.
  - by rewrite replace_absent.
Qed.

Lemma search_over_date a :
  search "@@version" ("@@date" +:+ a)
  = prod_map (String.append "@@date") id <$> search "@@version" a.
Proof.
  change ("@@date" +:+ a)
    with (String "@" (String "@" (String "d" (String "a" (String "t" (String "e" a)))))).
  rewrite !search_cons by reflexivity.
  by destruct (search _ a) as [[??]|].
Qed.

Lemma search_over_version a :
  search "@@date" ("@@version" +:+ a)
  = prod_map (String.append "@@version") id <$> search "@@date" a.
Proof.
  change ("@@version" +:+ a)
    with (String "@" (String "@" (String "v" (String "e" (String "r" (String "s"
           (String "i" (String "o" (String "n" a))))))))).
  rewrite !search_cons by reflexivity.
  by destruct (search _ a) as [[??]|].
Qed.

Lemma replace_over_date a r :
  mem "$" r = false →
  replace ("@@date" +:+ a) "@@version" r = "@@date" +:+ replace a "@@version" r.
Proof.
  intros Hr. unfold replace. rewrite search_over_date.
  destruct (search _ a) as [[x y]|]; simpl; [|done].
  by rewrite !getSubstitution_plain, str_app_assoc.
Qed.

Lemma replace_over_version a r :
  mem "$" r = false →
  replace ("@@version" +:+ a) "@@date" r = "@@version" +:+ replace a "@@date" r.
Proof.
  intros Hr. unfold replace. rewrite search_over_version.
  destruct (search _ a) as [[x y]|]; simpl; [|done].
  by rewrite !getSubstitution_plain, str_app_assoc.
Qed.

Lemma renderBanner_cons c t d v :
  plain d = true → mem "$" v = false →
  startsWith "@@date" (String c t) = false →
  startsWith "@@version" (String c t) = false →
  renderBanner (String c t) d v = String c (renderBanner t d v).
Proof.
  intros (c1 & d' & -> & _ & Hc & _ & Hd)%plain_inv Hv ED EV.
  by eapply replace2_cons.
Qed.

Lemma renderVersionFirst_cons c t d v :
  mem "$" d = false → plain v = true →
  startsWith "@@date" (String c t) = false →
  startsWith "@@version" (String c t) = false →
  renderVersionFirst (String c t) d v = String c (renderVersionFirst t d v).
Proof.
  intros Hd (c1 & v' & -> & Hc & _ & _ & Hv)%plain_inv ED EV.
  by eapply replace2_cons.
Qed.

(** The order of the two substitutions does not matter for plain texts. *)
Lemma render_order t d v :
  plain d = true → plain v = true →
  renderBanner t d v = renderVersionFirst t d v.
Proof.
  intros Hd Hv.
  destruct (plain_inv _ Hd) as (cd & d' & Ed & _ & _ & Hd1 & Hd2).
  destruct (plain_inv _ Hv) as (cv & v' & Ev & _ & _ & Hv1 & Hv2).
  induction t as [|c t IH]; [done|].
  destruct (startsWith "@@date" (String c t)) eqn:ED.
  { apply startsWith_inv in ED. rewrite ED.
    generalize (drop (String.length "@@date") (String c t)). intros q.
    unfold renderBanner, renderVersionFirst.
    rewrite replace_head, replace_over_date, replace_head by done.
    by apply (replace_skip "@" "@version"). }
  destruct (startsWith "@@version" (String c t)) eqn:EV.
  { apply startsWith_inv in EV. rewrite EV.
    generalize (drop (String.length "@@version") (String c t)). intros q.
    unfold renderBanner, renderVersionFirst.
    rewrite replace_head, replace_over_version, replace_head by done.
    symmetry. by apply (replace_skip "@" "@date"). }
  rewrite renderBanner_cons, renderVersionFirst_cons by done. by rewrite IH.
Qed.

(** With both placeholders in the template, the first occurrence of each
    is replaced and the rest of the text stays. *)
Lemma render_both t d v :
  plain d = true → mem "$" v = false →
  includes "@@date" t = true → includes "@@version" t = true →
  ∃ a b (c : string),
    (search "@@date" t = Some (a, b +:+ "@@version" +:+ c)
     ∧ search "@@version" t = Some (a +:+ "@@date" +:+ b, c)
     ∧ renderBanner t d v = a +:+ d +:+ b +:+ v +:+ c)
    ∨ (search "@@version" t = Some (a, b +:+ "@@date" +:+ c)
       ∧ search "@@date" t = Some (a +:+ "@@version" +:+ b, c)
       ∧ renderBanner t d v = a +:+ v +:+ b +:+ d +:+ c).
Proof.
  intros Hd Hv.
  destruct (plain_inv _ Hd) as (cd & d' & Ed & _ & _ & Hd1 & Hd2).
  induction t as [|c t IH]; [done|].
  intros (bd & ad & HD)%includes_true (bv & av & HV)%includes_true.
  destruct (startsWith "@@date" (String c t)) eqn:ED.
  { pose proof (search_head _ _ ED) as HD'.
    apply startsWith_inv in ED. revert HV HD'. rewrite ED.
    generalize (drop (String.length "@@date") (String c t)). intros q HV HD'.
    rewrite str_drop_app_length in HD'.
    rewrite search_over_date in HV |- *.
    destruct (search "@@version" q) as [[b a]|] eqn:Eq; [|done].
    exists "", b, a. left. split_and!.
    - by rewrite HD', (search_sound _ _ _ _ Eq) at 1.
    - done.
    - unfold renderBanner. rewrite replace_head by done.
      rewrite (replace_skip "@" "@version") by done.
      by rewrite (replace_found _ _ _ _ _ Hv Eq). }
  destruct (startsWith "@@version" (String c t)) eqn:EV.
  { pose proof (search_head _ _ EV) as HV'.
    apply startsWith_inv in EV. revert HD HV'. rewrite EV.
    generalize (drop (String.length "@@version") (String c t)). intros q HD HV'.
    rewrite str_drop_app_length in HV'.
    rewrite search_over_version in HD |- *.
    destruct (search "@@date" q) as [[b a]|] eqn:Eq; [|done].
    exists "", b, a. right. split_and!.
    - by rewrite HV', (search_sound _ _ _ _ Eq) at 1.
    - done.
    - unfold renderBanner. rewrite replace_over_version by done.
      rewrite (replace_found _ _ _ _ _ Hd2 Eq).
      by rewrite replace_head. }
  rewrite !search_cons by done. rewrite search_cons in HD, HV by done.
  destruct (search "@@date" t) as [[??]|] eqn:E1; [|done].
  destruct (search "@@version" t) as [[??]|] eqn:E2; [|done].
  destruct IH as (a & b & c' & [(H1 & H2 & Hr)|(H1 & H2 & Hr)]).
  - apply includes_true; eauto.
  - apply includes_true; eauto.
  - exists (String c a), b, c'. left. rewrite renderBanner_cons, Hr by done.
    injection H1 as -> ->. injection H2 as -> ->. done.
  - exists (String c a), b, c'. right. rewrite renderBanner_cons, Hr by done.
    injection H1 as -> ->. injection H2 as -> ->. done.
Qed.

Lemma includes_intro p a b : includes p (a +:+ p +:+ b) = true.
Proof.
  apply includes_true. induction a as [|c a IH].
  - change ("" +:+ p +:+ b) with (p +:+ b).
    rewrite search_head by apply startsWith_app. eauto.
  - rewrite str_app_cons.
    destruct (startsWith p (String c (a +:+ p +:+ b))) eqn:E.
    + rewrite search_head by done. eauto.
    + rewrite search_cons by done. destruct IH as (x & y & ->). simpl. eauto.
Qed.

Lemma search_None_app_r p t s : search p (t +:+ s) = None → search p s = None.
Proof.
  intros H. destruct (search p s) as [[b a]|] eqn:E; [|done].
  apply search_sound in E. subst s.
  rewrite <- str_app_assoc in H. apply includes_false in H.
  by rewrite includes_intro in H.
Qed.

(** A plain text put in the place of one placeholder completes no
    occurrence of the other. *)
Lemma replace_makes_no_match p1 p2 c2 r1 c1 r1' a b :
  r1 = String c1 r1' → mem c1 (String c2 p2) = false → mem c2 r1 = false →
  search (String c2 p2) (a +:+ p1 +:+ b) = None →
  search (String c2 p2) (a +:+ r1 +:+ b) = None.
Proof.
  intros Hr1 Hc1 Hc2. induction a as [|c a IH]; intros H.
  - change ("" +:+ r1 +:+ b) with (r1 +:+ b). rewrite search_skip by done.
    change ("" +:+ p1 +:+ b) with (p1 +:+ b) in H.
    by rewrite (search_None_app_r _ _ _ H).
  - rewrite str_app_cons in *.
    destruct (startsWith (String c2 p2) (String c (a +:+ p1 +:+ b))) eqn:E.
    { by rewrite search_head in H. }
    rewrite search_cons in H by done.
    destruct (search (String c2 p2) (a +:+ p1 +:+ b)) as [[??]|] eqn:Es; [done|].
    rewrite search_cons, IH; [done..|].
    destruct (startsWith (String c2 p2) (String c (a +:+ r1 +:+ b))) eqn:E'; [|done].
    rewrite Hr1, <- (str_app_cons c a) in E'.
    apply startsWith_blocked in E'; [|done].
    apply (startsWith_app_l _ _ (p1 +:+ b)) in E'.
    rewrite str_app_cons in E'. congruence.
Qed.

(** With one placeholder only, its first occurrence is replaced and
    nothing else changes. *)
Lemma render_only_date t d v :
  plain d = true →
  includes "@@date" t = true → includes "@@version" t = false →
  ∃ a b, search "@@date" t = Some (a, b) ∧ renderBanner t d v = a +:+ d +:+ b.
Proof.
  intros (c1 & d' & Ed & _ & Hc & Hd1 & Hd2)%plain_inv.
  intros (a & b & HD)%includes_true HV%includes_false.
  exists a, b. pose proof (search_sound _ _ _ _ HD) as Ht. split; [done|].
  unfold renderBanner. rewrite (replace_found _ _ _ _ _ Hd2 HD).
  apply replace_absent. rewrite Ht in HV.
  by apply (replace_makes_no_match "@@date" "@version" "@" d c1 d').
Qed.

Lemma render_only_version t d v :
  mem "$" v = false →
  includes "@@date" t = false → includes "@@version" t = true →
  ∃ a b, search "@@version" t = Some (a, b) ∧ renderBanner t d v = a +:+ v +:+ b.
Proof.
  intros Hv HD%includes_false (a & b & HV)%includes_true.
  exists a, b. split; [done|].
  unfold renderBanner. rewrite (replace_absent _ _ _ HD).
  by apply replace_found.
Qed.

(** A text without placeholders is left as it is. *)
Lemma render_no_placeholder t d v :
  includes "@@date" t = false → includes "@@version" t = false →
  renderBanner t d v = t.
Proof.
  intros HD%includes_false HV%includes_false. unfold renderBanner.
  by rewrite (replace_absent _ _ _ HD), (replace_absent _ _ _ HV).
Qed.

End Placeholders.

(** ** Reasoning about computations *)

Section Preserves.

Context (R : relation World) `{!PreOrder R}.

Lemma preserves_ret {A} (a : A) : preserves R (mret a).
Proof. intros w. simpl. done. Qed.

Lemma preserves_throw {A} e : preserves R (@throw A e).
Proof. intros w. simpl. done. Qed.

Lemma preserves_lift {A} (r : Result A) : preserves R (lift r).
Proof. intros w. simpl. done. Qed.

Lemma preserves_gets {A} (f : World → A) : preserves R (gets f).
Proof. intros w. simpl. done. Qed.

Lemma preserves_bind {A B} (m : M A) (f : A → M B) :
  preserves R m → (∀ a, preserves R (f a)) → preserves R (m ≫= f).
Proof.
  intros Hm Hf w. unfold mbind, M_bind. specialize (Hm w).
  destruct (m w) as [[a|e] w1]; simpl in *; [|done].
  etrans; [done|]. apply Hf.
Qed.

Lemma preserves_try_catch {A} (m : M A) (h : Error → M A) :
  preserves R m → (∀ e, preserves R (h e)) → preserves R (try_catch m h).
Proof.
  intros Hm Hh w. unfold try_catch. specialize (Hm w).
  destruct (m w) as [[a|e] w1]; simpl in *; [done|].
  etrans; [done|]. apply Hh.
Qed.

Lemma preserves_try_finally {A} (m : M A) (c : M unit) :
  preserves R m → preserves R c → preserves R (try_finally m c).
Proof.
  intros Hm Hc w. unfold try_finally. specialize (Hm w).
  destruct (m w) as [r w1]; simpl in *. specialize (Hc w1).
  destruct (c w1) as [[[]|e] w2]; simpl in *; by etrans.
Qed.

Lemma preserves_readFileSync p : preserves R (readFileSync p).
Proof. intros w. unfold readFileSync. by case_match. Qed.

Lemma preserves_process_cwd : preserves R process_cwd.
Proof. intros w. unfold process_cwd. by case_decide. Qed.

End Preserves.

(** Descend through the structure of a computation, leaving the steps
    that are particular to the relation. *)
Ltac preserves_step :=
  first
    [ apply preserves_ret | apply preserves_throw | apply preserves_lift
    | apply preserves_gets | apply preserves_readFileSync
    | apply preserves_process_cwd
    | apply preserves_bind | apply preserves_try_catch
    | apply preserves_try_finally
    | match goal with
      | |- PreOrder _ => apply _
      | |- ∀ _, _ => intro
      | |- preserves _ (let _ := _ in _) => cbv zeta
      | |- preserves _ (match ?x with _ => _ end) => destruct x
      end ].

Global Instance quietly_preorder : PreOrder quietly.
Proof.
  split.
  - intros w. exists []. by rewrite (right_id_L [] (++)).
  - intros w1 w2 w3 (e1 & H1 & Q1) (e2 & H2 & Q2). exists (e1 ++ e2)%list.
    rewrite H2, H1, <- (assoc_L (++)). split; [done|].
    unfold task_events in *. by rewrite List.filter_app, Q1, Q2.
Qed.

Global Instance same_dirs_preorder : PreOrder same_dirs.
Proof. split; unfold same_dirs; [done|]. intros ??? H1 H2. by rewrite H2. Qed.

Global Instance same_watcher_preorder : PreOrder same_watcher.
Proof. split; unfold same_watcher; [done|]. intros ??? H1 H2. by rewrite H2. Qed.

Global Instance unchanged_preorder : PreOrder unchanged.
Proof. split; unfold unchanged; [done|]. by intros ??? -> ->. Qed.

Global Instance same_signalled_preorder : PreOrder same_signalled.
Proof. split; unfold same_signalled; [done|]. intros ??? H1 H2. by rewrite H2. Qed.

(** A primitive that changes none of the fields a relation reads. *)
Ltac preserves_prim :=
  intros ?; unfold writeFileSync, process_chdir, log, date_now_iso, external,
    external_r, modify, gets, done_cb, gulp_watch; simpl;
  repeat case_match; simpl; done.

Global Instance same_inputs_preorder : PreOrder same_inputs.
Proof.
  split; unfold same_inputs; [done|].
  intros w1 w2 w3 (Hc & ? & H1) (? & ? & H2). repeat split; [congruence..|].
  intros p Hp. rewrite <- Hc at 1. rewrite H2 by done. rewrite Hc. by apply H1.
Qed.

Lemma bind_ok {A B} (m : M A) (f : A → M B) w a w1 :
  m w = (Ok a, w1) → (m ≫= f) w = f a w1.
Proof. unfold mbind, M_bind. by intros ->. Qed.

Lemma bind_throw {A B} (m : M A) (f : A → M B) w e w1 :
  m w = (Throw e, w1) → (m ≫= f) w = (Throw e, w1).
Proof. unfold mbind, M_bind. by intros ->. Qed.

Lemma readFileSync_found p w c :
  files (fs w) !! resolve (cwd w) p = Some c → readFileSync p w = (Ok c, w).
Proof. unfold readFileSync. by intros ->. Qed.

Lemma readFileSync_missing p w :
  files (fs w) !! resolve (cwd w) p = None →
  readFileSync p w = (Throw (FsError "open" (resolve (cwd w) p)), w).
Proof. unfold readFileSync. by intros ->. Qed.

(** ** Reading the version *)

Section Version.

Variable T : Tools.

Lemma lookup_prop_absent k props :
  Forall (λ kv, kv.1 ≠ k) props → lookup_prop k props = JUndefined.
Proof.
  induction 1 as [|[k' v] props Hk _ IH]; [done|]. simpl in *.
  by rewrite decide_False.
Qed.

Lemma getVersion_world w : (getVersion T w).2 = w.
Proof.
  unfold getVersion, mbind, M_bind, readFileSync, lift.
  destruct (files (fs w) !! _); [|done]. by destruct (JSON_parse T _).
Qed.

Lemma getVersion_parsed w text v :
  files (fs w) !! resolve (cwd w) "./package.json" = Some text →
  JSON_parse T text = Ok v →
  getVersion T w = (get_version_prop v, w).
Proof.
  intros Hf Hp. unfold getVersion.
  rewrite (bind_ok _ _ _ _ _ (readFileSync_found _ _ _ Hf)).
  unfold mbind, M_bind, lift. by rewrite Hp.
Qed.

(** C5, as the code has it: reading the version throws when the manifest
    cannot be read, when it is not valid JSON and when it is the JSON
    [null]; it returns the value of the [version] field of a manifest
    object, which is [undefined], without any failure, when the object has
    no such field; a manifest that is another JSON value gives [undefined]
    too. *)
Theorem getVersion_outcomes (w : World) :
  let path := resolve (cwd w) "./package.json" in
  (files (fs w) !! path = None →
   getVersion T w = (Throw (FsError "open" path), w))
  ∧ (∀ text e, files (fs w) !! path = Some text → JSON_parse T text = Throw e →
     getVersion T w = (Throw e, w))
  ∧ (∀ text, files (fs w) !! path = Some text → JSON_parse T text = Ok JNull →
     is_throw (getVersion T w).1 = true)
  ∧ (∀ text props, files (fs w) !! path = Some text →
     JSON_parse T text = Ok (JObject props) →
     getVersion T w = (Ok (lookup_prop "version" props), w)
     ∧ (Forall (λ kv, kv.1 ≠ "version") props →
        getVersion T w = (Ok JUndefined, w)))
  ∧ (∀ text v, files (fs w) !! path = Some text → JSON_parse T text = Ok v →
     v ≠ JUndefined → v ≠ JNull → (∀ props, v ≠ JObject props) →
     getVersion T w = (Ok JUndefined, w)).
Proof.
  intros path. split_and!.
  - intros Hf. unfold getVersion.
    by rewrite (bind_throw _ _ _ _ _ (readFileSync_missing _ _ Hf)).
  - intros text e Hf Hp. unfold getVersion.
    rewrite (bind_ok _ _ _ _ _ (readFileSync_found _ _ _ Hf)).
    unfold mbind, M_bind, lift. by rewrite Hp.
  - intros text Hf Hp. by rewrite (getVersion_parsed _ _ _ Hf Hp).
  - intros text props Hf Hp. rewrite (getVersion_parsed _ _ _ Hf Hp).
    split; [done|]. intros Hno. simpl. by rewrite lookup_prop_absent.
  - intros text v Hf Hp Hundef Hnull Hobj. rewrite (getVersion_parsed _ _ _ Hf Hp).
    destruct v as [| | | | | |props]; try done. by destruct (Hobj props).
Qed.

End Version.

(** C5 fails on a manifest that is valid and has no [version] field: the
    version read is [undefined], and nothing is thrown. *)
Lemma getVersion_missing_field_returns :
  let r := getVersion (Node.tools [] []) (Node.project "{}" "") in
  r.1 = Ok JUndefined ∧ is_throw r.1 = false.
Proof. by vm_compute. Qed.

Lemma getVersion_outcomes_witness :
  getVersion (Node.tools [] []) (Node.project (Node.manifest "9.9.9") "")
  = (Ok (JString "9.9.9"), Node.project (Node.manifest "9.9.9") "").
Proof.
  pose proof (getVersion_outcomes (Node.tools [] [])
                (Node.project (Node.manifest "9.9.9") "")) as (_ & _ & _ & H & _).
  refine (proj1 (H (Node.manifest "9.9.9")
                   [("name", JString "mathjs"); ("version", JString "9.9.9")] _ _)).
  - by vm_compute.
  - by vm_compute.
Defined.

(** ** Writing files *)

Lemma writeFileSync_ok p c w :
  resolve (cwd w) p ∉ unwritable (fs w) →
  writeFileSync p c w
  = (Ok tt, emit (EvWrite (resolve (cwd w) p) c)
              (set_fs (set_file (resolve (cwd w) p) c (fs w)) w)).
Proof. unfold writeFileSync. intros H. by rewrite decide_False. Qed.

Lemma writeFileSync_refused p c w :
  resolve (cwd w) p ∈ unwritable (fs w) →
  writeFileSync p c w = (Throw (FsError "open" (resolve (cwd w) p)), w).
Proof. unfold writeFileSync. intros H. by rewrite decide_True. Qed.

Lemma resolve_absolute dir p : startsWith "/" p = true → resolve dir p = p.
Proof. unfold resolve. by intros ->. Qed.

Lemma same_dirs_writeFileSync p c : preserves same_dirs (writeFileSync p c).
Proof. intros w. unfold writeFileSync. by case_decide. Qed.

Lemma same_dirs_log msg : preserves same_dirs (log msg).
Proof. done. Qed.

(** ** The entry patch *)

Section EntryPatch.

Lemma addDeprecatedFunctions_run w code :
  let path := resolve (cwd w) COMPILED_MAIN_ANY in
  files (fs w) !! path = Some code → path ∉ unwritable (fs w) →
  ∃ w', addDeprecatedFunctions done_cb w = (Ok tt, w')
        ∧ files (fs w') = <[path := code +:+ deprecatedFunctionsText]> (files (fs w))
        ∧ cwd w' = cwd w ∧ unwritable (fs w') = unwritable (fs w).
Proof.
  intros path Hf Hw. unfold addDeprecatedFunctions.
  rewrite (bind_ok _ _ _ _ _ (readFileSync_found _ _ _ Hf)).
  rewrite (bind_ok _ _ _ _ _ (writeFileSync_ok _ _ _ Hw)).
  eexists. split; [reflexivity|]. simpl. by destruct (signalled w).
Qed.

Lemma deprecatedFunctionsText_twice code :
  code +:+ deprecatedFunctionsText +:+ deprecatedFunctionsText
  ≠ code +:+ deprecatedFunctionsText.
Proof.
  intros H. apply (f_equal String.length) in H.
  rewrite !str_length_app in H. vm_compute (String.length deprecatedFunctionsText) in H.
  lia.
Qed.

(** C10: for every prior content of the compiled entry file, the task
    rewrites the file to that content followed by the four alias
    statements, for [var], [typeof], [eval] and [import], and touches no
    other file; run again, it appends the four statements a second time,
    so the file differs from the one a single run leaves. *)
Theorem addDeprecatedFunctions_appends (w : World) (code : string) :
  let path := resolve (cwd w) COMPILED_MAIN_ANY in
  let aliases :=
    nl +:+ nl +:+
    "exports['var'] = exports.deprecatedVar;" +:+ nl +:+
    "exports['typeof'] = exports.deprecatedTypeof;" +:+ nl +:+
    "exports['eval'] = exports.deprecatedEval;" +:+ nl +:+
    "exports['import'] = exports.deprecatedImport;" +:+ nl in
  files (fs w) !! path = Some code → path ∉ unwritable (fs w) →
  ∃ w1 w2,
    addDeprecatedFunctions done_cb w = (Ok tt, w1)
    ∧ files (fs w1) = <[path := code +:+ aliases]> (files (fs w))
    ∧ addDeprecatedFunctions done_cb w1 = (Ok tt, w2)
    ∧ files (fs w2) = <[path := code +:+ aliases +:+ aliases]> (files (fs w))
    ∧ files (fs w2) !! path ≠ files (fs w1) !! path.
Proof.
  intros path aliases Hf Hw.
  destruct (addDeprecatedFunctions_run w code Hf Hw) as (w1 & E1 & F1 & C1 & U1).
  destruct (addDeprecatedFunctions_run w1 (code +:+ aliases)) as (w2 & E2 & F2 & _).
  { rewrite C1, F1. apply lookup_insert_eq. }
  { by rewrite C1, U1. }
  rewrite C1 in F2. fold path in F2.
  exists w1, w2. split_and!; try done.
  - rewrite F2, F1, insert_insert_eq. by rewrite str_app_assoc.
  - rewrite F2, F1, !lookup_insert_eq. intros [= H].
    rewrite str_app_assoc in H. by apply deprecatedFunctionsText_twice in H.
Qed.

End EntryPatch.

Lemma addDeprecatedFunctions_appends_witness :
  ∃ w1 w2,
    addDeprecatedFunctions done_cb
      (Node.with_file "/proj/lib/entry/mainAny.js" "exports.add = add;"
         (Node.project "{}" ""))
    = (Ok tt, w1)
    ∧ addDeprecatedFunctions done_cb w1 = (Ok tt, w2)
    ∧ files (fs w2) !! "/proj/lib/entry/mainAny.js"
      ≠ files (fs w1) !! "/proj/lib/entry/mainAny.js".
Proof.
  destruct (addDeprecatedFunctions_appends
              (Node.with_file "/proj/lib/entry/mainAny.js" "exports.add = add;"
                 (Node.project "{}" ""))
              "exports.add = add;")
    as (w1 & w2 & H1 & _ & H2 & _ & H3).
  - by vm_compute.
  - vm_compute. set_solver.
  - exists w1, w2. done.
Defined.

(** ** The minifier *)

Section Minify.

Variable T : Tools.

Lemma minify_body_same_dirs :
  preserves same_dirs
    (try_catch
       (code ← readFileSync FILE;
        let result := uglify_minify T code in
        match u_error result with
        | Some e => throw e
        | None => mret tt
        end;;
        writeFileSync FILE_MIN (u_code result);;
        writeFileSync FILE_MAP (u_map result);;
        log ("Minified " +:+ FILE_MIN);;
        log ("Mapped " +:+ FILE_MAP))
       (λ e, throw e)).
Proof.
  repeat preserves_step; auto using same_dirs_writeFileSync, same_dirs_log.
Qed.

(** C9: whatever the minify task does, and however it ends — with the
    callback called, with the error the minifier reported, or with the
    exception of a failed read or write — the working directory after it
    is the one before it. *)
Theorem minify_restores_cwd (w : World) (r : Result unit) (w' : World) :
  startsWith "/" (cwd w) = true →
  minify T done_cb w = (r, w') → cwd w' = cwd w.
Proof.
  intros Habs. unfold minify, mbind at 1, M_bind at 1, process_cwd.
  case_decide as Hin; [|by intros [= _ <-]].
  unfold mbind at 1, M_bind at 1, process_chdir at 1.
  case_decide as Hdist; [|by intros [= _ <-]].
  set (w1 := set_cwd _ w). unfold mbind at 1, M_bind at 1, try_finally.
  pose proof (minify_body_same_dirs w1) as Hd. unfold same_dirs in Hd.
  destruct (try_catch _ _ w1) as [r1 wb]. simpl in Hd.
  unfold process_chdir. rewrite (resolve_absolute _ _ Habs), Hd.
  rewrite decide_True by done.
  destruct r1 as [[]|e]; [unfold done_cb|]; intros [= _ <-]; simpl; [|done].
  by destruct (signalled wb).
Qed.

End Minify.

Lemma minify_restores_cwd_witness :
  cwd (minify (Node.tools [] []) done_cb (Node.project "{}" "")).2 = "/proj".
Proof.
  refine (minify_restores_cwd (Node.tools [] []) (Node.project "{}" "") _ _ _ _).
  - reflexivity.
  - apply surjective_pairing.
Defined.

Lemma run_task_invoke n f w r w1 :
  invoke f (emit (EvStart n) (set_signalled None w)) = (r, w1) →
  run_task n f w
  = (Ok (settle (signalled w1) r),
     match settle (signalled w1) r with
     | Some o => emit (EvEnd n o) w1
     | None => w1
     end).
Proof. unfold run_task. by intros ->. Qed.

(** ** The bundler *)

Section Bundle.

Variable T : Tools.

Lemma same_signalled_writeFileSync p c : preserves same_signalled (writeFileSync p c).
Proof. preserves_prim. Qed.

Lemma same_signalled_external {A} (f : string → FileSystem → A * FileSystem) :
  preserves same_signalled (external f).
Proof. preserves_prim. Qed.

Lemma same_signalled_date : preserves same_signalled date_now_iso.
Proof. preserves_prim. Qed.

Lemma bundle_prelude_same_signalled :
  preserves same_signalled
    (banner ← createBanner T;
     updateVersionFile T;;
     external (webpack_run T banner)).
Proof.
  unfold createBanner, updateVersionFile, getVersion.
  repeat preserves_step;
    auto using same_signalled_writeFileSync, same_signalled_external,
      same_signalled_date.
Qed.

(** The callback on a result without a fatal error. *)
Lemma bundle_onRun_trace w st :
  signalled w = None →
  let logs (b : bool) (heading : string) (items : list string) :=
    if b then [EvLog (heading +:+ nl +:+ join nl items)] else [] in
  let r := bundle_onRun T done_cb None (Some st) w in
  r.1 = Ok tt
  ∧ trace r.2
    = (trace w ++ logs (hasWarnings st) "Webpack warnings:" (warnings st)
       ++ (if hasErrors st
           then logs true "Webpack errors:" (errors st)
                  ++ [EvDone (Some (MkError "Compile failed"))]
           else [])
       ++ [EvLog ("bundled " +:+ MATH_JS T); EvDone None])%list
  ∧ signalled r.2
    = Some (if hasErrors st then Some (MkError "Compile failed") else None).
Proof.
  intros Hs. unfold bundle_onRun, mbind, M_bind, mret, M_ret, log, modify, done_cb.
  destruct (hasWarnings st), (hasErrors st); simpl; rewrite ?Hs; simpl;
    rewrite <- ?(assoc_L (++)); done.
Qed.

Lemma bundle_split (w : World) :
  bundle T done_cb w
  = match (banner ← createBanner T;
           updateVersionFile T;;
           external (webpack_run T banner)) w with
    | (Ok (err, stats), w1) => bundle_onRun T done_cb err stats w1
    | (Throw e, w1) => (Throw e, w1)
    end.
Proof.
  unfold bundle, mbind, M_bind.
  destruct (createBanner T w) as [[banner|e] wa]; [|done].
  destruct (updateVersionFile T wa) as [[[]|e] wb]; [|done].
  by destruct (external _ wb) as [[[err stats]|e] wc].
Qed.

(** C8, as the code has it: when the bundler's result carries no error the
    bundle task ends with success, warnings or not — there is no outcome
    between success and failure — and its warnings, if it has any, are in
    the log, joined by newlines under a heading; when the result carries
    an error the task ends with the failure [Error('Compile failed')], and
    the bundler's errors are in the log in the same form. *)
Theorem bundle_outcome (w : World) (st : Stats) :
  bundler_result T w = Some (None, Some st) →
  let r := run_task TBundle (task_fn T TBundle) w in
  (hasErrors st = false → r.1 = Ok (Some Success))
  ∧ (hasErrors st = true →
     r.1 = Ok (Some (Failure (MkError "Compile failed")))
     ∧ EvLog ("Webpack errors:" +:+ nl +:+ join nl (errors st)) ∈ trace r.2)
  ∧ (hasWarnings st = true →
     EvLog ("Webpack warnings:" +:+ nl +:+ join nl (warnings st)) ∈ trace r.2).
Proof.
  unfold bundler_result. intros Hb.
  set (w0 := emit (EvStart TBundle) (set_signalled None w)) in *.
  destruct (bundle T done_cb w0) as [r1 w2] eqn:Eb.
  change (task_fn T TBundle) with (WithCallback (bundle T)).
  rewrite (run_task_invoke _ (WithCallback (bundle T)) _ _ _ Eb). cbv zeta.
  rewrite bundle_split in Eb.
  pose proof (bundle_prelude_same_signalled w0) as Hs. unfold same_signalled in Hs.
  destruct ((createBanner T ≫= _) w0) as [[[err stats]|e] w1]; [|done].
  injection Hb as -> ->. simpl in Hs.
  destruct (bundle_onRun_trace w1 st Hs) as (Hr & Ht & Hd).
  rewrite Eb in Hr, Ht, Hd. simpl in Hr, Ht, Hd. subst r1. rewrite Hd.
  split_and!.
  - by intros ->.
  - intros He. rewrite He in *. split; [done|]. simpl. rewrite Ht.
    rewrite !elem_of_app. set_solver.
  - intros Hw. rewrite Hw in *.
    destruct (hasErrors st); simpl; rewrite Ht, !elem_of_app; set_solver.
Qed.

End Bundle.

(** C8 fails on a bundler result with warnings only: the task ends as it
    does on a result without any, with success. *)
Lemma bundle_warning_is_success :
  let w := Node.project (Node.manifest "9.9.9") "/* @@version @@date */" in
  bundler_result (Node.tools ["a warning"] []) w
  = Some (None, Some {| hasWarnings := true; hasErrors := false;
                        warnings := ["a warning"]; errors := [] |})
  ∧ (run_task TBundle (task_fn (Node.tools ["a warning"] []) TBundle) w).1
    = Ok (Some Success)
  ∧ (run_task TBundle (task_fn (Node.tools [] []) TBundle) w).1
    = Ok (Some Success).
Proof. by vm_compute. Qed.

Lemma bundle_outcome_witness :
  let w := Node.project (Node.manifest "9.9.9") "/* @@version @@date */" in
  let r := run_task TBundle (task_fn (Node.tools ["w1"] ["e1"; "e2"]) TBundle) w in
  r.1 = Ok (Some (Failure (MkError "Compile failed")))
  ∧ EvLog ("Webpack errors:" +:+ nl +:+ "e1" +:+ nl +:+ "e2") ∈ trace r.2.
Proof.
  intros w.
  refine (proj1 (proj2 (bundle_outcome (Node.tools ["w1"] ["e1"; "e2"]) w
            {| hasWarnings := true; hasErrors := true;
               warnings := ["w1"]; errors := ["e1"; "e2"] |} _)) _).
  - by vm_compute.
  - reflexivity.
Defined.

(** ** The banner *)

(** C3, as the code has it.  For a version and a date that are plain —
    not empty, starting with a character of neither placeholder, free of
    [@] and [$], as every semantic version and every ISO date is — and for
    every template: the banner is the template with the first occurrence
    of each placeholder it holds — the occurrence with no other further
    left — replaced, once, and everything else as it was; the banner is
    the same whichever of the two substitutions is made first; and
    rendering a banner in which no placeholder is left, with any version
    and date, gives that banner back. *)
Theorem renderBanner_plain (t d v : string) :
  plain d = true → plain v = true →
  (includes "@@date" t = true → includes "@@version" t = true →
   ∃ a b c : string,
     (first_occurrence "@@date" t a (b +:+ "@@version" +:+ c)
      ∧ first_occurrence "@@version" t (a +:+ "@@date" +:+ b) c
      ∧ renderBanner t d v = a +:+ d +:+ b +:+ v +:+ c)
     ∨ (first_occurrence "@@version" t a (b +:+ "@@date" +:+ c)
        ∧ first_occurrence "@@date" t (a +:+ "@@version" +:+ b) c
        ∧ renderBanner t d v = a +:+ v +:+ b +:+ d +:+ c))
  ∧ (includes "@@date" t = true → includes "@@version" t = false →
     ∃ a b, first_occurrence "@@date" t a b
            ∧ renderBanner t d v = a +:+ d +:+ b)
  ∧ (includes "@@date" t = false → includes "@@version" t = true →
     ∃ a b, first_occurrence "@@version" t a b
            ∧ renderBanner t d v = a +:+ v +:+ b)
  ∧ (includes "@@date" t = false → includes "@@version" t = false →
     renderBanner t d v = t)
  ∧ renderBanner t d v = renderVersionFirst t d v
  ∧ (∀ d' v',
       includes "@@date" (renderBanner t d v) = false →
       includes "@@version" (renderBanner t d v) = false →
       renderBanner (renderBanner t d v) d' v' = renderBanner t d v).
Proof.
  intros Hd Hv.
  assert (mem "$" v = false) as Hv'
    by by destruct (plain_inv _ Hv) as (? & ? & _ & _ & _ & _ & ?).
  split_and!.
  - intros HD HV.
    destruct (render_both t d v Hd Hv' HD HV)
      as (a & b & c & [(H1 & H2 & Hr)|(H1 & H2 & Hr)]);
      exists a, b, c; [left|right]; auto using search_first.
  - intros HD HV. destruct (render_only_date t d v Hd HD HV) as (a & b & H1 & Hr).
    exists a, b. auto using search_first.
  - intros HD HV. destruct (render_only_version t d v Hv' HD HV) as (a & b & H1 & Hr).
    exists a, b. auto using search_first.
  - apply render_no_placeholder.
  - by apply render_order.
  - intros d' v'. apply render_no_placeholder.
Qed.

Lemma renderBanner_plain_witness :
  ∃ a b, first_occurrence "@@date" "/* @@date, not @@date */" a b
         ∧ renderBanner "/* @@date, not @@date */" "2024-01-01" "1.2.3"
           = a +:+ "2024-01-01" +:+ b.
Proof.
  refine (proj1 (proj2 (renderBanner_plain
            "/* @@date, not @@date */" "2024-01-01" "1.2.3" _ _)) _ _);
    reflexivity.
Defined.

(** C3 fails for a version that is not plain: with the version [@@date]
    in the manifest and the template [@@version], [createBanner] returns
    [@@date], and the substitutions in the other order give the date. *)
Lemma createBanner_order_matters :
  let w := Node.project (Node.manifest "@@date") "@@version" in
  (createBanner (Node.tools [] []) w).1 = Ok "@@date"
  ∧ renderBanner "@@version" (today w) "@@date" = "@@date"
  ∧ renderVersionFirst "@@version" (today w) "@@date" = "2024-01-01"
  ∧ renderBanner "@@version" (today w) "@@date"
    ≠ renderVersionFirst "@@version" (today w) "@@date".
Proof. by vm_compute. Qed.

(** ** Traces of tasks *)

Lemma quietly_refl_eq w w' : trace w' = trace w → quietly w w'.
Proof. intros H. exists []. by rewrite H, (right_id_L [] (++)). Qed.

Lemma quietly_emit e w : is_task_event e = false → quietly w (emit e w).
Proof. intros H. exists [e]. split; [done|]. unfold task_events. simpl. by rewrite H. Qed.

Ltac quiet_prim :=
  intros ?; unfold writeFileSync, process_chdir, log, date_now_iso, external,
    external_r, modify, gets, done_cb, gulp_watch; simpl;
  repeat case_match; simpl;
  first [ by apply quietly_refl_eq
        | by (etrans; [|by apply quietly_emit]; by apply quietly_refl_eq) ].

Lemma invoke_stream (R : relation World) `{!PreOrder R} (g : M unit) :
  (∀ w s, R w (set_signalled s w)) →
  preserves R g → preserves R (invoke (ReturnsStream g)).
Proof.
  intros Hs Hg w. simpl. specialize (Hg w).
  destruct (g w) as [[[]|e] w1]; simpl in *; [|done].
  etrans; [done|]. apply Hs.
Qed.

Section Tasks.

Variable T : Tools.

Ltac unfold_tasks :=
  unfold bundle, bundle_onRun, createBanner, updateVersionFile, getVersion,
    compile, writeBanner, generateEntryFiles, addDeprecatedFunctions, minify,
    validate, generateDocs, watch.

Lemma invoke_quiet n : preserves quietly (invoke (task_fn T n)).
Proof.
  destruct n; simpl task_fn;
    try (apply invoke_stream; [apply _|by intros; apply quietly_refl_eq|]);
    simpl; unfold_tasks; repeat first [preserves_step | quiet_prim].
Qed.

Lemma invoke_same_watcher n :
  n ≠ TWatch → preserves same_watcher (invoke (task_fn T n)).
Proof.
  intros Hn. destruct n; try done; simpl task_fn;
    try (apply invoke_stream; [apply _|done|]);
    simpl; unfold_tasks; repeat first [preserves_step | preserves_prim].
Qed.

End Tasks.

Lemma emitted_app {A} (m : M A) w evs :
  trace (m w).2 = (trace w ++ evs)%list → emitted m w = evs.
Proof. unfold emitted. intros ->. apply drop_app_length. Qed.

Lemma task_events_app evs1 evs2 :
  task_events (evs1 ++ evs2) = (task_events evs1 ++ task_events evs2)%list.
Proof. apply List.filter_app. Qed.

Lemma started_task_events evs : started (task_events evs) = started evs.
Proof.
  induction evs as [|e evs IH]; [done|].
  destruct e; simpl; rewrite ?IH; done.
Qed.

Lemma elem_of_task_events e evs :
  e ∈ task_events evs ↔ e ∈ evs ∧ is_task_event e = true.
Proof.
  unfold task_events. rewrite !list_elem_of_In, List.filter_In. done.
Qed.

Section Runs.

Variable T : Tools.

(** A task leaves its start, then nothing that is a task event, then its
    end if it has one. *)
Lemma run_task_events n w :
  ∃ o evs,
    (run_task n (task_fn T n) w).1 = Ok o
    ∧ trace (run_task n (task_fn T n) w).2 = (trace w ++ evs)%list
    ∧ task_events evs
      = EvStart n :: match o with Some o' => [EvEnd n o'] | None => [] end.
Proof.
  unfold run_task.
  pose proof (invoke_quiet T n (emit (EvStart n) (set_signalled None w)))
    as (evs & Ht & Hq).
  destruct (invoke _ _) as [r w1]. simpl in Ht. cbv zeta.
  exists (settle (signalled w1) r). destruct (settle _ r) as [o|].
  - exists ([EvStart n] ++ evs ++ [EvEnd n o])%list. split_and!; [done|..].
    + simpl. rewrite Ht. by rewrite <- !(assoc_L (++)).
    + by rewrite !task_events_app, Hq.
  - exists ([EvStart n] ++ evs)%list. split_and!; [done|..].
    + simpl. rewrite Ht. by rewrite <- !(assoc_L (++)).
    + by rewrite !task_events_app, Hq.
Qed.

Lemma series_events ts w :
  ∃ o evs,
    (series T ts w).1 = Ok o
    ∧ trace (series T ts w).2 = (trace w ++ evs)%list
    ∧ in_series ts (task_events evs) o.
Proof.
  revert w. induction ts as [|t ts IH]; intros w.
  - exists (Some Success), []. simpl. rewrite (right_id_L [] (++)).
    split_and!; [done..|constructor].
  - simpl series. unfold mbind, M_bind.
    destruct (run_task_events t w) as (o1 & evs1 & Hr & Ht & He).
    destruct (run_task t (task_fn T t) w) as [r1 w1]. simpl in Hr, Ht. subst r1.
    destruct o1 as [[|e]|].
    + destruct (IH w1) as (o & evs & Hr' & Ht' & He').
      exists o, (evs1 ++ evs)%list. split_and!; [done|..].
      * by rewrite Ht', Ht, <- (assoc_L (++)).
      * rewrite task_events_app, He. simpl. by constructor.
    + exists (Some (Failure e)), evs1. simpl. rewrite He. split_and!; [done..|constructor].
    + exists None, evs1. simpl. rewrite He. split_and!; [done..|constructor].
Qed.

Lemma in_series_started ts evs o : in_series ts evs o → started evs `prefix_of` ts.
Proof.
  induction 1; simpl.
  - done.
  - by apply prefix_cons.
  - apply prefix_cons, prefix_nil.
  - apply prefix_cons, prefix_nil.
Qed.

Lemma in_series_success ts evs :
  in_series ts evs (Some Success) → evs = all_succeed ts.
Proof.
  intros H. remember (Some Success) as o eqn:Ho.
  induction H; simpl; try done. by rewrite IHin_series.
Qed.

Lemma in_series_failure ts evs o a e :
  in_series ts evs o → EvEnd a (Failure e) ∈ evs →
  ∃ before after,
    ts = (before ++ a :: after)%list
    ∧ evs = (all_succeed before ++ [EvStart a; EvEnd a (Failure e)])%list
    ∧ o = Some (Failure e).
Proof.
  induction 1 as [|t ts evs o H IH|t ts e'|t ts]; intros Hin.
  - by apply elem_of_nil in Hin.
  - apply elem_of_cons in Hin as [|Hin]; [done|].
    apply elem_of_cons in Hin as [|Hin]; [done|].
    destruct (IH Hin) as (before & after & -> & -> & ->).
    by exists (t :: before), after.
  - apply elem_of_cons in Hin as [|Hin]; [done|].
    apply list_elem_of_singleton in Hin as [= -> ->].
    by exists [], ts.
  - by apply list_elem_of_singleton in Hin.
Qed.

Lemma createBanner_world w : (createBanner T w).2 = w.
Proof.
  revert w. change (preserves unchanged (createBanner T)).
  unfold createBanner, getVersion, date_now_iso. repeat preserves_step.
Qed.

Lemma load_world w : (load T w).2 = w.
Proof.
  revert w. change (preserves unchanged (load T)).
  unfold load, createBanner, getVersion, date_now_iso. repeat preserves_step.
Qed.

(** A one-shot run: either the gulpfile does not load and nothing runs, or
    the default series runs. *)
Lemma run_once_events w :
  ((∃ e, (run_once T w).1 = Throw e) ∧ emitted (run_once T) w = [])
  ∨ (∃ o, (run_once T w).1 = Ok o
          ∧ in_series default_tasks (task_events (emitted (run_once T) w)) o).
Proof.
  unfold run_once, mbind at 1 3, M_bind at 1 3.
  unfold emitted. unfold mbind at 1 2, M_bind at 1 2.
  pose proof (load_world w) as Hl.
  destruct (load T w) as [[[]|e] w1]; simpl in Hl; subst w1.
  - right. destruct (series_events default_tasks w) as (o & evs & Hr & Ht & Hs).
    exists o. unfold default. split; [done|]. by rewrite Ht, drop_app_length.
  - left. split; [by eexists|]. simpl. by rewrite drop_all.
Qed.

Lemma default_tasks_NoDup : NoDup default_tasks.
Proof. apply (bool_decide_unpack _). by vm_compute. Qed.

Lemma elem_of_all_succeed ev ts :
  ev ∈ all_succeed ts → ∃ t, t ∈ ts ∧ (ev = EvStart t ∨ ev = EvEnd t Success).
Proof.
  unfold all_succeed. rewrite list_elem_of_In, List.in_flat_map.
  intros (t & Ht & Hev). rewrite <- list_elem_of_In in Ht.
  rewrite <- list_elem_of_In in Hev.
  exists t. split; [done|]. set_solver.
Qed.

(** A series calls the functions of its tasks strictly one after the
    other. *)
Lemma series_runs_in_order ts w :
  ∃ ran o w' evs,
    series T ts w = (Ok o, w')
    ∧ runs_in_order (List.map (λ n, (n, task_fn T n)) ts) w ran o w'
    ∧ trace w' = (trace w ++ evs)%list
    ∧ started evs = ran.
Proof.
  revert w. induction ts as [|t ts IH]; intros w.
  - exists [], (Some Success), w, []. simpl. rewrite (right_id_L [] (++)).
    split_and!; [done|constructor|done..].
  - simpl series. unfold mbind, M_bind, run_task.
    pose proof (invoke_quiet T t (emit (EvStart t) (set_signalled None w)))
      as (evs0 & Ht0 & Hq0).
    assert (started evs0 = []) as Hs0 by by rewrite <- started_task_events, Hq0.
    destruct (invoke _ _) as [r w1] eqn:Ei. simpl in Ht0. cbv zeta.
    destruct (settle (signalled w1) r) as [[|e]|] eqn:Es.
    + destruct (IH (emit (EvEnd t Success) w1)) as (ran & o & w' & evs & Hr & Hrun & Ht & Hst).
      exists (t :: ran), o, w', ([EvStart t] ++ evs0 ++ [EvEnd t Success] ++ evs)%list.
      split_and!; [done|by econstructor|..].
      * rewrite Ht. simpl. rewrite Ht0. by rewrite <- !(assoc_L (++)).
      * unfold started in *. rewrite !omap_app, Hs0, Hst. done.
    + exists [t], (Some (Failure e)), (emit (EvEnd t (Failure e)) w1),
        ([EvStart t] ++ evs0 ++ [EvEnd t (Failure e)])%list.
      split_and!; [done|by econstructor|..].
      * simpl. rewrite Ht0. by rewrite <- !(assoc_L (++)).
      * unfold started in *. rewrite !omap_app, Hs0. done.
    + exists [t], None, w1, ([EvStart t] ++ evs0)%list.
      split_and!; [done|by econstructor|..].
      * rewrite Ht0. by rewrite <- !(assoc_L (++)).
      * unfold started in *. rewrite !omap_app, Hs0. done.
Qed.

Lemma runs_in_order_prefix fns w ran o w' :
  runs_in_order fns w ran o w' → ran `prefix_of` fns.*1.
Proof.
  induction 1; simpl.
  - done.
  - by apply prefix_cons.
  - apply prefix_cons, prefix_nil.
  - apply prefix_cons, prefix_nil.
Qed.

Lemma runs_in_order_success fns w ran w' :
  runs_in_order fns w ran (Some Success) w' → ran = fns.*1.
Proof.
  intros H. remember (Some Success) as o eqn:Ho.
  induction H; simpl; try done. by rewrite IHruns_in_order.
Qed.

(** C1, as the code has it.  A one-shot run either fails to load the
    gulpfile, and then runs nothing, or calls the functions bundle,
    compile, writeBanner, generateEntryFiles, addDeprecatedFunctions,
    minify, validate and generateDocs strictly in this order: each is
    called in the world the one before it left, once that one has ended
    with success, and the first that does not end with success is the
    last one called.  So the tasks run are an initial segment of the
    eight, and they are all eight only when none of the first seven fails;
    a run that ends with success has run them all. *)
Theorem run_once_in_order (w : World) :
  (∃ e, (createBanner T w).1 = Throw e ∧ run_once T w = (Throw e, w))
  ∨ ∃ ran o w',
      run_once T w = (Ok o, w')
      ∧ runs_in_order
          [ (TBundle, WithCallback (bundle T));
            (TCompile, ReturnsStream (compile T));
            (TWriteBanner, WithCallback (writeBanner T));
            (TGenerateEntryFiles, WithCallback (generateEntryFiles T));
            (TAddDeprecatedFunctions, WithCallback addDeprecatedFunctions);
            (TMinify, WithCallback (minify T));
            (TValidate, WithCallback (validate T));
            (TGenerateDocs, WithCallback (generateDocs T)) ]
          w ran o w'
      ∧ started (emitted (run_once T) w) = ran
      ∧ ran `prefix_of`
          [TBundle; TCompile; TWriteBanner; TGenerateEntryFiles;
           TAddDeprecatedFunctions; TMinify; TValidate; TGenerateDocs]
      ∧ (o = Some Success →
         ran = [TBundle; TCompile; TWriteBanner; TGenerateEntryFiles;
                TAddDeprecatedFunctions; TMinify; TValidate; TGenerateDocs]).
Proof.
  pose proof (createBanner_world w) as Hw.
  destruct (createBanner T w) as [[banner|e] w1] eqn:Eb; simpl in Hw; subst w1.
  - right.
    assert (run_once T w = series T default_tasks w) as Hrun.
    { unfold run_once, load. by rewrite (bind_ok _ _ _ _ _ (bind_ok _ _ _ _ _ Eb)). }
    destruct (series_runs_in_order default_tasks w)
      as (ran & o & w' & evs & Hr & Hin & Ht & Hst).
    exists ran, o, w'. rewrite Hrun. split_and!; [done|done|..].
    + unfold emitted. rewrite Hrun, Hr. simpl. by rewrite Ht, drop_app_length.
    + by apply runs_in_order_prefix in Hin.
    + intros ->. by apply runs_in_order_success in Hin.
  - left. exists e. split; [done|]. unfold run_once, load.
    by rewrite (bind_throw _ _ _ _ _ (bind_throw _ _ _ _ _ Eb)).
Qed.

(** C2, as the code has it: when a task of a one-shot run fails, the
    tasks before it in the series have ended with success, the failed task
    is the last one started, no task after it is started or given any
    outcome, and the run ends with that failure. *)
Theorem run_once_stops_at_failure (w : World) (failed : TaskName) (e : Error) :
  EvEnd failed (Failure e) ∈ emitted (run_once T) w →
  ∃ before after,
    default_tasks = (before ++ failed :: after)%list
    ∧ task_events (emitted (run_once T) w)
      = (all_succeed before ++ [EvStart failed; EvEnd failed (Failure e)])%list
    ∧ (∀ t, t ∈ after →
       (EvStart t ∉ emitted (run_once T) w)
       ∧ (∀ o, EvEnd t o ∉ emitted (run_once T) w))
    ∧ (run_once T w).1 = Ok (Some (Failure e)).
Proof.
  intros Hin.
  destruct (run_once_events w) as [[_ Hn]|(o & Ho & Hs)].
  { rewrite Hn in Hin. by apply elem_of_nil in Hin. }
  destruct (in_series_failure _ _ _ failed e Hs) as (before & after & Hts & Hev & ->).
  { by apply elem_of_task_events. }
  exists before, after. split_and!; try done.
  intros t Ht.
  pose proof default_tasks_NoDup as Hnd. rewrite Hts in Hnd.
  apply NoDup_app in Hnd as (_ & Hdisj & [Hfa _]%NoDup_cons).
  assert (∀ ev, ev ∈ emitted (run_once T) w → is_task_event ev = true →
          ∀ o, ev ≠ EvStart t ∧ ev ≠ EvEnd t o) as Hno.
  { intros ev Hev1 Hev2 o.
    assert (ev ∈ task_events (emitted (run_once T) w)) as Hev'
      by by apply elem_of_task_events.
    rewrite Hev, elem_of_app in Hev'. destruct Hev' as [Hb|Hf].
    - apply elem_of_all_succeed in Hb as (t' & Ht' & [->| ->]);
        split; intros [= ->]; eapply Hdisj; set_solver.
    - apply elem_of_cons in Hf as [->|Hf];
        [|apply list_elem_of_singleton in Hf as ->];
        split; intros [= ->]; done. }
  split.
  - intros H. by destruct (Hno _ H eq_refl Success) as [? _].
  - intros o H. by destruct (Hno _ H eq_refl o) as [_ ?].
Qed.

End Runs.

(** C2 fails on a run in which the bundler reports an error: the
    transpile task, which by the data flow of the spec depends on nothing
    the bundle task makes, is not run and ends with no outcome at all. *)
Lemma run_once_not_partial :
  let T := Node.tools [] ["Module not found"] in
  let w := Node.project (Node.manifest "9.9.9") "/* @@version @@date */" in
  EvEnd TBundle (Failure (MkError "Compile failed")) ∈ emitted (run_once T) w
  ∧ spec_reaches 8 TCompile TBundle = false
  ∧ (∀ o, EvEnd TCompile o ∉ emitted (run_once T) w)
  ∧ ¬ partial_failure T w.
Proof.
  intros T w.
  assert (emitted (run_once T) w
          = [EvStart TBundle;
             EvWrite "/proj/src/version.js" (versionFileText "9.9.9");
             EvLog ("Webpack errors:" +:+ nl +:+ "Module not found");
             EvDone (Some (MkError "Compile failed"));
             EvLog "bundled /proj/dist/math.js"; EvDone None;
             EvEnd TBundle (Failure (MkError "Compile failed"))]) as Hev
    by by vm_compute.
  assert (∀ o, EvEnd TCompile o ∉ emitted (run_once T) w) as Hno.
  { intros o. rewrite Hev. set_solver. }
  split_and!; [rewrite Hev; set_solver|done|done|].
  intros H. destruct (H TBundle (MkError "Compile failed") TCompile) as [o Ho].
  - rewrite Hev. set_solver.
  - set_solver.
  - done.
  - by apply Hno in Ho.
Qed.

Lemma run_once_stops_at_failure_witness :
  let T := Node.tools [] ["Module not found"] in
  let w := Node.project (Node.manifest "9.9.9") "/* @@version @@date */" in
  (run_once T w).1 = Ok (Some (Failure (MkError "Compile failed")))
  ∧ EvStart TCompile ∉ emitted (run_once T) w.
Proof.
  intros T w.
  destruct (run_once_stops_at_failure T w TBundle (MkError "Compile failed"))
    as (before & after & Hts & _ & Hafter & Hr).
  - apply (bool_decide_unpack _). by vm_compute.
  - split; [done|]. unfold default_tasks in Hts.
    destruct before as [|b before]; simpl in Hts.
    + injection Hts as <-. apply Hafter. set_solver.
    + exfalso. injection Hts as <- Hts.
      assert (TBundle ∈ [TCompile; TWriteBanner; TGenerateEntryFiles;
                         TAddDeprecatedFunctions; TMinify; TValidate;
                         TGenerateDocs]) as Hx
        by (rewrite Hts; set_solver).
      set_solver.
Defined.

(** C1 fails on a run in which the bundler reports an error: bundle is
    the only task run, and none of the seven after it is started. *)
Lemma run_once_stops_early :
  let T := Node.tools [] ["Module not found"] in
  let w := Node.project (Node.manifest "9.9.9") "/* @@version @@date */" in
  started (emitted (run_once T) w) = [TBundle]
  ∧ (run_once T w).1 = Ok (Some (Failure (MkError "Compile failed")))
  ∧ started (emitted (run_once T) w)
    ≠ [TBundle; TCompile; TWriteBanner; TGenerateEntryFiles;
       TAddDeprecatedFunctions; TMinify; TValidate; TGenerateDocs].
Proof. by vm_compute. Qed.

Lemma run_once_in_order_witness :
  started
    (emitted (run_once (Node.tools [] []))
       (Node.project (Node.manifest "9.9.9") "/* @@version @@date */"))
  = [TBundle; TCompile; TWriteBanner; TGenerateEntryFiles;
     TAddDeprecatedFunctions; TMinify; TValidate; TGenerateDocs].
Proof.
  destruct (run_once_in_order (Node.tools [] [])
              (Node.project (Node.manifest "9.9.9") "/* @@version @@date */"))
    as [(e & He & _)|(ran & o & w' & Hr & _ & Hs & _ & Hall)].
  - by vm_compute in He.
  - rewrite Hs. apply Hall. clear -Hr.
    apply (f_equal fst) in Hr. vm_compute in Hr. by injection Hr as <-.
Defined.

(** ** The watch loop *)

Section Watch.

Variable T : Tools.

Lemma run_task_same_watcher n w :
  n ≠ TWatch → watcher (run_task n (task_fn T n) w).2 = watcher w.
Proof.
  intros Hn. unfold run_task.
  pose proof (invoke_same_watcher T n Hn (emit (EvStart n) (set_signalled None w)))
    as H.
  unfold same_watcher in H. destruct (invoke _ _) as [r w1]. simpl in *.
  by destruct (settle _ r).
Qed.

(** [run_task_escaping] is [run_task], with what escapes. *)
Lemma run_task_escaping_run n f w :
  ∃ o x, run_task_escaping n f w = (Ok (o, x), (run_task n f w).2)
         ∧ (run_task n f w).1 = Ok o
         ∧ x = uncaught
                 (signalled (invoke f (emit (EvStart n) (set_signalled None w))).2)
                 (invoke f (emit (EvStart n) (set_signalled None w))).1.
Proof.
  unfold run_task_escaping, run_task. destruct (invoke f _) as [r w1]. simpl.
  by eexists _, _.
Qed.

(** Of the tasks of the watcher, only bundle throws after it has signalled
    completion: when the bundler reports a fatal error and hands over no
    result, the callback is called with the error, and reading the result
    then throws. *)
Lemma uncaught_compile w :
  uncaught (signalled (invoke (task_fn T TCompile) (set_signalled None w)).2)
    (invoke (task_fn T TCompile) (set_signalled None w)).1 = None.
Proof.
  simpl. unfold compile, external_r.
  destruct (babel_pipeline T _ _) as [[[]|e] f']; done.
Qed.

Lemma uncaught_addDeprecatedFunctions w :
  uncaught (signalled (addDeprecatedFunctions done_cb (set_signalled None w)).2)
    (addDeprecatedFunctions done_cb (set_signalled None w)).1 = None.
Proof.
  unfold addDeprecatedFunctions, mbind, M_bind, readFileSync, writeFileSync, log,
    modify, done_cb.
  simpl. destruct (files (fs w) !! _); [|done]. by case_decide.
Qed.

Lemma same_signalled_updateVersionFile :
  preserves same_signalled (updateVersionFile T).
Proof.
  unfold updateVersionFile, getVersion.
  repeat preserves_step; auto using same_signalled_writeFileSync.
Qed.

Lemma bundle_cases w :
  signalled w = None →
  (∃ e w', bundle T done_cb w = (Throw e, w') ∧ signalled w' = None)
  ∨ ∃ banner wb err stats f',
      signalled wb = None
      ∧ webpack_run T banner (cwd wb) (fs wb) = ((err, stats), f')
      ∧ bundle T done_cb w = bundle_onRun T done_cb err stats (set_fs f' wb).
Proof.
  intros Hs. unfold bundle.
  pose proof (createBanner_world T w) as Hw.
  destruct (createBanner T w) as [[banner|e'] wa] eqn:Eb; simpl in Hw; subst wa.
  2: { left. exists e', w. by rewrite (bind_throw _ _ _ _ _ Eb). }
  rewrite (bind_ok _ _ _ _ _ Eb).
  pose proof (same_signalled_updateVersionFile w) as Hu.
  unfold same_signalled in Hu. rewrite Hs in Hu.
  destruct (updateVersionFile T w) as [[[]|e'] wb] eqn:Eu; simpl in Hu.
  2: { left. exists e', wb. by rewrite (bind_throw _ _ _ _ _ Eu). }
  rewrite (bind_ok _ _ _ _ _ Eu).
  destruct (webpack_run T banner (cwd wb) (fs wb)) as [[err stats] f'] eqn:Ew.
  right. exists banner, wb, err, stats, f'. split_and!; [done..|].
  erewrite bind_ok; [|unfold external; by rewrite Ew]. done.
Qed.

Lemma uncaught_bundle w e :
  signalled w = None →
  uncaught (signalled (bundle T done_cb w).2) (bundle T done_cb w).1 = Some e →
  e = TypeError "Cannot read property 'toJson' of undefined"
  ∧ ∃ banner dir f err, (webpack_run T banner dir f).1 = (Some err, None).
Proof.
  intros Hs.
  destruct (bundle_cases w Hs)
    as [(e' & w' & -> & Hs')|(banner & wb & err & stats & f' & Hu & Ew & ->)].
  { simpl. by rewrite Hs'. }
  unfold bundle_onRun, mbind, M_bind, mret, M_ret, log, modify, done_cb, throw.
  destruct err as [err|], stats as [st|]; simpl; rewrite ?Hu; simpl.
  - destruct (hasWarnings st), (hasErrors st); simpl; rewrite ?Hu; simpl; done.
  - intros [= <-]. split; [done|]. exists banner, (cwd wb), (fs wb), err.
    by rewrite Ew.
  - destruct (hasWarnings st), (hasErrors st); simpl; rewrite ?Hu; simpl; done.
  - done.
Qed.

Lemma uncaught_watched t w e :
  t ∈ [TBundle; TCompile; TAddDeprecatedFunctions] →
  uncaught (signalled (invoke (task_fn T t) (emit (EvStart t) (set_signalled None w))).2)
    (invoke (task_fn T t) (emit (EvStart t) (set_signalled None w))).1 = Some e →
  t = TBundle ∧ e = TypeError "Cannot read property 'toJson' of undefined"
  ∧ ∃ banner dir f err, (webpack_run T banner dir f).1 = (Some err, None).
Proof.
  intros Ht.
  apply elem_of_cons in Ht as [->|Ht]; [|apply elem_of_cons in Ht as [->|Ht]];
    [| |apply list_elem_of_singleton in Ht as ->].
  - simpl invoke. intros H. by apply uncaught_bundle in H as [-> ?].
  - change (emit (EvStart TCompile) (set_signalled None w))
      with (set_signalled None (emit (EvStart TCompile) w)).
    by rewrite uncaught_compile.
  - simpl invoke.
    change (emit (EvStart TAddDeprecatedFunctions) (set_signalled None w))
      with (set_signalled None (emit (EvStart TAddDeprecatedFunctions) w)).
    by rewrite uncaught_addDeprecatedFunctions.
Qed.

Lemma parallel_events ts w :
  Forall (λ t, t ∈ [TBundle; TCompile; TAddDeprecatedFunctions]) ts →
  ∃ o x evs,
    parallel T ts w = (Ok (o, x), (parallel T ts w).2)
    ∧ trace (parallel T ts w).2 = (trace w ++ evs)%list
    ∧ started evs = ts
    ∧ (∀ o', EvEnd TWatch o' ∉ evs)
    ∧ watcher (parallel T ts w).2 = watcher w
    ∧ (∀ e, x = Some e →
         e = TypeError "Cannot read property 'toJson' of undefined"
         ∧ ∃ banner dir f err, (webpack_run T banner dir f).1 = (Some err, None)).
Proof.
  intros Hts. revert w. induction Hts as [|t ts Ht _ IH]; intros w.
  - exists (Some Success), None, []. simpl. rewrite (right_id_L [] (++)).
    split_and!; try done. intros o'. apply not_elem_of_nil.
  - simpl parallel. unfold mbind at 1 3 5 7, M_bind at 1 3 5 7.
    destruct (run_task_events T t w) as (o1 & evs1 & Hr & Htr & He).
    assert (t ≠ TWatch) as Hnw by (intros ->; set_solver).
    pose proof (run_task_same_watcher t w Hnw) as Hw.
    destruct (run_task_escaping_run t (task_fn T t) w) as (o1' & x1 & -> & Hr' & Hx).
    rewrite Hr in Hr'. injection Hr' as <-.
    set (w1 := (run_task t (task_fn T t) w).2) in *.
    unfold mbind, M_bind.
    destruct (IH w1) as (o2 & x2 & evs2 & Hp & Htr2 & Hst & Hno & Hw2 & Hx2).
    rewrite Hp. simpl.
    exists (combine o1 o2), (match x1 with Some e => Some e | None => x2 end),
      (evs1 ++ evs2)%list.
    split_and!; [done|..].
    + by rewrite Htr2, Htr, <- (assoc_L (++)).
    + unfold started in *. rewrite omap_app, Hst.
      fold (started evs1). rewrite <- started_task_events, He.
      by destruct o1.
    + intros o' [Hin|Hin]%elem_of_app; [|by apply Hno in Hin].
      assert (EvEnd TWatch o' ∈ task_events evs1) as Hin'
        by by apply elem_of_task_events.
      rewrite He in Hin'. destruct o1; set_solver.
    + by rewrite Hw2.
    + intros e. destruct x1 as [e1|]; [|apply Hx2]. intros [= <-].
      symmetry in Hx. by apply uncaught_watched in Hx as [_ ?].
Qed.

(** One event at a live watcher. *)
Lemma watch_step_events ev w :
  subscribed w →
  ∃ evs,
    trace (watch_step T ev w).2 = (trace w ++ evs)%list
    ∧ started evs
      = match ev, watcher w with
        | TimerElapsed, Some wt =>
            if armed wt then [TBundle; TCompile; TAddDeprecatedFunctions] else []
        | _, _ => []
        end
    ∧ (∀ o, EvEnd TWatch o ∉ evs)
    ∧ subscribed (watch_step T ev w).2
    ∧ ((watch_step T ev w).1 = Ok tt
       ∨ (watch_step T ev w).1
         = Throw (TypeError "Cannot read property 'toJson' of undefined")
         ∧ ∃ banner dir f err, (webpack_run T banner dir f).1 = (Some err, None)).
Proof.
  intros (wt & Hw & Hh & Hi). unfold watch_step. rewrite Hw.
  destruct ev as [p|].
  - exists []. rewrite (right_id_L [] (++)).
    destruct (relevant T wt p); simpl; split_and!; try done;
      try (intros o; apply not_elem_of_nil); try (by left).
    + by exists (set_armed true wt).
    + by exists wt.
  - destruct (armed wt) eqn:Ea.
    + destruct (parallel_events (handler wt)
                  (set_watcher (Some (set_armed false wt)) w))
        as (o & x & evs & Hp & Htr & Hst & Hno & Hwt & Hx).
      { rewrite Hh. repeat constructor; set_solver. }
      rewrite Hp. exists evs.
      assert (subscribed (parallel T (handler wt)
                            (set_watcher (Some (set_armed false wt)) w)).2) as Hsub.
      { exists (set_armed false wt). by rewrite Hwt. }
      destruct x as [e|]; simpl; split_and!; try done; try by rewrite Hst.
      * right. destruct (Hx e eq_refl) as [-> ?]. done.
      * by left.
    + exists []. rewrite (right_id_L [] (++)). simpl. split_and!; try done.
      * intros o. apply not_elem_of_nil.
      * by exists wt.
      * by left.
Qed.

Lemma watch_steps_events evs w :
  subscribed w →
  ∃ tr,
    trace (watch_steps T evs w).2 = (trace w ++ tr)%list
    ∧ (∀ o, EvEnd TWatch o ∉ tr)
    ∧ (∀ t, t ∈ started tr → t ∈ [TBundle; TCompile; TAddDeprecatedFunctions])
    ∧ subscribed (watch_steps T evs w).2
    ∧ ((watch_steps T evs w).1 = Ok tt
       ∨ (watch_steps T evs w).1
         = Throw (TypeError "Cannot read property 'toJson' of undefined")
         ∧ ∃ banner dir f err, (webpack_run T banner dir f).1 = (Some err, None)).
Proof.
  revert w. induction evs as [|ev evs IH]; intros w Hs.
  - exists []. simpl. rewrite (right_id_L [] (++)). split_and!; try done.
    + intros o. apply not_elem_of_nil.
    + intros t. simpl. by intros ?%elem_of_nil.
    + by left.
  - simpl watch_steps. unfold mbind, M_bind.
    destruct (watch_step_events ev w Hs) as (tr1 & Ht & Hst & Hno & Hs1 & Hr).
    destruct (watch_step T ev w) as [r1 w1]. simpl in Hr, Ht, Hs1.
    assert (∀ t, t ∈ started tr1 → t ∈ [TBundle; TCompile; TAddDeprecatedFunctions])
      as Hin1.
    { intros t. rewrite Hst. destruct ev; [by intros ?%elem_of_nil|].
      destruct (watcher w) as [wt|]; [|by intros ?%elem_of_nil].
      destruct (armed wt); [done|by intros ?%elem_of_nil]. }
    destruct Hr as [-> | [-> Hfatal]].
    + destruct (IH w1 Hs1) as (tr2 & Ht2 & Hno2 & Hin2 & Hs2 & Hr2).
      exists (tr1 ++ tr2)%list. split_and!; try done.
      * by rewrite Ht2, Ht, <- (assoc_L (++)).
      * intros o [?|?]%elem_of_app; [by eapply Hno|by eapply Hno2].
      * intros t. unfold started. rewrite omap_app.
        intros [?|?]%elem_of_app; [by apply Hin1|by apply Hin2].
    + exists tr1. simpl. split_and!; try done. by right.
Qed.

(** The watch task subscribes and never signals its end. *)
Lemma run_watch_result w :
  ((∃ e, (createBanner T w).1 = Throw e ∧ run_watch T w = (Throw e, w))
   ∨ (run_watch T w).1 = Ok None
     ∧ trace (run_watch T w).2 = (trace w ++ [EvStart TWatch])%list
     ∧ subscribed (run_watch T w).2).
Proof.
  unfold run_watch, load.
  pose proof (createBanner_world T w) as Hw.
  destruct (createBanner T w) as [[banner|e] w1] eqn:Eb; simpl in Hw; subst w1.
  - right. rewrite (bind_ok _ _ _ _ _ (bind_ok _ _ _ _ _ Eb)).
    unfold run_task. simpl. split_and!; try done. by eexists.
  - left. exists e. split; [done|].
    by rewrite (bind_throw _ _ _ _ _ (bind_throw _ _ _ _ _ Eb)).
Qed.

(** With [ignoreInitial: false], the timer of the new watcher is armed
    exactly when a file it reacts to is in place. *)
Lemma run_watch_arms w banner :
  (createBanner T w).1 = Ok banner →
  ∃ wt, watcher (run_watch T w).2 = Some wt
        ∧ (armed wt = true
           ↔ ∃ p, is_Some (files (fs w) !! p) ∧ relevant T wt p = true).
Proof.
  intros Hb. pose proof (createBanner_world T w) as Hw.
  destruct (createBanner T w) as [r w1] eqn:Eb. simpl in Hb, Hw. subst r w1.
  unfold run_watch, load.
  rewrite (bind_ok _ _ _ _ _ (bind_ok _ _ _ _ _ Eb)).
  unfold run_task. simpl. eexists. split; [done|]. simpl.
  unfold found_at_start. simpl. rewrite existsb_exists. split.
  - intros (p & Hp & Hr). exists p. split; [|done].
    apply list_elem_of_In, elem_of_elements, elem_of_dom in Hp. done.
  - intros (p & Hp & Hr). exists p. split; [|done].
    by apply list_elem_of_In, elem_of_elements, elem_of_dom.
Qed.

(** The watch loop, from a process without a subscription. *)
Lemma watch_session_events evs w :
  watcher w = None →
  (∀ o, EvEnd TWatch o ∉ emitted (watch_session T evs) w)
  ∧ (∀ t, t ∈ started (emitted (watch_session T evs) w) →
          t ∈ [TWatch; TBundle; TCompile; TAddDeprecatedFunctions])
  ∧ (watcher (watch_session T evs w).2 = None
     ∨ subscribed (watch_session T evs w).2)
  ∧ (∀ e, (watch_session T evs w).1 = Throw e →
       (createBanner T w).1 = Throw e ∧ watch_session T evs w = (Throw e, w)
       ∨ e = TypeError "Cannot read property 'toJson' of undefined"
         ∧ ∃ banner dir f err, (webpack_run T banner dir f).1 = (Some err, None)).
Proof.
  intros Hw. unfold watch_session, emitted, mbind, M_bind.
  destruct (run_watch_result w) as [(e & Hb & He)|(Hr & Ht & Hs)].
  { rewrite He. simpl. rewrite drop_all. split_and!.
    - intros o. apply not_elem_of_nil.
    - intros t. simpl. by intros ?%elem_of_nil.
    - by left.
    - intros e' [= <-]. by left. }
  destruct (run_watch T w) as [r1 w1]. simpl in Hr, Ht, Hs. subst r1.
  destruct (watch_steps_events evs w1 Hs) as (tr & Ht2 & Hno & Hin & Hs2 & Hr2).
  rewrite Ht2, Ht, <- (assoc_L (++)), drop_app_length. split_and!.
  - intros o [Hin'|Hin']%elem_of_app; [set_solver|by eapply Hno].
  - intros t. unfold started. rewrite omap_app. simpl.
    intros [->|?]%elem_of_cons; [set_solver|].
    apply elem_of_cons. right. by apply Hin.
  - by right.
  - intros e He. right. destruct Hr2 as [Hok|[Hth Hfatal]]; rewrite He in *;
      [done|]. by injection Hth as ->.
Qed.

Lemma updateVersionFile_writes w p c :
  EvWrite p c ∈ emitted (updateVersionFile T) w →
  p = cwd w +:+ "/src/" +:+ "version.js" +:+ "".
Proof.
  unfold emitted, updateVersionFile, mbind, M_bind.
  pose proof (getVersion_world T w) as Hv.
  destruct (getVersion T w) as [[v|e] w1]; simpl in Hv; subst w1.
  - unfold writeFileSync. case_decide; simpl.
    + rewrite drop_all. by intros ?%elem_of_nil.
    + rewrite drop_app_length. by intros [= -> _]%list_elem_of_singleton.
  - simpl. rewrite drop_all. by intros ?%elem_of_nil.
Qed.

(** C6: while the watch loop is alive — in every state it reaches from a
    fresh process, after any events — a change of a file that
    [updateVersionFile] writes is not among the changes the watcher reacts
    to: the event leaves the watcher as it is, its timer neither armed
    nor re-armed, and starts no task. *)
Theorem version_write_ignored (w0 : World) (evs : list WatchEvent)
    (wx : World) (p c : string) :
  watcher w0 = None →
  EvWrite p c ∈ emitted (updateVersionFile T) wx →
  let w := (watch_session T evs w0).2 in
  (∀ wt, watcher w = Some wt → relevant T wt p = false)
  ∧ watch_step T (FsChange p) w = (Ok tt, w).
Proof.
  intros Hw0 Hp%updateVersionFile_writes w. subst p.
  destruct (watch_session_events evs w0 Hw0) as (_ & _ & [Hn|(wt & Hwt & _ & Hi)] & _);
    fold w in Hn || fold w in Hwt.
  - split; [intros wt; by rewrite Hn|]. unfold watch_step. by rewrite Hn.
  - assert (relevant T wt (cwd wx +:+ "/src/" +:+ "version.js" +:+ "") = false) as Hrel.
    { unfold relevant. rewrite Hi, <- str_app_assoc, includes_intro.
      apply andb_false_r. }
    split; [intros wt'; rewrite Hwt; by intros [= <-]|].
    unfold watch_step. by rewrite Hwt, Hrel.
Qed.


End Watch.


Lemma version_write_ignored_witness :
  let T := Node.tools [] [] in
  let w0 := Node.project (Node.manifest "9.9.9") "/* @@version @@date */" in
  let w := (watch_session T [FsChange "/proj/src/add.js"] w0).2 in
  watch_step T (FsChange "/proj/src/version.js") w = (Ok tt, w).
Proof.
  intros T w0 w.
  refine (proj2 (version_write_ignored T w0 [FsChange "/proj/src/add.js"] w0
                   "/proj/src/version.js" (versionFileText "9.9.9") _ _)).
  - reflexivity.
  - apply (bool_decide_unpack _). by vm_compute.
Defined.


(** ** The date of the banner *)

Lemma digitChar_isDigit z : isDigit (digitChar z) = true.
Proof.
  unfold digitChar. pose proof (Z.mod_pos_bound z 10 eq_refl) as Hb.
  assert (Z.to_nat (z mod 10) < 10)%nat as Hn by lia.
  revert Hn. generalize (Z.to_nat (z mod 10)). intros n Hn.
  do 10 (destruct n as [|n]; [reflexivity|]). lia.
Qed.

Lemma mem_date_chars c s :
  all_chars (λ x, isDigit x || bool_decide (x = "-"%char)) s = true →
  isDigit c = false → c ≠ "-"%char → mem c s = false.
Proof.
  intros Hs Hc Hd. induction s as [|x s IH]; [done|].
  simpl in Hs. apply andb_true_iff in Hs as [Hx Hs]. simpl.
  rewrite decide_False; [by apply IH|].
  intros ->. rewrite Hc in Hx. simpl in Hx. by apply bool_decide_eq_true in Hx.
Qed.

Lemma plain_date c s :
  isDigit c = true →
  all_chars (λ x, isDigit x || bool_decide (x = "-"%char)) s = true →
  plain (String c s) = true.
Proof.
  intros Hc Hs. unfold plain.
  assert (∀ x, isDigit x = false → x ≠ "-"%char → mem x (String c s) = false) as Hm.
  { intros x Hx Hd. apply mem_date_chars; [|done..]. simpl. by rewrite Hc, Hs. }
  rewrite !Hm by done.
  assert (∀ t, (∀ x, mem x t = true → isDigit x = false) → mem c t = false) as Hno.
  { intros t Ht. destruct (mem c t) eqn:E; [|done]. apply Ht in E. congruence. }
  rewrite !Hno; [done|..]; intros x Hx; simpl in Hx;
    repeat (case_decide; [by subst|]); done.
Qed.

Lemma today_in_range w :
  0 ≤ year (now w) ≤ 9999 →
  today w = fixed 4 (year (now w)) +:+ "-" +:+ fixed 2 (month (now w))
            +:+ "-" +:+ fixed 2 (day (now w)).
Proof.
  intros Hy. unfold today, toISOString, isoYear. by rewrite decide_True.
Qed.

Lemma today_chars w :
  0 ≤ year (now w) ≤ 9999 →
  today w
  = String (digitChar (year (now w) / 10 / 10 / 10))
      (String (digitChar (year (now w) / 10 / 10))
         (String (digitChar (year (now w) / 10))
            (String (digitChar (year (now w)))
               (String "-"
                  (String (digitChar (month (now w) / 10))
                     (String (digitChar (month (now w)))
                        (String "-"
                           (String (digitChar (day (now w) / 10))
                              (String (digitChar (day (now w))) ""))))))))).
Proof.
  intros Hy. unfold today, toISOString, isoYear. by rewrite decide_True.
Qed.

Lemma today_plain w : 0 ≤ year (now w) ≤ 9999 → plain (today w) = true.
Proof.
  intros Hy. rewrite today_chars by done.
  apply plain_date; [apply digitChar_isDigit|].
  cbn [all_chars]. by rewrite !digitChar_isDigit.
Qed.

(** ** Further properties: the banner and the version file *)

Section BannerAndVersion.

Variable T : Tools.

Lemma getVersion_run w :
  getVersion T w
  = (match files (fs w) !! resolve (cwd w) "./package.json" with
     | Some text =>
         match JSON_parse T text with
         | Ok v => get_version_prop v
         | Throw e => Throw e
         end
     | None => Throw (FsError "open" (resolve (cwd w) "./package.json"))
     end, w).
Proof.
  unfold getVersion, mbind, M_bind, readFileSync, lift.
  destruct (files (fs w) !! _); [|done]. by destruct (JSON_parse T _).
Qed.

Lemma createBanner_run w :
  createBanner T w
  = (match (getVersion T w).1 with
     | Ok v =>
         match files (fs w) !! resolve (cwd w) HEADER with
         | Some header => Ok (renderBanner header (today w) (toString v))
         | None => Throw (FsError "open" (resolve (cwd w) HEADER))
         end
     | Throw e => Throw e
     end, w).
Proof.
  unfold createBanner, date_now_iso, gets, mbind at 1, M_bind at 1.
  unfold mbind at 1, M_bind at 1.
  pose proof (getVersion_world T w) as Hv.
  destruct (getVersion T w) as [[v|e] w1]; simpl in Hv; subst w1; [|done].
  unfold mbind, M_bind, readFileSync. cbn [fst].
  by destruct (files (fs w) !! _).
Qed.

Lemma getVersion_throws w e :
  (getVersion T w).1 = Throw e → getVersion T w = (Throw e, w).
Proof. rewrite getVersion_run. simpl. by intros ->. Qed.

Lemma getVersion_returns w v :
  (getVersion T w).1 = Ok v → getVersion T w = (Ok v, w).
Proof. rewrite getVersion_run. simpl. by intros ->. Qed.

(** Starting a task changes nothing the banner or the version is made of. *)
Lemma getVersion_start w n :
  (getVersion T (emit (EvStart n) (set_signalled None w))).1 = (getVersion T w).1.
Proof. by rewrite !getVersion_run. Qed.

Lemma createBanner_start w n :
  (createBanner T (emit (EvStart n) (set_signalled None w))).1
  = (createBanner T w).1.
Proof. by rewrite !createBanner_run, !getVersion_run. Qed.

Lemma createBanner_throws w e :
  (createBanner T w).1 = Throw e → createBanner T w = (Throw e, w).
Proof. rewrite createBanner_run. simpl. by intros ->. Qed.

Lemma createBanner_returns w banner :
  (createBanner T w).1 = Ok banner → createBanner T w = (Ok banner, w).
Proof. rewrite createBanner_run. simpl. by intros ->. Qed.

Lemma updateVersionFile_run w v :
  (getVersion T w).1 = Ok v →
  resolve (cwd w) VERSION ∉ unwritable (fs w) →
  updateVersionFile T w
  = (Ok tt, emit (EvWrite (resolve (cwd w) VERSION) (versionFileText (toString v)))
              (set_fs (set_file (resolve (cwd w) VERSION)
                         (versionFileText (toString v)) (fs w)) w)).
Proof.
  intros Hv Hu. unfold updateVersionFile.
  rewrite (bind_ok _ _ _ _ _ (getVersion_returns _ _ Hv)).
  by apply writeFileSync_ok.
Qed.

Lemma updateVersionFile_refused w v :
  (getVersion T w).1 = Ok v →
  resolve (cwd w) VERSION ∈ unwritable (fs w) →
  updateVersionFile T w = (Throw (FsError "open" (resolve (cwd w) VERSION)), w).
Proof.
  intros Hv Hu. unfold updateVersionFile.
  rewrite (bind_ok _ _ _ _ _ (getVersion_returns _ _ Hv)).
  by apply writeFileSync_refused.
Qed.


(** X2: the banner depends on nothing but the working directory, the
    clock, the manifest and the template: in two worlds that agree on
    these, [createBanner] gives the same result. *)
Theorem createBanner_reads_only (w w' : World) :
  cwd w' = cwd w → now w' = now w →
  (∀ p, p ∈ ["./package.json"; HEADER] →
        files (fs w') !! resolve (cwd w) p = files (fs w) !! resolve (cwd w) p) →
  (createBanner T w').1 = (createBanner T w).1.
Proof.
  intros Hc Hn Hf. rewrite !createBanner_run, !getVersion_run. simpl.
  unfold today. rewrite Hc, Hn, !Hf by set_solver. done.
Qed.

(** X3: when the banner cannot be made, the gulpfile does not load:
    [gulp] and [gulp watch] end with the error of [createBanner] before
    any task starts, and nothing is written or logged. *)
Theorem load_failure_runs_nothing (w : World) (e : Error) :
  (createBanner T w).1 = Throw e →
  run_once T w = (Throw e, w) ∧ run_watch T w = (Throw e, w).
Proof.
  intros He. pose proof (createBanner_world T w) as Hw.
  assert (load T w = (Throw e, w)) as Hl.
  { unfold load. erewrite bind_throw; [done|].
    destruct (createBanner T w) as [r w1]. simpl in *. by subst. }
  unfold run_once, run_watch. by rewrite !(bind_throw _ _ _ _ _ Hl).
Qed.


(** X5: a manifest object without a [version] makes neither function fail:
    the version file then exports the text [undefined], and the banner
    carries [undefined] where the template has its version placeholder. *)
Theorem version_undefined_is_written (w : World) (text header : string)
    (props : list (string * JSValue)) :
  files (fs w) !! resolve (cwd w) "./package.json" = Some text →
  JSON_parse T text = Ok (JObject props) →
  Forall (λ kv, kv.1 ≠ "version") props →
  files (fs w) !! resolve (cwd w) HEADER = Some header →
  resolve (cwd w) VERSION ∉ unwritable (fs w) →
  (updateVersionFile T w).1 = Ok tt
  ∧ files (fs (updateVersionFile T w).2) !! resolve (cwd w) VERSION
    = Some ("export const version = 'undefined'" +:+ nl +:+
            "// Note: This file is automatically generated when building math.js."
            +:+ nl +:+
            "// Changes made in this file will be overwritten." +:+ nl)
  ∧ (createBanner T w).1
    = Ok (replace (replace header "@@date" (today w)) "@@version" "undefined").
Proof.
  intros Hf Hp Hno Hh Hu.
  assert (getVersion T w = (Ok JUndefined, w)) as Hv.
  { rewrite (getVersion_parsed T _ _ _ Hf Hp). simpl.
    by rewrite lookup_prop_absent. }
  split_and!.
  - unfold updateVersionFile. rewrite (bind_ok _ _ _ _ _ Hv).
    by rewrite writeFileSync_ok.
  - unfold updateVersionFile. rewrite (bind_ok _ _ _ _ _ Hv).
    rewrite writeFileSync_ok by done. simpl. apply lookup_insert_eq.
  - rewrite createBanner_run, Hv. simpl. by rewrite Hh.
Qed.

End BannerAndVersion.


Lemma createBanner_reads_only_witness :
  let w := Node.project (Node.manifest "9.9.9") "/* @@version @@date */" in
  (createBanner (Node.tools [] [])
     (emit (EvLog "x") (Node.with_file "/proj/src/add.js" "add" w))).1
  = (createBanner (Node.tools [] []) w).1.
Proof.
  intros w. apply createBanner_reads_only; [reflexivity..|].
  intros p Hp. apply (bool_decide_unpack _). revert p Hp.
  apply Forall_forall. repeat constructor.
Defined.

Lemma load_failure_runs_nothing_witness :
  let w := Examples.no_header (Node.manifest "9.9.9") in
  run_once (Node.tools [] []) w = (Throw (FsError "open" "/proj/src/header.js"), w)
  ∧ run_watch (Node.tools [] []) w
    = (Throw (FsError "open" "/proj/src/header.js"), w).
Proof.
  intros w. apply load_failure_runs_nothing. by vm_compute.
Defined.


Lemma version_undefined_is_written_witness :
  let w := Node.project "{}" "v@@version" in
  (createBanner (Node.tools [] []) w).1
  = Ok (replace (replace "v@@version" "@@date" (today w)) "@@version" "undefined").
Proof.
  intros w.
  refine (proj2 (proj2 (version_undefined_is_written (Node.tools [] []) w
            "{}" "v@@version" [] _ _ _ _ _))).
  - by vm_compute.
  - by vm_compute.
  - constructor.
  - by vm_compute.
  - vm_compute. set_solver.
Defined.

(** ** Further properties: the bundle task *)

Section BundleEdges.

Variable T : Tools.

(** The bundle task, once the bundler has answered. *)
Lemma run_bundle w err stats w1 :
  (banner ← createBanner T;
   updateVersionFile T;;
   external (webpack_run T banner)) (emit (EvStart TBundle) (set_signalled None w))
  = (Ok (err, stats), w1) →
  bundle T done_cb (emit (EvStart TBundle) (set_signalled None w))
  = bundle_onRun T done_cb err stats w1
  ∧ run_task TBundle (task_fn T TBundle) w
    = (Ok (settle (signalled (bundle_onRun T done_cb err stats w1).2)
             (bundle_onRun T done_cb err stats w1).1),
       match settle (signalled (bundle_onRun T done_cb err stats w1).2)
               (bundle_onRun T done_cb err stats w1).1 with
       | Some o => emit (EvEnd TBundle o) (bundle_onRun T done_cb err stats w1).2
       | None => (bundle_onRun T done_cb err stats w1).2
       end).
Proof.
  intros H.
  assert (bundle T done_cb (emit (EvStart TBundle) (set_signalled None w))
          = bundle_onRun T done_cb err stats w1) as Hb
    by by rewrite bundle_split, H.
  split; [done|].
  change (task_fn T TBundle) with (WithCallback (bundle T)).
  erewrite run_task_invoke; [done|]. simpl. rewrite Hb. apply surjective_pairing.
Qed.

Lemma bundle_onRun_quiet err stats :
  preserves quietly (bundle_onRun T done_cb err stats).
Proof. unfold bundle_onRun. repeat first [preserves_step | quiet_prim]. Qed.

(** What the steps before the bundler leave, when they all succeed. *)
Lemma bundle_prelude_inv w res w1 :
  (banner ← createBanner T;
   updateVersionFile T;;
   external (webpack_run T banner)) w = (Ok res, w1) →
  ∃ banner v,
    (createBanner T w).1 = Ok banner ∧ (getVersion T w).1 = Ok v
    ∧ (resolve (cwd w) VERSION ∉ unwritable (fs w))
    ∧ res = (webpack_run T banner (cwd w)
               (set_file (resolve (cwd w) VERSION)
                  (versionFileText (toString v)) (fs w))).1
    ∧ signalled w1 = signalled w
    ∧ trace w1
      = (trace w ++ [EvWrite (resolve (cwd w) VERSION)
                       (versionFileText (toString v))])%list.
Proof.
  destruct (createBanner T w) as [[banner|e] wa] eqn:Eb.
  2: { by rewrite (bind_throw _ _ _ _ _ Eb). }
  pose proof (createBanner_world T w) as Hw. rewrite Eb in Hw. simpl in Hw. subst wa.
  rewrite (bind_ok _ _ _ _ _ Eb).
  pose proof (getVersion_world T w) as Hw.
  destruct (getVersion T w) as [[v|e] wa] eqn:Ev; simpl in Hw; subst wa.
  2: { unfold updateVersionFile.
       by rewrite (bind_throw _ _ _ _ _ (bind_throw _ _ _ _ _ Ev)). }
  destruct (decide (resolve (cwd w) VERSION ∈ unwritable (fs w))) as [Hu|Hu].
  { rewrite (bind_throw _ _ _ _ _ (updateVersionFile_refused T w v
               ltac:(by rewrite Ev) Hu)). done. }
  rewrite (bind_ok _ _ _ _ _ (updateVersionFile_run T w v ltac:(by rewrite Ev) Hu)).
  unfold external. simpl. destruct (webpack_run T banner _ _) as [res' f'] eqn:Ew.
  intros [= <- <-]. exists banner, v. by rewrite Ew.
Qed.

(** X6: whenever the bundler gets to run, the version file has been written
    before it: the write of ./src/version.js is the first thing the task
    leaves in the trace, the bundler is called with the banner
    [createBanner] made and on a file system that holds the new version
    file; this is so whatever the bundler then reports. *)
Theorem bundle_writes_version_first (w : World)
    (res : option Error * option Stats) :
  bundler_result T w = Some res →
  ∃ banner v rest,
    (createBanner T w).1 = Ok banner ∧ (getVersion T w).1 = Ok v
    ∧ res = (webpack_run T banner (cwd w)
               (set_file (resolve (cwd w) VERSION)
                  (versionFileText (toString v)) (fs w))).1
    ∧ emitted (run_task TBundle (task_fn T TBundle)) w
      = EvStart TBundle
        :: EvWrite (resolve (cwd w) VERSION) (versionFileText (toString v))
        :: rest.
Proof.
  unfold bundler_result. intros Hb.
  destruct ((createBanner T ≫= _) _) as [[[err stats]|e] w1] eqn:Ep; [|done].
  injection Hb as <-.
  destruct (bundle_prelude_inv _ _ _ Ep) as (banner & v & Hc & Hv & _ & Hr & _ & Ht).
  rewrite createBanner_start in Hc. rewrite getVersion_start in Hv.
  simpl in Hr, Ht.
  destruct (run_bundle _ _ _ _ Ep) as [_ Hrun].
  pose proof (bundle_onRun_quiet err stats w1) as (evs & Hq & _).
  exists banner, v.
  exists (evs ++ match settle (signalled (bundle_onRun T done_cb err stats w1).2)
                         (bundle_onRun T done_cb err stats w1).1 with
                 | Some o => [EvEnd TBundle o]
                 | None => []
                 end)%list.
  split_and!; [done..|].
  apply emitted_app. rewrite Hrun. simpl.
  destruct (settle _ _); simpl; rewrite Hq, Ht, <- !(assoc_L (++)); simpl;
    by rewrite ?(right_id_L [] (++)).
Qed.

(** X7: when the bundler reports a fatal error, the task logs it and
    calls the callback with it, so the task ends with that error; the
    function then goes on to read the result.  With no result to read it
    throws a [TypeError] there, after the callback, and nothing more is
    logged. *)
Theorem bundle_fatal_error (w : World) (e : Error) (stats : option Stats) :
  bundler_result T w = Some (Some e, stats) →
  let r := run_task TBundle (task_fn T TBundle) w in
  r.1 = Ok (Some (Failure e))
  ∧ (stats = None →
     (bundle T done_cb (emit (EvStart TBundle) (set_signalled None w))).1
     = Throw (TypeError "Cannot read property 'toJson' of undefined")
     ∧ ∃ before,
         trace r.2
         = (before ++ [EvLog (error_message e); EvDone (Some e);
                       EvEnd TBundle (Failure e)])%list).
Proof.
  unfold bundler_result. intros Hb.
  destruct ((createBanner T ≫= _) _) as [[[err st]|e'] w1] eqn:Ep; [|done].
  injection Hb as -> ->.
  destruct (bundle_prelude_inv _ _ _ Ep) as (_ & _ & _ & _ & _ & _ & Hs & _).
  simpl in Hs.
  destruct (run_bundle _ _ _ _ Ep) as [Hbun Hrun]. rewrite Hrun, Hbun. clear Hrun Hbun.
  unfold bundle_onRun, mbind, M_bind, mret, M_ret, log, modify, done_cb, throw.
  simpl. rewrite Hs. split.
  - destruct stats as [st|]; [|done].
    destruct (hasWarnings st), (hasErrors st); done.
  - intros ->. simpl. split; [done|]. exists (trace w1).
    by rewrite <- !(assoc_L (++)).
Qed.

(** X8: on a result with errors the callback is called twice: with
    [Error('Compile failed')] after the errors are logged, and once more
    without an error after the line [bundled ...] is logged, which the
    function does not skip.  The task ends with the error of the first
    call. *)
Theorem bundle_errors_call_done_twice (w : World) (st : Stats) :
  bundler_result T w = Some (None, Some st) → hasErrors st = true →
  let r := run_task TBundle (task_fn T TBundle) w in
  r.1 = Ok (Some (Failure (MkError "Compile failed")))
  ∧ ∃ before,
      trace r.2
      = (before ++ [EvLog ("Webpack errors:" +:+ nl +:+ join nl (errors st));
                    EvDone (Some (MkError "Compile failed"));
                    EvLog ("bundled " +:+ dirname T +:+ "/dist" +:+ "/" +:+ "math.js");
                    EvDone None;
                    EvEnd TBundle (Failure (MkError "Compile failed"))])%list.
Proof.
  unfold bundler_result. intros Hb He.
  destruct ((createBanner T ≫= _) _) as [[[err st']|e'] w1] eqn:Ep; [|done].
  injection Hb as -> ->.
  destruct (bundle_prelude_inv _ _ _ Ep) as (_ & _ & _ & _ & _ & _ & Hs & _).
  simpl in Hs.
  destruct (run_bundle _ _ _ _ Ep) as [_ Hrun]. rewrite Hrun. clear Hrun.
  destruct (bundle_onRun_trace T w1 st Hs) as (Hr & Ht & Hd).
  rewrite He in Ht, Hd. simpl. rewrite Hr, Hd. simpl. split; [done|].
  rewrite Ht.
  exists (trace w1 ++ (if hasWarnings st
                       then [EvLog ("Webpack warnings:" +:+ nl
                                    +:+ join nl (warnings st))]
                       else []))%list.
  unfold MATH_JS, DIST, FILE. rewrite !str_app_assoc.
  by rewrite <- !(assoc_L (++)).
Qed.

(** X9: when the banner cannot be made, or the version file refuses the
    write, the bundle task ends with that error without calling the
    bundler; in the first case it writes and logs nothing. *)
Theorem bundle_fails_before_bundler (w : World) :
  let r := run_task TBundle (task_fn T TBundle) w in
  (∀ e, (createBanner T w).1 = Throw e →
     bundler_result T w = None
     ∧ r.1 = Ok (Some (Failure e))
     ∧ fs r.2 = fs w
     ∧ trace r.2
       = (trace w ++ [EvStart TBundle; EvEnd TBundle (Failure e)])%list)
  ∧ (∀ banner, (createBanner T w).1 = Ok banner →
     resolve (cwd w) VERSION ∈ unwritable (fs w) →
     bundler_result T w = None
     ∧ r.1 = Ok (Some (Failure (FsError "open" (resolve (cwd w) VERSION))))
     ∧ fs r.2 = fs w).
Proof.
  intros r. subst r. split.
  - intros e He. rewrite <- (createBanner_start T w TBundle) in He.
    apply createBanner_throws in He.
    unfold bundler_result. rewrite (bind_throw _ _ _ _ _ He).
    change (task_fn T TBundle) with (WithCallback (bundle T)).
    erewrite run_task_invoke;
      [|simpl; unfold bundle; by rewrite (bind_throw _ _ _ _ _ He)].
    simpl. by rewrite <- (assoc_L (++)).
  - intros banner Hb Hu. rewrite <- (createBanner_start T w TBundle) in Hb.
    apply createBanner_returns in Hb.
    assert (∃ v, (getVersion T (emit (EvStart TBundle) (set_signalled None w))).1
                 = Ok v) as [v Hv].
    { rewrite createBanner_run in Hb.
      destruct (getVersion T _).1 as [v|e]; [by eexists|done]. }
    pose proof (updateVersionFile_refused T _ v Hv Hu) as Hup.
    unfold bundler_result. rewrite (bind_ok _ _ _ _ _ Hb).
    rewrite (bind_throw _ _ _ _ _ Hup).
    change (task_fn T TBundle) with (WithCallback (bundle T)).
    erewrite run_task_invoke;
      [|simpl; unfold bundle; rewrite (bind_ok _ _ _ _ _ Hb);
        by rewrite (bind_throw _ _ _ _ _ Hup)].
    done.
Qed.

End BundleEdges.

Lemma bundle_writes_version_first_witness :
  let w := Node.project (Node.manifest "9.9.9") "/* @@version @@date */" in
  ∃ rest,
    emitted (run_task TBundle (task_fn (Node.tools [] ["e"]) TBundle)) w
    = EvStart TBundle
      :: EvWrite "/proj/src/version.js" (versionFileText "9.9.9") :: rest.
Proof.
  intros w.
  destruct (bundle_writes_version_first (Node.tools [] ["e"]) w
              (None, Some {| hasWarnings := false; hasErrors := true;
                             warnings := []; errors := ["e"] |}))
    as (banner & v & rest & _ & Hv & _ & He).
  - by vm_compute.
  - exists rest. rewrite He. by injection Hv as <-.
Defined.

Lemma bundle_fatal_error_witness :
  let T := Examples.tools_with (Some (ToolError "out of memory"), None)
             (uglify_minify (Node.tools [] [])) (None, "", "") in
  let w := Node.project (Node.manifest "9.9.9") "/* @@version @@date */" in
  (run_task TBundle (task_fn T TBundle) w).1
  = Ok (Some (Failure (ToolError "out of memory")))
  ∧ (bundle T done_cb (emit (EvStart TBundle) (set_signalled None w))).1
    = Throw (TypeError "Cannot read property 'toJson' of undefined").
Proof.
  intros T w.
  destruct (bundle_fatal_error T w (ToolError "out of memory") None) as [H1 H2].
  - by vm_compute.
  - destruct (H2 eq_refl) as [H3 _]. by split.
Defined.

Lemma bundle_errors_call_done_twice_witness :
  let w := Node.project (Node.manifest "9.9.9") "/* @@version @@date */" in
  (run_task TBundle (task_fn (Node.tools [] ["e"]) TBundle) w).1
  = Ok (Some (Failure (MkError "Compile failed"))).
Proof.
  intros w.
  refine (proj1 (bundle_errors_call_done_twice (Node.tools [] ["e"]) w
            {| hasWarnings := false; hasErrors := true;
               warnings := []; errors := ["e"] |} _ _)).
  - by vm_compute.
  - reflexivity.
Defined.

Lemma bundle_fails_before_bundler_witness :
  let w := Examples.no_header (Node.manifest "9.9.9") in
  bundler_result (Node.tools [] []) w = None
  ∧ (run_task TBundle (task_fn (Node.tools [] []) TBundle) w).1
    = Ok (Some (Failure (FsError "open" "/proj/src/header.js"))).
Proof.
  intros w.
  destruct (proj1 (bundle_fails_before_bundler (Node.tools [] []) w)
              (FsError "open" "/proj/src/header.js")) as (H1 & H2 & _).
  - by vm_compute.
  - by split.
Defined.

(** ** Further properties: the banner file and the entry patch *)

Section FileTasks.

Variable T : Tools.

(** X10: [writeBanner] ends with the error of [createBanner] or of the
    refused write, leaving the file system as it was; otherwise it
    replaces ./lib/header.js by the banner, touches no other file, calls
    the callback once and ends with success. *)
Theorem writeBanner_outcomes (w : World) :
  let path := resolve (cwd w) "./lib/header.js" in
  let r := run_task TWriteBanner (task_fn T TWriteBanner) w in
  (∀ e, (createBanner T w).1 = Throw e →
     r.1 = Ok (Some (Failure e)) ∧ fs r.2 = fs w
     ∧ trace r.2
       = (trace w ++ [EvStart TWriteBanner; EvEnd TWriteBanner (Failure e)])%list)
  ∧ (∀ banner, (createBanner T w).1 = Ok banner → path ∈ unwritable (fs w) →
     r.1 = Ok (Some (Failure (FsError "open" path))) ∧ fs r.2 = fs w)
  ∧ (∀ banner, (createBanner T w).1 = Ok banner → path ∉ unwritable (fs w) →
     r.1 = Ok (Some Success)
     ∧ files (fs r.2) = <[path := banner]> (files (fs w))
     ∧ trace r.2
       = (trace w ++ [EvStart TWriteBanner; EvWrite path banner; EvDone None;
                      EvEnd TWriteBanner Success])%list).
Proof.
  intros path r. subst r.
  change (task_fn T TWriteBanner) with (WithCallback (writeBanner T)).
  split_and!.
  - intros e He. rewrite <- (createBanner_start T w TWriteBanner) in He.
    apply createBanner_throws in He.
    erewrite run_task_invoke;
      [|simpl; unfold writeBanner; by rewrite (bind_throw _ _ _ _ _ He)].
    simpl. by rewrite <- (assoc_L (++)).
  - intros banner Hb Hu. rewrite <- (createBanner_start T w TWriteBanner) in Hb.
    apply createBanner_returns in Hb.
    erewrite run_task_invoke;
      [|simpl; unfold writeBanner; rewrite (bind_ok _ _ _ _ _ Hb);
        by rewrite (bind_throw _ _ _ _ _ (writeFileSync_refused COMPILED_HEADER banner
                                     (emit (EvStart TWriteBanner) (set_signalled None w)) Hu))].
    done.
  - intros banner Hb Hu. rewrite <- (createBanner_start T w TWriteBanner) in Hb.
    apply createBanner_returns in Hb.
    erewrite run_task_invoke;
      [|simpl; unfold writeBanner; rewrite (bind_ok _ _ _ _ _ Hb);
        by rewrite (bind_ok _ _ _ _ _ (writeFileSync_ok COMPILED_HEADER banner
                                  (emit (EvStart TWriteBanner) (set_signalled None w)) Hu))].
    simpl. by rewrite <- !(assoc_L (++)).
Qed.

(** X11: when the compiled entry file ./lib/entry/mainAny.js is not there,
    [addDeprecatedFunctions] ends with the error of the failed read: it
    does not create the file, logs nothing and does not call the
    callback. *)
Theorem addDeprecatedFunctions_missing_entry (w : World) :
  let path := resolve (cwd w) "./lib/entry/mainAny.js" in
  let r := run_task TAddDeprecatedFunctions (task_fn T TAddDeprecatedFunctions) w in
  files (fs w) !! path = None →
  r.1 = Ok (Some (Failure (FsError "open" path)))
  ∧ fs r.2 = fs w
  ∧ trace r.2
    = (trace w ++ [EvStart TAddDeprecatedFunctions;
                   EvEnd TAddDeprecatedFunctions (Failure (FsError "open" path))])%list.
Proof.
  intros path r Hf. subst r.
  change (task_fn T TAddDeprecatedFunctions)
    with (WithCallback addDeprecatedFunctions).
  erewrite run_task_invoke;
    [|simpl; unfold addDeprecatedFunctions;
      by rewrite (bind_throw _ _ _ _ _ (readFileSync_missing COMPILED_MAIN_ANY
                                     (emit (EvStart TAddDeprecatedFunctions)
                                        (set_signalled None w)) Hf))].
  simpl. by rewrite <- (assoc_L (++)).
Qed.

End FileTasks.

Lemma str_length_repeated n s :
  String.length (repeated n s) = (n * String.length s)%nat.
Proof.
  induction n as [|n IH]; [done|]. simpl. rewrite str_length_app, IH. lia.
Qed.

(** X12: run [n] times in a row on an entry file that takes the writes,
    [addDeprecatedFunctions] leaves the file with [n] copies of the alias
    statements after its first content, 176 characters longer with every
    run, and every other file and the working directory as they were. *)
Theorem addDeprecatedFunctions_n_times (n : nat) (w : World) (code : string) :
  let path := resolve (cwd w) "./lib/entry/mainAny.js" in
  files (fs w) !! path = Some code → path ∉ unwritable (fs w) →
  let r := times n (addDeprecatedFunctions done_cb) w in
  r.1 = Ok tt
  ∧ files (fs r.2) !! path = Some (code +:+ repeated n deprecatedFunctionsText)
  ∧ String.length (code +:+ repeated n deprecatedFunctionsText)
    = (String.length code + n * 176)%nat
  ∧ (∀ q, q ≠ path → files (fs r.2) !! q = files (fs w) !! q)
  ∧ cwd r.2 = cwd w.
Proof.
  intros path Hf Hu r. subst r.
  assert (String.length (code +:+ repeated n deprecatedFunctionsText)
          = (String.length code + n * 176)%nat) as Hlen.
  { rewrite str_length_app, str_length_repeated. done. }
  split_and!; [..|exact Hlen|idtac|idtac]; clear Hlen;
    revert w code path Hf Hu; induction n as [|n IH]; intros w code path Hf Hu;
    try (simpl; by rewrite ?str_app_nil_r).
  all: destruct (addDeprecatedFunctions_run w code Hf Hu) as (w1 & E1 & F1 & C1 & U1);
    fold path in F1;
    simpl times; rewrite (bind_ok _ _ _ _ _ E1);
    specialize (IH w1 (code +:+ deprecatedFunctionsText));
    rewrite C1, F1, U1 in IH; fold path in IH;
    specialize (IH (lookup_insert_eq _ _ _) Hu).
  - done.
  - rewrite IH. simpl. by rewrite str_app_assoc.
  - intros q Hq. rewrite IH by done. by apply lookup_insert_ne.
  - by rewrite IH.
Qed.

Lemma writeBanner_outcomes_witness :
  let w := Node.project (Node.manifest "9.9.9") "/* @@version */" in
  files (fs (run_task TWriteBanner (task_fn (Node.tools [] []) TWriteBanner) w).2)
  = <[ "/proj/lib/header.js" := "/* 9.9.9 */" ]> (files (fs w)).
Proof.
  intros w.
  refine (proj1 (proj2 (proj2 (proj2 (writeBanner_outcomes (Node.tools [] []) w))
            "/* 9.9.9 */" _ _))).
  - by vm_compute.
  - vm_compute. set_solver.
Defined.

Lemma addDeprecatedFunctions_missing_entry_witness :
  let w := Node.project (Node.manifest "9.9.9") "" in
  fs (run_task TAddDeprecatedFunctions
        (task_fn (Node.tools [] []) TAddDeprecatedFunctions) w).2 = fs w.
Proof.
  intros w.
  refine (proj1 (proj2 (addDeprecatedFunctions_missing_entry (Node.tools [] []) w _))).
  by vm_compute.
Defined.

Lemma addDeprecatedFunctions_n_times_witness :
  let w := Node.with_file "/proj/lib/entry/mainAny.js" "exports.add = add;"
             (Node.project "{}" "") in
  files (fs (times 3 (addDeprecatedFunctions done_cb) w).2)
    !! "/proj/lib/entry/mainAny.js"
  = Some ("exports.add = add;" +:+ repeated 3 deprecatedFunctionsText).
Proof.
  intros w.
  refine (proj1 (proj2 (addDeprecatedFunctions_n_times 3 w "exports.add = add;" _ _))).
  - by vm_compute.
  - vm_compute. set_solver.
Defined.

(** ** Further properties: the minifier and the validation *)

Section MinifyEdges.

Variable T : Tools.

Lemma set_cwd_back w d : set_cwd (cwd w) (set_cwd d w) = w.
Proof. by destruct w. Qed.

(** The task around its [try] block, from a working directory that exists. *)
Lemma minify_run w :
  startsWith "/" (cwd w) = true → cwd w ∈ dirs (fs w) →
  resolve (cwd w) (DIST T) ∈ dirs (fs w) →
  minify T done_cb w
  = match try_catch
            (code ← readFileSync FILE;
             let result := uglify_minify T code in
             match u_error result with
             | Some e => throw e
             | None => mret tt
             end;;
             writeFileSync FILE_MIN (u_code result);;
             writeFileSync FILE_MAP (u_map result);;
             log ("Minified " +:+ FILE_MIN);;
             log ("Mapped " +:+ FILE_MAP))
            (λ e, throw e)
            (set_cwd (resolve (cwd w) (DIST T)) w) with
    | (Ok _, wb) => done_cb None (set_cwd (cwd w) wb)
    | (Throw e, wb) => (Throw e, set_cwd (cwd w) wb)
    end.
Proof.
  intros Habs Hin Hdist. unfold minify, mbind at 1, M_bind at 1, process_cwd.
  rewrite decide_True by done.
  unfold mbind at 1, M_bind at 1, process_chdir at 1.
  rewrite decide_True by done.
  set (w1 := set_cwd _ w). unfold mbind at 1, M_bind at 1, try_finally.
  pose proof (minify_body_same_dirs T w1) as Hd. unfold same_dirs in Hd.
  destruct (try_catch _ _ w1) as [r1 wb]. simpl in Hd.
  unfold process_chdir. rewrite (resolve_absolute _ _ Habs), Hd.
  rewrite decide_True by done. by destruct r1 as [[]|e].
Qed.

(** X13: from an absolute working directory, [minify] reads math.js in the
    dist directory and, when the minifier reports no error and the writes
    go through, writes the minified code to math.min.js and the source
    map to math.min.map in that directory, both by their full path
    whatever the working directory is; it touches no other file, logs the
    two lines, calls the callback once and is back in the directory it
    started in. *)
Theorem minify_writes_into_dist (w : World) (code : string) :
  let dist := resolve (cwd w) (dirname T +:+ "/dist") in
  let result := uglify_minify T code in
  startsWith "/" (cwd w) = true → cwd w ∈ dirs (fs w) → dist ∈ dirs (fs w) →
  files (fs w) !! (dist +:+ "/math.js") = Some code →
  u_error result = None →
  dist +:+ "/math.min.js" ∉ unwritable (fs w) →
  dist +:+ "/math.min.map" ∉ unwritable (fs w) →
  let r := minify T done_cb w in
  r.1 = Ok tt
  ∧ files (fs r.2)
    = <[dist +:+ "/math.min.map" := u_map result]>
        (<[dist +:+ "/math.min.js" := u_code result]> (files (fs w)))
  ∧ cwd r.2 = cwd w
  ∧ trace r.2
    = (trace w ++ [EvWrite (dist +:+ "/math.min.js") (u_code result);
                   EvWrite (dist +:+ "/math.min.map") (u_map result);
                   EvLog "Minified math.min.js"; EvLog "Mapped math.min.map";
                   EvDone None])%list.
Proof.
  intros dist result Habs Hin Hdist Hf He Hmin Hmap r. subst r.
  rewrite minify_run by done. fold dist. unfold try_catch.
  rewrite (bind_ok _ _ _ _ _ (readFileSync_found FILE (set_cwd dist w) code Hf)).
  cbv zeta. fold result. rewrite He.
  erewrite bind_ok; [|reflexivity].
  rewrite (bind_ok _ _ _ _ _
             (writeFileSync_ok FILE_MIN (u_code result) (set_cwd dist w) Hmin)).
  erewrite bind_ok; [|by apply (writeFileSync_ok FILE_MAP (u_map result))].
  unfold log, modify, mbind, M_bind, done_cb. simpl.
  destruct (signalled w); simpl; split_and!; try done;
    by rewrite <- !(assoc_L (++)).
Qed.

(** X14: [minify] fails without a write, a log line or a call of the
    callback, and in the directory it started in, in each of these cases:
    the working directory is gone; the dist directory is not there;
    math.js is not in it; the minifier reports an error, which is then the
    error of the task. *)
Theorem minify_fails_clean (w : World) :
  let dist := resolve (cwd w) (dirname T +:+ "/dist") in
  (cwd w ∉ dirs (fs w) →
   minify T done_cb w = (Throw (FsError "uv_cwd" (cwd w)), w))
  ∧ (cwd w ∈ dirs (fs w) → dist ∉ dirs (fs w) →
     minify T done_cb w = (Throw (FsError "chdir" dist), w))
  ∧ (startsWith "/" (cwd w) = true → cwd w ∈ dirs (fs w) → dist ∈ dirs (fs w) →
     files (fs w) !! (dist +:+ "/math.js") = None →
     minify T done_cb w = (Throw (FsError "open" (dist +:+ "/math.js")), w))
  ∧ (∀ code e,
     startsWith "/" (cwd w) = true → cwd w ∈ dirs (fs w) → dist ∈ dirs (fs w) →
     files (fs w) !! (dist +:+ "/math.js") = Some code →
     u_error (uglify_minify T code) = Some e →
     minify T done_cb w = (Throw e, w)).
Proof.
  intros dist. split_and!.
  - intros Hin. unfold minify, mbind at 1, M_bind at 1, process_cwd.
    by rewrite decide_False.
  - intros Hin Hdist. unfold minify, mbind at 1, M_bind at 1, process_cwd.
    rewrite decide_True by done.
    unfold mbind at 1, M_bind at 1, process_chdir at 1.
    by rewrite decide_False.
  - intros Habs Hin Hdist Hf. rewrite minify_run by done. fold dist.
    unfold try_catch.
    rewrite (bind_throw _ _ _ _ _ (readFileSync_missing FILE (set_cwd dist w) Hf)).
    unfold throw. by rewrite set_cwd_back.
  - intros code e Habs Hin Hdist Hf He. rewrite minify_run by done. fold dist.
    unfold try_catch.
    rewrite (bind_ok _ _ _ _ _ (readFileSync_found FILE (set_cwd dist w) code Hf)).
    cbv zeta. rewrite He.
    erewrite bind_throw; [|reflexivity].
    unfold throw. by rewrite set_cwd_back.
Qed.

(** X15: [minify] writes its two files one after the other and undoes
    nothing: when math.min.map refuses the write, the task fails with
    that error and the new math.min.js stays in place. *)
Theorem minify_partial_output (w : World) (code : string) :
  let dist := resolve (cwd w) (dirname T +:+ "/dist") in
  let result := uglify_minify T code in
  startsWith "/" (cwd w) = true → cwd w ∈ dirs (fs w) → dist ∈ dirs (fs w) →
  files (fs w) !! (dist +:+ "/math.js") = Some code →
  u_error result = None →
  dist +:+ "/math.min.js" ∉ unwritable (fs w) →
  dist +:+ "/math.min.map" ∈ unwritable (fs w) →
  let r := minify T done_cb w in
  r.1 = Throw (FsError "open" (dist +:+ "/math.min.map"))
  ∧ files (fs r.2) = <[dist +:+ "/math.min.js" := u_code result]> (files (fs w))
  ∧ cwd r.2 = cwd w.
Proof.
  intros dist result Habs Hin Hdist Hf He Hmin Hmap r. subst r.
  rewrite minify_run by done. fold dist. unfold try_catch.
  rewrite (bind_ok _ _ _ _ _ (readFileSync_found FILE (set_cwd dist w) code Hf)).
  cbv zeta. fold result. rewrite He.
  erewrite bind_ok; [|reflexivity].
  rewrite (bind_ok _ _ _ _ _
             (writeFileSync_ok FILE_MIN (u_code result) (set_cwd dist w) Hmin)).
  erewrite bind_throw; [|by apply (writeFileSync_refused FILE_MAP (u_map result))].
  done.
Qed.

(** X16: [validate] forwards the output of the child process as it is, the
    standard output before the standard error, and ends with success;
    when the child process fails, the task ends with its error and
    neither output is forwarded. *)
Theorem validate_forwards_output (w : World) :
  let r := run_task TValidate (task_fn T TValidate) w in
  match (execFile_validate T (cwd w) (fs w)).1 with
  | (Some e, _, _) =>
      r.1 = Ok (Some (Failure e))
      ∧ trace r.2
        = (trace w ++ [EvStart TValidate; EvEnd TValidate (Failure e)])%list
  | (None, stdout, stderr) =>
      r.1 = Ok (Some Success)
      ∧ trace r.2
        = (trace w ++ [EvStart TValidate; EvStdout stdout; EvStderr stderr;
                       EvDone None; EvEnd TValidate Success])%list
  end.
Proof.
  unfold run_task. simpl. unfold validate, external, mbind, M_bind. simpl.
  destruct (execFile_validate T (cwd w) (fs w)) as [[[[e|] out] err] f']; simpl;
    by rewrite <- !(assoc_L (++)).
Qed.

End MinifyEdges.

Lemma minify_writes_into_dist_witness :
  let w := Node.with_file "/proj/dist/math.js" "var math = {};"
             (Node.project "{}" "") in
  files (fs (minify (Node.tools [] []) done_cb w).2)
  = <[ "/proj/dist/math.min.map" := "{}" ]>
      (<[ "/proj/dist/math.min.js" := "var math = {};" ]> (files (fs w))).
Proof.
  intros w.
  refine (proj1 (proj2 (minify_writes_into_dist (Node.tools [] []) w
            "var math = {};" _ _ _ _ _ _ _))).
  - reflexivity.
  - vm_compute. set_solver.
  - vm_compute. set_solver.
  - by vm_compute.
  - reflexivity.
  - vm_compute. set_solver.
  - vm_compute. set_solver.
Defined.

Lemma minify_fails_clean_witness :
  let T := Examples.tools_with (None, None)
             (λ code, {| u_error := Some (ToolError "Unexpected token");
                         u_code := ""; u_map := "" |}) (None, "", "") in
  let w := Node.with_file "/proj/dist/math.js" "var math = {;"
             (Node.project "{}" "") in
  minify T done_cb w = (Throw (ToolError "Unexpected token"), w).
Proof.
  intros T w.
  refine (proj2 (proj2 (proj2 (minify_fails_clean T w))) "var math = {;"
            (ToolError "Unexpected token") _ _ _ _ _).
  - reflexivity.
  - vm_compute. set_solver.
  - vm_compute. set_solver.
  - by vm_compute.
  - reflexivity.
Defined.

Lemma minify_partial_output_witness :
  let w := Examples.read_only "/proj/dist/math.min.map"
             (Node.with_file "/proj/dist/math.js" "var math = {};"
                (Node.project "{}" "")) in
  files (fs (minify (Node.tools [] []) done_cb w).2)
  = <[ "/proj/dist/math.min.js" := "var math = {};" ]> (files (fs w)).
Proof.
  intros w.
  refine (proj1 (proj2 (minify_partial_output (Node.tools [] []) w
            "var math = {};" _ _ _ _ _ _ _))).
  - reflexivity.
  - vm_compute. set_solver.
  - vm_compute. set_solver.
  - by vm_compute.
  - reflexivity.
  - vm_compute. set_solver.
  - vm_compute. set_solver.
Defined.

(** ** Further properties: the ascii check *)

Section AsciiCheck.

Variable A : AsciiTools.

Lemma array_map_external {X Y}
    (g : X → string → FileSystem → Result Y * FileSystem) xs w :
  trace (array_map (λ x, external_r (g x)) xs w).2 = trace w
  ∧ signalled (array_map (λ x, external_r (g x)) xs w).2 = signalled w.
Proof.
  revert w. induction xs as [|x xs IH]; intros w; [done|].
  simpl array_map. unfold mbind at 1 3, M_bind at 1 3, external_r at 1 3.
  destruct (g x (cwd w) (fs w)) as [[y|e] f']; [|done].
  unfold mbind, M_bind.
  specialize (IH (set_fs f' w)).
  by destruct (array_map _ xs (set_fs f' w)) as [[ys|e] w2].
Qed.

Lemma scanSources_trace w :
  trace (scanSources A w).2 = trace w
  ∧ signalled (scanSources A w).2 = signalled w.
Proof.
  unfold scanSources, mbind, M_bind, external_r at 1 3.
  destruct (getAllFiles A _ _ _) as [[files|e] f']; [|done].
  exact (array_map_external (validateChars A) files (set_fs f' w)).
Qed.

Lemma report_findings_run (findings : list InvalidChar) w :
  ∃ w', array_forEach (λ res, console_log A (invalidCharArgs A res)) findings w
        = (Ok tt, w')
        ∧ signalled w' = signalled w
        ∧ trace w'
          = (trace w
             ++ List.map (λ res, EvStdout (console_format A (invalidCharArgs A res)
                                           +:+ nl)) findings)%list.
Proof.
  revert w. induction findings as [|res findings IH]; intros w.
  - exists w. simpl. by rewrite (right_id_L [] (++)).
  - simpl array_forEach. unfold mbind, M_bind, console_log at 1, modify.
    destruct (IH (emit (EvStdout (console_format A (invalidCharArgs A res) +:+ nl)) w))
      as (w' & E & Hs & Ht).
    exists w'. split_and!; [done..|]. rewrite Ht. simpl.
    by rewrite <- (assoc_L (++)).
Qed.

Lemma report_results_run (results : list (list InvalidChar)) w :
  ∃ w', array_forEach
          (λ invalidChars,
             array_forEach (λ res, console_log A (invalidCharArgs A res))
               invalidChars) results w
        = (Ok tt, w')
        ∧ signalled w' = signalled w
        ∧ trace w'
          = (trace w
             ++ List.map (λ res, EvStdout (console_format A (invalidCharArgs A res)
                                           +:+ nl)) (concat results))%list.
Proof.
  revert w. induction results as [|findings results IH]; intros w.
  - exists w. simpl. by rewrite (right_id_L [] (++)).
  - simpl array_forEach.
    destruct (report_findings_run findings w) as (w1 & E1 & Hs1 & Ht1).
    rewrite (bind_ok _ _ _ _ _ E1).
    destruct (IH w1) as (w' & E & Hs & Ht).
    exists w'. split_and!; [done|congruence|].
    rewrite Ht, Ht1. simpl. by rewrite List.map_app, <- (assoc_L (++)).
Qed.

(** X17: called as gulp calls a task, [validateAscii] prints one line for
    every character the checker finds, file by file in the order of the
    checker, after all files are checked, and then calls the callback
    without an error: findings never make the task fail.  It fails only
    when the checker throws, and then prints nothing. *)
Theorem validateAscii_reports_and_succeeds (w : World) :
  let w0 := set_signalled None w in
  let r := validateAscii A done_cb w0 in
  match scanSources A w0 with
  | (Ok results, _) =>
      r.1 = Ok tt
      ∧ settle (signalled r.2) r.1 = Some Success
      ∧ trace r.2
        = (trace w
           ++ List.map (λ res, EvStdout (console_format A (invalidCharArgs A res)
                                         +:+ nl)) (concat results)
           ++ [EvDone None])%list
  | (Throw e, w1) =>
      r = (Throw e, w1) ∧ settle (signalled r.2) r.1 = Some (Failure e)
      ∧ trace r.2 = trace w
  end.
Proof.
  intros w0 r. subst r. unfold validateAscii.
  destruct (scanSources_trace w0) as [Ht Hs].
  destruct (scanSources A w0) as [[results|e] w1] eqn:Es; simpl in Ht, Hs.
  - rewrite (bind_ok _ _ _ _ _ Es).
    destruct (report_results_run results w1) as (w2 & E2 & Hs2 & Ht2).
    rewrite (bind_ok _ _ _ _ _ E2). unfold done_cb. simpl.
    rewrite Hs2, Hs. simpl. split_and!; [done..|].
    by rewrite Ht2, Ht, <- (assoc_L (++)).
  - rewrite (bind_throw _ _ _ _ _ Es). simpl. rewrite Hs. done.
Qed.

End AsciiCheck.

Lemma validateAscii_reports_and_succeeds_witness :
  let A := Examples.ascii_tools in
  let w := Node.project "{}" "" in
  let finding := {| res_insideComment := true; res_filename := "./src/a.js";
                    res_ln := 3; res_col := 7; res_c := 233 |} in
  (validateAscii A done_cb (set_signalled None w)).1 = Ok tt
  ∧ trace (validateAscii A done_cb (set_signalled None w)).2
    = [EvStdout (console_format A (invalidCharArgs A finding) +:+ nl);
       EvDone None].
Proof.
  intros A w finding.
  pose proof (validateAscii_reports_and_succeeds A w) as H.
  destruct H as (H1 & _ & H2). by split.
Defined.

(** ** Further properties: the watcher *)

Section Debounce.

Variable T : Tools.

Lemma watch_steps_unsubscribed evs w :
  watcher w = None → watch_steps T evs w = (Ok tt, w).
Proof.
  intros Hw. induction evs as [|ev evs IH]; [done|].
  simpl watch_steps. unfold mbind, M_bind, watch_step at 1. by rewrite Hw.
Qed.

Lemma set_watcher_same w wt : watcher w = Some wt → set_watcher (Some wt) w = w.
Proof. destruct w. simpl. by intros ->. Qed.

(** Changes only arm the timer. *)
Lemma watch_steps_changes ps rest w wt :
  watcher w = Some wt →
  watch_steps T (List.map FsChange ps ++ rest) w
  = watch_steps T rest
      (set_watcher
         (Some (set_armed (armed wt || existsb (relevant T wt) ps) wt)) w).
Proof.
  revert w wt. induction ps as [|p ps IH]; intros w wt Hw.
  - simpl. rewrite orb_false_r.
    replace (set_armed (armed wt) wt) with wt by by destruct wt.
    by rewrite set_watcher_same.
  - simpl List.map. simpl app. simpl watch_steps.
    unfold mbind, M_bind, watch_step at 1. rewrite Hw.
    destruct (relevant T wt p) eqn:Hr.
    + rewrite (IH _ (set_armed true wt)) by done. simpl.
      by rewrite orb_true_r.
    + rewrite (IH _ wt) by done. done.
Qed.

(** A trigger runs the three tasks and leaves the timer unarmed. *)
Lemma watch_step_trigger w wt :
  watcher w = Some wt → armed wt = true →
  handler wt = [TBundle; TCompile; TAddDeprecatedFunctions] →
  ∃ tr,
    trace (watch_step T TimerElapsed w).2 = (trace w ++ tr)%list
    ∧ started tr = [TBundle; TCompile; TAddDeprecatedFunctions]
    ∧ watcher (watch_step T TimerElapsed w).2 = Some (set_armed false wt).
Proof.
  intros Hw Ha Hh. unfold watch_step. rewrite Hw, Ha.
  destruct (parallel_events T (handler wt)
              (set_watcher (Some (set_armed false wt)) w))
    as (o & x & tr & Hp & Htr & Hst & _ & Hwa & _).
  { rewrite Hh. repeat constructor; set_solver. }
  rewrite Hp. exists tr. rewrite <- Hh. by destruct x.
Qed.

Lemma watch_step_timer_idle w wt :
  watcher w = Some wt → armed wt = false →
  watch_step T TimerElapsed w = (Ok tt, w).
Proof. intros Hw Ha. unfold watch_step. by rewrite Hw, Ha. Qed.


End Debounce.


(** ** Further properties: what the tasks leave alone *)

Global Instance writes_only_preorder d names : PreOrder (writes_only d names).
Proof.
  split; unfold writes_only.
  - by intros w Hc.
  - intros w1 w2 w3 H1 H2 Hc. destruct (H1 Hc) as [Hc2 Hf2].
    destruct (H2 Hc2) as [Hc3 Hf3]. split; [done|].
    intros q Hq. by rewrite Hf3, Hf2.
Qed.

Lemma writes_only_writeFileSync d names p c :
  p ∈ names → preserves (writes_only d names) (writeFileSync p c).
Proof.
  intros Hp w Hc. unfold writeFileSync. case_decide; [done|]. simpl.
  split; [done|]. intros q Hq. rewrite Hc. apply lookup_insert_ne.
  intros <-. apply Hq. by apply list_elem_of_fmap_2.
Qed.

(** A step that touches neither the files nor the working directory. *)
Ltac writes_only_prim :=
  intros ? ?; unfold log, date_now_iso, modify, gets, done_cb; simpl;
  repeat case_match; simpl; done.

Lemma fs_run_task n f w :
  fs (run_task n f w).2 = fs (invoke f (emit (EvStart n) (set_signalled None w))).2.
Proof.
  unfold run_task. destruct (invoke f _) as [r w1]. simpl.
  by destruct (settle _ r).
Qed.

Section Frame.

Variable T : Tools.

Lemma writeBanner_writes_only d :
  preserves (writes_only d [COMPILED_HEADER]) (writeBanner T done_cb).
Proof.
  unfold writeBanner, createBanner, getVersion.
  repeat first [ preserves_step
               | apply writes_only_writeFileSync; set_solver
               | writes_only_prim ].
Qed.

Lemma addDeprecatedFunctions_writes_only d :
  preserves (writes_only d [COMPILED_MAIN_ANY]) (addDeprecatedFunctions done_cb).
Proof.
  unfold addDeprecatedFunctions.
  repeat first [ preserves_step
               | apply writes_only_writeFileSync; set_solver
               | writes_only_prim ].
Qed.

Lemma minify_body_writes_only d :
  preserves (writes_only d [FILE_MIN; FILE_MAP])
    (try_catch
       (code ← readFileSync FILE;
        let result := uglify_minify T code in
        match u_error result with
        | Some e => throw e
        | None => mret tt
        end;;
        writeFileSync FILE_MIN (u_code result);;
        writeFileSync FILE_MAP (u_map result);;
        log ("Minified " +:+ FILE_MIN);;
        log ("Mapped " +:+ FILE_MAP))
       (λ e, throw e)).
Proof.
  repeat first [ preserves_step
               | apply writes_only_writeFileSync; set_solver
               | writes_only_prim ].
Qed.

Lemma minify_files w q :
  q ≠ resolve (cwd w) (DIST T) +:+ "/math.min.js" →
  q ≠ resolve (cwd w) (DIST T) +:+ "/math.min.map" →
  files (fs (minify T done_cb w).2) !! q = files (fs w) !! q.
Proof.
  intros Hmin Hmap. unfold minify, mbind at 1, M_bind at 1, process_cwd.
  case_decide as Hin; [|done].
  unfold mbind at 1, M_bind at 1, process_chdir at 1.
  case_decide as Hdist; [|done].
  set (w1 := set_cwd _ w). unfold mbind at 1, M_bind at 1, try_finally.
  destruct (minify_body_writes_only (resolve (cwd w) (DIST T)) w1 eq_refl)
    as [_ Hf].
  destruct (try_catch _ _ w1) as [r1 wb]. simpl in Hf.
  assert (files (fs wb) !! q = files (fs w) !! q) as Hq.
  { apply Hf. intros Hq.
    apply elem_of_cons in Hq as [->|Hq]; [by apply Hmin|].
    apply list_elem_of_singleton in Hq as ->. by apply Hmap. }
  unfold process_chdir. case_decide; [|by destruct r1].
  destruct r1 as [[]|e]; [unfold done_cb|]; simpl; [|done].
  by destruct (signalled wb).
Qed.

(** X19: whatever the outcome, a task of the script that calls no tool on
    the file system changes no file but its own output: [writeBanner] only
    ./lib/header.js, [addDeprecatedFunctions] only ./lib/entry/mainAny.js,
    and [minify] only math.min.js and math.min.map in the dist directory,
    so never the bundle math.js it reads. *)
Theorem tasks_write_only_their_outputs (w : World) (q : string) :
  let dist := resolve (cwd w) (dirname T +:+ "/dist") in
  (q ≠ resolve (cwd w) "./lib/header.js" →
   files (fs (run_task TWriteBanner (task_fn T TWriteBanner) w).2) !! q
   = files (fs w) !! q)
  ∧ (q ≠ resolve (cwd w) "./lib/entry/mainAny.js" →
     files (fs (run_task TAddDeprecatedFunctions
                  (task_fn T TAddDeprecatedFunctions) w).2) !! q
     = files (fs w) !! q)
  ∧ (q ≠ dist +:+ "/math.min.js" → q ≠ dist +:+ "/math.min.map" →
     files (fs (run_task TMinify (task_fn T TMinify) w).2) !! q
     = files (fs w) !! q).
Proof.
  intros dist. rewrite !fs_run_task. simpl invoke. split_and!.
  - intros Hq.
    destruct (writeBanner_writes_only (cwd w)
                (emit (EvStart TWriteBanner) (set_signalled None w)) eq_refl)
      as [_ Hf].
    rewrite Hf; [done|]. intros Hin.
    apply list_elem_of_fmap in Hin as (n & -> & Hn).
    by apply list_elem_of_singleton in Hn as ->.
  - intros Hq.
    destruct (addDeprecatedFunctions_writes_only (cwd w)
                (emit (EvStart TAddDeprecatedFunctions) (set_signalled None w))
                eq_refl) as [_ Hf].
    rewrite Hf; [done|]. intros Hin.
    apply list_elem_of_fmap in Hin as (n & -> & Hn).
    by apply list_elem_of_singleton in Hn as ->.
  - intros Hmin Hmap. by rewrite minify_files.
Qed.

End Frame.

Lemma tasks_write_only_their_outputs_witness :
  let w := Node.with_file "/proj/dist/math.js" "var math = {};"
             (Node.project "{}" "") in
  files (fs (run_task TMinify (task_fn (Node.tools [] []) TMinify) w).2)
    !! "/proj/dist/math.js"
  = Some "var math = {};".
Proof.
  intros w.
  refine (eq_trans (proj2 (proj2 (tasks_write_only_their_outputs
                     (Node.tools [] []) w "/proj/dist/math.js")) _ _) _).
  - by vm_compute.
  - by vm_compute.
  - by vm_compute.
Defined.

(** ** Further properties: the date of the banner, for every clock *)

Lemma mem_dateChars c s :
  all_chars isDateChar s = true → isDateChar c = false → mem c s = false.
Proof.
  intros Hs Hc. induction s as [|x s IH]; [done|].
  simpl in Hs. apply andb_true_iff in Hs as [Hx Hs]. simpl.
  rewrite decide_False; [by apply IH|]. intros ->. congruence.
Qed.

Lemma plain_dateChars s :
  s ≠ "" → all_chars isDateChar s = true → plain s = true.
Proof.
  intros Hne Hs. destruct s as [|c s]; [done|]. unfold plain.
  rewrite !(mem_dateChars _ (String c s)) by done.
  simpl in Hs. apply andb_true_iff in Hs as [Hc _].
  assert (∀ t, (∀ x, mem x t = true → isDateChar x = false) → mem c t = false)
    as Hno.
  { intros t Ht. destruct (mem c t) eqn:E; [|done]. apply Ht in E. congruence. }
  rewrite !Hno; [done|..]; intros x Hx; simpl in Hx;
    repeat (case_decide; [by subst|]); done.
Qed.

Lemma isDateChar_digit z : isDateChar (digitChar z) = true.
Proof. unfold isDateChar. by rewrite digitChar_isDigit. Qed.

Lemma today_out_of_range w :
  ¬ (0 ≤ year (now w) ≤ 9999) →
  today w
  = String (if decide (year (now w) < 0) then "-" else "+")%char
      (String (digitChar (Z.abs (year (now w)) / 10 / 10 / 10 / 10 / 10))
         (String (digitChar (Z.abs (year (now w)) / 10 / 10 / 10 / 10))
            (String (digitChar (Z.abs (year (now w)) / 10 / 10 / 10))
               (String (digitChar (Z.abs (year (now w)) / 10 / 10))
                  (String (digitChar (Z.abs (year (now w)) / 10))
                     (String (digitChar (Z.abs (year (now w))))
                        (String "-"
                           (String (digitChar (month (now w) / 10))
                              (String (digitChar (month (now w))) ""))))))))).
Proof.
  intros Hy. unfold today, toISOString, isoYear. rewrite decide_False by done.
  by destruct (decide (year (now w) < 0)).
Qed.

(** X20: whatever the clock says, the date [createBanner] puts into the
    banner has ten characters, all of them digits, [-] or [+], so it holds
    no placeholder and nothing the second substitution could take for one.
    For a year from 0 to 9999 it is the date as yyyy-mm-dd; for any other
    year the ten characters are the sign, six digits of the year and the
    month, and the day is cut off. *)
Theorem today_for_every_clock (w : World) :
  let d := now w in
  String.length (today w) = 10%nat
  ∧ all_chars isDateChar (today w) = true
  ∧ plain (today w) = true
  ∧ (0 ≤ year d ≤ 9999 →
     today w = fixed 4 (year d) +:+ "-" +:+ fixed 2 (month d)
               +:+ "-" +:+ fixed 2 (day d))
  ∧ (¬ (0 ≤ year d ≤ 9999) →
     today w = (if decide (year d < 0) then "-" else "+")
               +:+ fixed 6 (Z.abs (year d)) +:+ "-" +:+ fixed 2 (month d)).
Proof.
  intros d. subst d.
  assert (String.length (today w) = 10%nat
          ∧ all_chars isDateChar (today w) = true) as [Hl Hc].
  { destruct (decide (0 ≤ year (now w) ≤ 9999)) as [Hy|Hy].
    - rewrite today_chars by done. split; [done|].
      cbn [all_chars]. by rewrite !isDateChar_digit.
    - rewrite today_out_of_range by done. split; [done|].
      cbn [all_chars]. rewrite !isDateChar_digit.
      by destruct (decide (year (now w) < 0)). }
  split_and!; [done..| |by apply today_in_range|].
  - apply plain_dateChars; [|done]. intros H. by rewrite H in Hl.
  - intros Hy. rewrite today_out_of_range by done.
    by destruct (decide (year (now w) < 0)).
Qed.

Lemma today_for_every_clock_witness :
  let w := Node.project "{}" "" in today w = "2024-01-01".
Proof.
  intros w.
  refine (eq_trans (proj1 (proj2 (proj2 (proj2 (today_for_every_clock w)))) _) _).
  - by vm_compute.
  - reflexivity.
Defined.

(** ** Further properties: the working directory of a run *)

Global Instance stays_in_place_preorder : PreOrder stays_in_place.
Proof.
  split; unfold stays_in_place; [done|].
  intros w1 w2 w3 H1 H2 Habs. rewrite H2, H1; [done..|]. by rewrite H1.
Qed.

(** A step that does not touch the working directory. *)
Ltac stays_prim :=
  intros ? ?; unfold writeFileSync, log, date_now_iso, external, external_r,
    modify, gets, done_cb, gulp_watch; simpl;
  repeat case_match; simpl; done.

Section WorkingDirectory.

Variable T : Tools.

Lemma minify_stays : preserves stays_in_place (minify T done_cb).
Proof.
  intros w Habs. unfold minify, mbind at 1, M_bind at 1, process_cwd.
  case_decide as Hin; [|done].
  unfold mbind at 1, M_bind at 1, process_chdir at 1.
  case_decide as Hdist; [|done].
  set (w1 := set_cwd _ w). unfold mbind at 1, M_bind at 1, try_finally.
  pose proof (minify_body_same_dirs T w1) as Hd. unfold same_dirs in Hd.
  destruct (try_catch _ _ w1) as [r1 wb]. simpl in Hd.
  unfold process_chdir. rewrite (resolve_absolute _ _ Habs), Hd.
  rewrite decide_True by done.
  destruct r1 as [[]|e]; [unfold done_cb|]; simpl; [|done].
  by destruct (signalled wb).
Qed.

Lemma invoke_stays n : preserves stays_in_place (invoke (task_fn T n)).
Proof.
  destruct n; simpl task_fn;
    try (apply invoke_stream; [apply _|done|]);
    simpl; try apply minify_stays;
    unfold bundle, bundle_onRun, createBanner, updateVersionFile, getVersion,
      compile, writeBanner, generateEntryFiles, addDeprecatedFunctions,
      validate, generateDocs, watch;
    repeat first [preserves_step | stays_prim].
Qed.

Lemma run_task_stays n : preserves stays_in_place (run_task n (task_fn T n)).
Proof.
  intros w Habs. unfold run_task.
  pose proof (invoke_stays n (emit (EvStart n) (set_signalled None w)) Habs) as H.
  destruct (invoke _ _) as [r w1]. simpl in *. by destruct (settle _ r).
Qed.

Lemma series_stays ts : preserves stays_in_place (series T ts).
Proof.
  induction ts as [|t ts IH]; simpl series; [by intros w ?|].
  apply preserves_bind; [apply _|apply run_task_stays|].
  intros [[|e]|]; [apply IH|by intros w ?..].
Qed.

Lemma run_task_escaping_stays n :
  preserves stays_in_place (run_task_escaping n (task_fn T n)).
Proof.
  intros w Habs.
  destruct (run_task_escaping_run n (task_fn T n) w) as (o & x & -> & _).
  by apply run_task_stays.
Qed.

Lemma parallel_stays ts : preserves stays_in_place (parallel T ts).
Proof.
  induction ts as [|t ts IH]; simpl parallel; [by intros w ?|].
  apply preserves_bind; [apply _|apply run_task_escaping_stays|]. intros [o x].
  apply preserves_bind; [apply _|apply IH|]. intros [o' x']. by intros w ?.
Qed.

Lemma watch_step_stays ev : preserves stays_in_place (watch_step T ev).
Proof.
  intros w Habs. unfold watch_step.
  destruct (watcher w) as [wt|]; [|done].
  destruct ev as [p|]; [by destruct (relevant T wt p)|].
  destruct (armed wt); [|done].
  pose proof (parallel_stays (handler wt)
                (set_watcher (Some (set_armed false wt)) w) Habs) as H.
  by destruct (parallel T _ _) as [[[o [e|]]|e] w'].
Qed.

Lemma watch_steps_stays evs : preserves stays_in_place (watch_steps T evs).
Proof.
  induction evs as [|ev evs IH]; simpl watch_steps; [by intros w ?|].
  apply preserves_bind; [apply _|apply watch_step_stays|]. by intros [].
Qed.

Lemma load_stays : preserves stays_in_place (load T).
Proof. intros w _. by rewrite load_world. Qed.

(** X21: from an absolute working directory, [gulp] and [gulp watch] never
    leave the process in another directory: after the default pipeline,
    and after every run of the watch loop, however the tasks end, the
    working directory is the one the process started in. *)
Theorem process_stays_in_place (w : World) (evs : list WatchEvent) :
  startsWith "/" (cwd w) = true →
  cwd (run_once T w).2 = cwd w ∧ cwd (watch_session T evs w).2 = cwd w.
Proof.
  intros Habs. split.
  - revert w Habs. change (preserves stays_in_place (run_once T)).
    unfold run_once, default.
    apply preserves_bind; [apply _|apply load_stays|]. intros _.
    apply series_stays.
  - revert w Habs. change (preserves stays_in_place (watch_session T evs)).
    unfold watch_session, run_watch.
    apply preserves_bind; [apply _| |intros _; apply watch_steps_stays].
    apply preserves_bind; [apply _|apply load_stays|]. intros _.
    apply run_task_stays.
Qed.

(** X22: [generateDocs] hands the doc generator the names of the exports
    that are functions, in their order, and no other, on the file system
    the loading of the bundle left; it ends with success when both steps
    return, and with the error of the step that throws otherwise, in
    which case the callback is not called. *)
Theorem generateDocs_outcomes (w : World) :
  let r := run_task TGenerateDocs (task_fn T TGenerateDocs) w in
  match require_bundleAny T (cwd w) (fs w) with
  | (Throw e, f1) =>
      r.1 = Ok (Some (Failure e)) ∧ fs r.2 = f1
      ∧ trace r.2
        = (trace w ++ [EvStart TGenerateDocs;
                       EvEnd TGenerateDocs (Failure e)])%list
  | (Ok all, f1) =>
      let functionNames :=
        omap (λ kv : string * bool, if kv.2 then Some kv.1 else None) all in
      match docgenerator_iteratePath T functionNames (cwd w) f1 with
      | (Throw e, f2) =>
          r.1 = Ok (Some (Failure e)) ∧ fs r.2 = f2
          ∧ trace r.2
            = (trace w ++ [EvStart TGenerateDocs;
                           EvEnd TGenerateDocs (Failure e)])%list
      | (Ok _, f2) =>
          r.1 = Ok (Some Success) ∧ fs r.2 = f2
          ∧ trace r.2
            = (trace w ++ [EvStart TGenerateDocs; EvDone None;
                           EvEnd TGenerateDocs Success])%list
      end
  end.
Proof.
  assert (∀ all : list (string * bool),
            List.map fst (List.filter snd all)
            = omap (λ kv : string * bool, if kv.2 then Some kv.1 else None) all)
    as Hnames.
  { induction all as [|[k []] all IH]; simpl; by rewrite ?IH. }
  unfold run_task. simpl. unfold generateDocs, external_r, mbind, M_bind. simpl.
  destruct (require_bundleAny T (cwd w) (fs w)) as [[all|e] f1]; simpl.
  - rewrite Hnames.
    destruct (docgenerator_iteratePath T _ (cwd w) f1) as [[[]|e] f2]; simpl;
      by rewrite <- !(assoc_L (++)).
  - by rewrite <- !(assoc_L (++)).
Qed.

End WorkingDirectory.

Lemma process_stays_in_place_witness :
  let T := Node.tools [] [] in
  let w := Node.project (Node.manifest "9.9.9") "/* @@version @@date */" in
  cwd (run_once T w).2 = "/proj"
  ∧ cwd (watch_session T [FsChange "/proj/src/add.js"; TimerElapsed] w).2 = "/proj".
Proof.
  intros T w.
  exact (process_stays_in_place T w [FsChange "/proj/src/add.js"; TimerElapsed]
           eq_refl).
Defined.

(** ** The artifacts of a run *)

Lemma same_inputs_writeFileSync_version c :
  preserves same_inputs (writeFileSync VERSION c).
Proof.
  intros w. unfold writeFileSync. case_decide; [done|].
  split_and!; [done..|]. intros p Hp. simpl. apply lookup_insert_ne.
  unfold banner_inputs in Hp.
  apply elem_of_cons in Hp as [->|Hp];
    [|apply list_elem_of_singleton in Hp as ->];
    by intros ?%(inj (String.append _)).
Qed.

Lemma same_inputs_external {A} (f : string → FileSystem → A * FileSystem) :
  keeps_inputs f → preserves same_inputs (external f).
Proof.
  intros Hk w. unfold external. specialize (Hk (cwd w) (fs w)).
  destruct (f (cwd w) (fs w)) as [a f']. by split_and!.
Qed.

Lemma same_inputs_external_r {A} (f : string → FileSystem → Result A * FileSystem) :
  keeps_inputs f → preserves same_inputs (external_r f).
Proof.
  intros Hk w. unfold external_r. specialize (Hk (cwd w) (fs w)).
  destruct (f (cwd w) (fs w)) as [a f']. by split_and!.
Qed.

(** Two texts that end differently are different. *)
Lemma str_app_inv_suffix x y s t :
  String.length s = String.length t → x +:+ s = y +:+ t → s = t.
Proof.
  intros Hl. revert y. induction x as [|c x IH]; intros [|c' y] H.
  - done.
  - apply (f_equal String.length) in H.
    change ("" +:+ s) with s in H. rewrite str_app_cons in H. simpl in H.
    rewrite str_length_app in H. lia.
  - apply (f_equal String.length) in H.
    change ("" +:+ t) with t in H. rewrite str_app_cons in H. simpl in H.
    rewrite str_length_app in H. lia.
  - rewrite !str_app_cons in H. injection H as _ H. by apply (IH y).
Qed.

(** The minifier's outputs are none of the artifacts. *)
Lemma artifact_not_minified d x p :
  p ∈ artifacts →
  resolve d p ≠ x +:+ "/math.min.js" ∧ resolve d p ≠ x +:+ "/math.min.map".
Proof.
  unfold artifacts. intros Hp.
  apply elem_of_cons in Hp as [->|Hp]; [|apply list_elem_of_singleton in Hp as ->].
  - change (resolve d COMPILED_HEADER) with (d +:+ "/lib/heade" +:+ "r.js").
    split; intros H.
    + change "/math.min.js" with ("/math.mi" +:+ "n.js") in H.
      rewrite <- !str_app_assoc in H. by apply str_app_inv_suffix in H.
    + change "/math.min.map" with ("/math.min." +:+ "map") in H.
      change ("/lib/heade" +:+ "r.js") with ("/lib/header" +:+ ".js") in H.
      rewrite <- !str_app_assoc in H. by apply str_app_inv_suffix in H.
  - change (resolve d VERSION) with (d +:+ "/src/vers" +:+ "ion.js").
    split; intros H.
    + change "/math.min.js" with ("/math." +:+ "min.js") in H.
      rewrite <- !str_app_assoc in H. by apply str_app_inv_suffix in H.
    + change "/math.min.map" with ("/math.min." +:+ "map") in H.
      change ("/src/vers" +:+ "ion.js") with ("/src/version" +:+ ".js") in H.
      rewrite <- !str_app_assoc in H. by apply str_app_inv_suffix in H.
Qed.

Global Instance files_stay_preorder d names : PreOrder (files_stay d names).
Proof.
  split; unfold files_stay.
  - by intros w Hc.
  - intros w1 w2 w3 H1 H2 Hc. destruct (H1 Hc) as [Hc2 Hf2].
    destruct (H2 Hc2) as [Hc3 Hf3]. split; [done|].
    intros p Hp. by rewrite Hf3, Hf2.
Qed.

Lemma files_stay_external {A} d names
    (f : string → FileSystem → A * FileSystem) :
  keeps_files names f → preserves (files_stay d names) (external f).
Proof.
  intros Hk w Hc. unfold external. specialize (Hk (cwd w) (fs w)).
  destruct (f (cwd w) (fs w)) as [a f']. simpl in *. split; [done|].
  intros p Hp. rewrite <- Hc. by apply Hk.
Qed.

Lemma files_stay_external_r {A} d names
    (f : string → FileSystem → Result A * FileSystem) :
  keeps_files names f → preserves (files_stay d names) (external_r f).
Proof.
  intros Hk w Hc. unfold external_r. specialize (Hk (cwd w) (fs w)).
  destruct (f (cwd w) (fs w)) as [a f']. simpl in *. split; [done|].
  intros p Hp. rewrite <- Hc. by apply Hk.
Qed.

(** A step that touches neither the files nor the working directory. *)
Ltac files_stay_prim :=
  intros ? ?; unfold log, date_now_iso, modify, gets, done_cb; simpl;
  repeat case_match; simpl; done.

Lemma run_task_preserves (R : relation World) `{!PreOrder R} n f :
  (∀ w e, R w (emit e w)) → (∀ w s, R w (set_signalled s w)) →
  preserves R (invoke f) → preserves R (run_task n f).
Proof.
  intros He Hs Hf w. unfold run_task.
  specialize (Hf (emit (EvStart n) (set_signalled None w))).
  destruct (invoke f _) as [r w1]. simpl in *.
  assert (R w w1) as Hw.
  { etrans; [apply (Hs _ None)|]. etrans; [apply (He _ (EvStart n))|]. done. }
  destruct (settle _ r); simpl; [|done]. etrans; [done|]. apply He.
Qed.

Section Artifacts.

Variable T : Tools.
Variables (w : World) (manifest header : string) (props : list (string * JSValue)).

Hypothesis Hpkg : files (fs w) !! resolve (cwd w) "./package.json" = Some manifest.
Hypothesis Hparse : JSON_parse T manifest = Ok (JObject props).
Hypothesis Hversion : lookup_prop "version" props = JString "9.9.9".
Hypothesis Htpl : files (fs w) !! resolve (cwd w) HEADER = Some header.
Hypothesis Habs : startsWith "/" (cwd w) = true.
(* no tool touches the manifest or the template before the banner is made *)
Hypothesis Hwebpack : ∀ banner, keeps_inputs (webpack_run T banner).
Hypothesis Hbabel : keeps_inputs (babel_pipeline T).
(* and none touches an artifact once it is written *)
Hypothesis Hwebpack_version : ∀ banner, keeps_files [VERSION] (webpack_run T banner).
Hypothesis Hbabel_version : keeps_files [VERSION] (babel_pipeline T).
Hypothesis Hentries : keeps_files artifacts (entryGenerator_generateEntryFiles T).
Hypothesis Hexec : keeps_files artifacts (execFile_validate T).
Hypothesis Hrequire : keeps_files artifacts (require_bundleAny T).
Hypothesis Hdocs : ∀ names, keeps_files artifacts (docgenerator_iteratePath T names).

Lemma getVersion_stable w' :
  same_inputs w w' → getVersion T w' = (Ok (JString "9.9.9"), w').
Proof.
  intros (Hc & _ & Hf).
  rewrite (getVersion_parsed T w' manifest (JObject props)); [|by rewrite Hc, Hf; [|set_solver]|done].
  simpl. by rewrite Hversion.
Qed.

Lemma createBanner_stable w' :
  same_inputs w w' →
  createBanner T w' = (Ok (renderBanner header (today w) "9.9.9"), w').
Proof.
  intros Hs. pose proof Hs as (Hc & Hn & Hf). unfold createBanner.
  unfold mbind at 1, M_bind at 1, date_now_iso, gets.
  rewrite (bind_ok _ _ _ _ _ (getVersion_stable w' Hs)).
  erewrite bind_ok; [|apply readFileSync_found; rewrite Hc, Hf; [done|set_solver]].
  unfold today. by rewrite Hn.
Qed.

Lemma bundle_same_inputs : preserves same_inputs (invoke (task_fn T TBundle)).
Proof.
  simpl. unfold bundle, bundle_onRun, createBanner, updateVersionFile, getVersion.
  repeat first [preserves_step | by apply same_inputs_writeFileSync_version
               | by apply same_inputs_external | preserves_prim].
Qed.

Lemma compile_same_inputs : preserves same_inputs (invoke (task_fn T TCompile)).
Proof.
  simpl task_fn. apply invoke_stream; [apply _|done|].
  by apply same_inputs_external_r.
Qed.

Lemma run_task_same_inputs n w' :
  preserves same_inputs (invoke (task_fn T n)) →
  same_inputs w' (run_task n (task_fn T n) w').2.
Proof.
  intros Hp. unfold run_task.
  specialize (Hp (emit (EvStart n) (set_signalled None w'))).
  destruct (invoke _ _) as [r w1]. simpl in *. by destruct (settle _ r).
Qed.

Lemma bundle_run w0 :
  same_inputs w w0 →
  let path := resolve (cwd w0) VERSION in
  let banner := renderBanner header (today w) "9.9.9" in
  (path ∈ unwritable (fs w0)
   ∧ bundle T done_cb w0 = (Throw (FsError "open" path), w0))
  ∨ (bundle T done_cb w0
     = ('(err, stats) ← external (webpack_run T banner);
        bundle_onRun T done_cb err stats)
         (emit (EvWrite path (versionFileText "9.9.9"))
            (set_fs (set_file path (versionFileText "9.9.9") (fs w0)) w0))).
Proof.
  intros Hs0 path banner. unfold bundle.
  rewrite (bind_ok _ _ _ _ _ (createBanner_stable w0 Hs0)).
  assert (updateVersionFile T w0 = writeFileSync VERSION (versionFileText "9.9.9") w0)
    as Hu.
  { unfold updateVersionFile.
    by rewrite (bind_ok _ _ _ _ _ (getVersion_stable w0 Hs0)). }
  destruct (decide (path ∈ unwritable (fs w0))) as [Hin|Hin].
  - left. split; [done|]. erewrite bind_throw; [done|].
    by rewrite Hu, writeFileSync_refused.
  - right. erewrite bind_ok; [done|]. by rewrite Hu, writeFileSync_ok.
Qed.

Lemma bundle_tail_keeps_version banner :
  preserves (files_stay (cwd w) [VERSION])
    ('(err, stats) ← external (webpack_run T banner);
     bundle_onRun T done_cb err stats).
Proof.
  unfold bundle_onRun.
  repeat first [ preserves_step
               | by apply files_stay_external
               | files_stay_prim ].
Qed.

(** A bundle task that ends with success leaves the version file. *)
Lemma bundle_leaves_version w' :
  same_inputs w w' →
  (run_task TBundle (task_fn T TBundle) w').1 = Ok (Some Success) →
  files (fs (run_task TBundle (task_fn T TBundle) w').2) !! resolve (cwd w) VERSION
  = Some (versionFileText "9.9.9").
Proof.
  intros Hs. unfold run_task. simpl invoke.
  set (w0 := emit (EvStart TBundle) (set_signalled None w')).
  assert (same_inputs w w0) as Hs0 by done.
  destruct Hs as (Hc & _).
  destruct (bundle_run w0 Hs0) as [[_ ->]| ->]; [done|].
  change (cwd w0) with (cwd w'). rewrite Hc.
  set (w1 := emit _ (set_fs _ w0)).
  destruct (bundle_tail_keeps_version (renderBanner header (today w) "9.9.9") w1)
    as [_ Hf]; [done|].
  specialize (Hf VERSION ltac:(set_solver)).
  destruct ((external _ ≫= _) w1) as [r w2]. simpl in Hf. cbv zeta.
  intros _. assert (files (fs w2) !! resolve (cwd w) VERSION
                    = Some (versionFileText "9.9.9")) as Hv.
  { rewrite Hf. apply lookup_insert_eq. }
  by destruct (settle _ r).
Qed.

Lemma compile_keeps_version :
  preserves (files_stay (cwd w) [VERSION]) (invoke (task_fn T TCompile)).
Proof.
  simpl task_fn. apply invoke_stream; [apply _|done|].
  by apply files_stay_external_r.
Qed.

Lemma writeBanner_run w0 :
  same_inputs w w0 →
  let path := resolve (cwd w0) COMPILED_HEADER in
  let banner := renderBanner header (today w) "9.9.9" in
  (path ∈ unwritable (fs w0)
   ∧ writeBanner T done_cb w0 = (Throw (FsError "open" path), w0))
  ∨ (writeBanner T done_cb w0
     = done_cb None
         (emit (EvWrite path banner) (set_fs (set_file path banner (fs w0)) w0))).
Proof.
  intros Hs0 path banner. unfold writeBanner.
  rewrite (bind_ok _ _ _ _ _ (createBanner_stable w0 Hs0)).
  destruct (decide (path ∈ unwritable (fs w0))) as [Hin|Hin].
  - left. split; [done|]. erewrite bind_throw; [done|].
    by rewrite writeFileSync_refused.
  - right. erewrite bind_ok; [done|]. by rewrite writeFileSync_ok.
Qed.

(** A banner task that ends with success leaves the banner, and the
    version file as it was. *)
Lemma writeBanner_leaves_banner w' :
  same_inputs w w' →
  (run_task TWriteBanner (task_fn T TWriteBanner) w').1 = Ok (Some Success) →
  cwd (run_task TWriteBanner (task_fn T TWriteBanner) w').2 = cwd w
  ∧ files (fs (run_task TWriteBanner (task_fn T TWriteBanner) w').2)
      !! resolve (cwd w) COMPILED_HEADER
    = Some (renderBanner header (today w) "9.9.9")
  ∧ files (fs (run_task TWriteBanner (task_fn T TWriteBanner) w').2)
      !! resolve (cwd w) VERSION
    = files (fs w') !! resolve (cwd w) VERSION.
Proof.
  intros Hs. unfold run_task. simpl invoke.
  set (w0 := emit (EvStart TWriteBanner) (set_signalled None w')).
  assert (same_inputs w w0) as Hs0 by done.
  destruct Hs as (Hc & _).
  destruct (writeBanner_run w0 Hs0) as [[_ ->]| ->]; [done|].
  change (cwd w0) with (cwd w'). rewrite Hc. simpl. intros _.
  split_and!; [done|apply lookup_insert_eq|].
  apply lookup_insert_ne. by intros ?%(inj (String.append _)).
Qed.

(** The tasks after the banner task leave both artifacts alone. *)
Lemma later_task_keeps_artifacts t :
  t ∈ [TGenerateEntryFiles; TAddDeprecatedFunctions; TMinify; TValidate;
       TGenerateDocs] →
  preserves (files_stay (cwd w) artifacts) (invoke (task_fn T t)).
Proof.
  intros Ht. repeat (apply elem_of_cons in Ht as [->|Ht]);
    [..|by apply elem_of_nil in Ht]; simpl invoke.
  - unfold generateEntryFiles.
    repeat first [preserves_step | by apply files_stay_external_r | files_stay_prim].
  - intros w1 Hc.
    destruct (addDeprecatedFunctions_writes_only (cwd w) w1 Hc) as [Hc' Hf].
    split; [done|]. intros p Hp. apply Hf. intros Hin.
    apply list_elem_of_singleton in Hin. unfold artifacts in Hp.
    apply elem_of_cons in Hp as [->|Hp];
      [|apply list_elem_of_singleton in Hp as ->];
      by apply (inj (String.append _)) in Hin.
  - intros w1 Hc. split.
    + rewrite <- Hc. apply (minify_stays T w1). by rewrite Hc.
    + intros p Hp. rewrite <- Hc.
      destruct (artifact_not_minified (cwd w1) (resolve (cwd w1) (DIST T)) p Hp).
      by apply minify_files.
  - unfold validate.
    repeat first [preserves_step | by apply files_stay_external | files_stay_prim].
  - unfold generateDocs.
    repeat first [preserves_step | by apply files_stay_external_r | files_stay_prim].
Qed.

Lemma later_tasks_keep_artifacts ts :
  ts ⊆ [TGenerateEntryFiles; TAddDeprecatedFunctions; TMinify; TValidate;
        TGenerateDocs] →
  preserves (files_stay (cwd w) artifacts) (series T ts).
Proof.
  induction ts as [|t ts IH]; intros Hts; simpl series; [by intros w1 ?|].
  apply preserves_bind; [apply _| |].
  - apply run_task_preserves; [apply _|done|done|].
    apply later_task_keeps_artifacts, Hts. set_solver.
  - intros [[|e]|]; [apply IH; set_solver|by intros w1 ?..].
Qed.

Lemma series_cons_cases t ts w0 :
  ((run_task t (task_fn T t) w0).1 = Ok (Some Success)
   ∧ series T (t :: ts) w0 = series T ts (run_task t (task_fn T t) w0).2)
  ∨ (∃ o, o ≠ Some Success
          ∧ (run_task t (task_fn T t) w0).1 = Ok o
          ∧ series T (t :: ts) w0 = (Ok o, (run_task t (task_fn T t) w0).2)).
Proof.
  simpl series. unfold mbind, M_bind.
  destruct (run_task_events T t w0) as (o1 & evs1 & Hr & _).
  destruct (run_task t (task_fn T t) w0) as [r1 w1]. simpl in Hr. subst r1.
  destruct o1 as [[|e]|];
    [by left|right; by exists (Some (Failure e))|right; by exists None].
Qed.

(** A series in which a task ends with success has run the tasks before
    it with success. *)
Lemma series_reaches ts1 t ts2 w0 :
  t ∉ ts1 →
  EvEnd t Success ∈ emitted (series T (ts1 ++ t :: ts2)) w0 →
  (series T ts1 w0).1 = Ok (Some Success)
  ∧ (run_task t (task_fn T t) (series T ts1 w0).2).1 = Ok (Some Success)
  ∧ series T (ts1 ++ t :: ts2) w0
    = series T ts2 (run_task t (task_fn T t) (series T ts1 w0).2).2.
Proof.
  revert w0. induction ts1 as [|a ts1 IH]; intros w0 Hnot Hin.
  - change ([] ++ t :: ts2)%list with (t :: ts2) in *.
    change (series T [] w0) with (Ok (Some Success), w0). simpl fst. simpl snd.
    destruct (series_cons_cases t ts2 w0) as [[Hr Hs]|(o & Ho & Hro & Hs)]; [done|].
    exfalso. unfold emitted in Hin. rewrite Hs in Hin. simpl in Hin.
    destruct (run_task_events T t w0) as (o1 & evs1 & Hr & Ht & He).
    rewrite Ht, drop_app_length in Hin.
    assert (EvEnd t Success ∈ task_events evs1) as Hin'
      by by apply elem_of_task_events.
    rewrite He in Hin'.
    assert (o1 = o) as -> by congruence.
    destruct o as [[|e]|]; set_solver.
  - change ((a :: ts1) ++ t :: ts2)%list with (a :: ts1 ++ t :: ts2) in *.
    apply not_elem_of_cons in Hnot as [Hta Hnot].
    destruct (run_task_events T a w0) as (o1 & evs1 & Hr & Ht & He).
    destruct (series_cons_cases a (ts1 ++ t :: ts2) w0)
      as [[Hr1 Hs]|(o & Ho & Hro & Hs)].
    + destruct (series_cons_cases a ts1 w0) as [[_ Hs']|(o & Ho & Hro & Hs')].
      2: { exfalso. congruence. }
      rewrite Hs, Hs'. apply IH; [done|].
      unfold emitted in Hin |- *. rewrite Hs in Hin.
      destruct (series_events T (ts1 ++ t :: ts2) (run_task a (task_fn T a) w0).2)
        as (o2 & evs2 & _ & Ht2 & _).
      rewrite Ht2, Ht, <- (assoc_L (++)), drop_app_length in Hin.
      rewrite Ht2, drop_app_length.
      apply elem_of_app in Hin as [Hin|Hin]; [|done]. exfalso.
      assert (EvEnd t Success ∈ task_events evs1) as Hin'
        by by apply elem_of_task_events.
      rewrite He in Hin'. destruct o1 as [[|e]|]; set_solver.
    + exfalso. unfold emitted in Hin. rewrite Hs in Hin. simpl in Hin.
      rewrite Ht, drop_app_length in Hin.
      assert (EvEnd t Success ∈ task_events evs1) as Hin'
        by by apply elem_of_task_events.
      rewrite He in Hin'. destruct o1 as [[|e]|]; set_solver.
Qed.

Lemma series_success_cons t ts w' :
  (series T (t :: ts) w').1 = Ok (Some Success) →
  (run_task t (task_fn T t) w').1 = Ok (Some Success)
  ∧ series T (t :: ts) w' = series T ts (run_task t (task_fn T t) w').2.
Proof.
  intros H. destruct (series_cons_cases t ts w') as [?|(o & Ho & _ & Hs)]; [done|].
  rewrite Hs in H. simpl in H. congruence.
Qed.

Hypothesis Hhas_version : includes "@@version" header = true.
Hypothesis Hhas_date : includes "@@date" header = true.
Hypothesis Hyear : 0 ≤ year (now w) ≤ 9999.


End Artifacts.

Lemma stand_in_webpack_keeps ws es banner :
  keeps_inputs (webpack_run (Node.tools ws es) banner).
Proof.
  intros dir f p Hp. simpl. case_bool_decide; [done|]. simpl.
  apply lookup_insert_ne. unfold banner_inputs in Hp.
  apply elem_of_cons in Hp as [->|Hp];
    [|apply list_elem_of_singleton in Hp as ->];
    by intros ?%(inj (String.append _)).
Qed.

Lemma stand_in_babel_keeps ws es : keeps_inputs (babel_pipeline (Node.tools ws es)).
Proof.
  intros dir f p Hp. simpl. apply lookup_insert_ne. unfold banner_inputs in Hp.
  apply elem_of_cons in Hp as [->|Hp];
    [|apply list_elem_of_singleton in Hp as ->];
    by intros ?%(inj (String.append _)).
Qed.

Lemma stand_in_webpack_keeps_version ws es banner :
  keeps_files [VERSION] (webpack_run (Node.tools ws es) banner).
Proof.
  intros dir f p Hp. simpl. case_bool_decide; [done|]. simpl.
  apply lookup_insert_ne. apply list_elem_of_singleton in Hp as ->.
  by intros ?%(inj (String.append _)).
Qed.

Lemma stand_in_babel_keeps_version ws es :
  keeps_files [VERSION] (babel_pipeline (Node.tools ws es)).
Proof.
  intros dir f p Hp. simpl. apply lookup_insert_ne.
  apply list_elem_of_singleton in Hp as ->.
  by intros ?%(inj (String.append _)).
Qed.

